(** * PDFConvertor: batch conversion of Word documents to PDF

    A shallow embedding of the Python sources
      - [src/config/settings.py]            (module [settings])
      - [src/utils/exceptions.py]           (module [exceptions])
      - [src/validators/file_validator.py]  (module [FileValidator])
      - [src/validators/batch_validator.py] (module [BatchValidator])
      - [src/converters/pdf_generator.py]   (module [PDFGenerator])
      - [src/converters/document_converter.py] (module [DocumentConverter])
      - [src/converters/parallel_processor.py] (module [ParallelProcessor])
    followed by the properties of the batch processor.

    Conventions.  Python [int] is [Z]; [float] is the exact rational [Q];
    [str] is [string] (bytes of the UTF-8 encoding); a call that may raise
    returns a [result]; the file system and the document libraries are the
    fields of a [World]; what the process pool does to the tasks of a call
    is a [Pool], given with the call. *)

From Stdlib Require Import String Ascii List ZArith QArith Lia Bool.
From Stdlib Require Import Permutation DecimalString.
Import ListNotations.

Local Open Scope string_scope.
Local Open Scope Z_scope.

Set Implicit Arguments.

(* ================================================================= *)
(** ** Python built-ins used by the sources *)

Module py.

(** [str.lower] on the ASCII range. *)
Definition lower_ascii (c : ascii) : ascii :=
  let n := nat_of_ascii c in
  if (Nat.leb 65 n && Nat.leb n 90)%bool then ascii_of_nat (n + 32) else c.

Fixpoint lower (s : string) : string :=
  match s with
  | EmptyString => EmptyString
  | String c s' => String (lower_ascii c) (lower s')
  end.

(** [len(s)] *)
Definition len (s : string) : Z := Z.of_nat (String.length s).

(** [s.startswith(p)] is [String.prefix p s]; [s.endswith(p)]: *)
Fixpoint endswith (s suf : string) : bool :=
  if String.eqb s suf then true
  else match s with
       | EmptyString => false
       | String _ s' => endswith s' suf
       end.

(** [s.rfind(c)]: index of the last occurrence of [c], or [-1]. *)
Fixpoint rfind_from (c : ascii) (s : string) (i acc : Z) : Z :=
  match s with
  | EmptyString => acc
  | String a s' => rfind_from c s' (i + 1) (if Ascii.eqb a c then i else acc)
  end.

Definition rfind (c : ascii) (s : string) : Z := rfind_from c s 0 (-1).

(** [s[:i]] and [s[i:]] for [0 <= i <= len(s)]. *)
Definition slice_to (s : string) (i : Z) : string :=
  String.substring 0 (Z.to_nat i) s.

Definition slice_from (s : string) (i : Z) : string :=
  String.substring (Z.to_nat i) (String.length s - Z.to_nat i) s.

(** [s.split(c)] *)
Fixpoint split (c : ascii) (s : string) : list string :=
  match s with
  | EmptyString => [EmptyString]
  | String a s' =>
      if Ascii.eqb a c then EmptyString :: split c s'
      else match split c s' with
           | [] => [String a EmptyString]
           | h :: t => String a h :: t
           end
  end.

(** [sep.join(l)] *)
Fixpoint join (sep : string) (l : list string) : string :=
  match l with
  | [] => EmptyString
  | [x] => x
  | x :: t => x ++ sep ++ join sep t
  end.

(** [str(n)] for an [int]. *)
Definition str_int (n : Z) : string := NilZero.string_of_int (Z.to_int n).

(** Truthiness of a [str] and of an [Optional[str]]. *)
Definition truthy (s : string) : bool := negb (String.eqb s "").

Definition truthy_opt (o : option string) : bool :=
  match o with
  | None => false
  | Some s => truthy s
  end.

(** [f"{x}"] for an [Optional[str]]. *)
Definition fmt_opt (o : option string) : string :=
  match o with
  | None => "None"
  | Some s => s
  end.

(** [l.append(x)] *)
Definition append {A : Type} (l : list A) (x : A) : list A := (l ++ [x])%list.

(** [a or b] where [a] is an [Optional[int]] *)
Definition or_int (a : option Z) (b : Z) : Z :=
  match a with
  | None => b
  | Some n => if n =? 0 then b else n
  end.

(** [x in l] for a list of strings. *)
Definition str_in (x : string) (l : list string) : bool :=
  existsb (String.eqb x) l.

End py.

(* ================================================================= *)
(** ** [pathlib.PurePosixPath]

    A path is its root (the empty string, [/] or [//]) and its components;
    empty components and [.] are dropped when the path is parsed. *)

Module pathlib.

Record Path : Type := mkPath { root : string; parts : list string }.

Definition slash : ascii := "/"%char.
Definition dot : ascii := "."%char.

(** [posixpath.splitroot]: the root of a path string. *)
Definition splitroot (p : string) : string :=
  match p with
  | String a (String b (String c _)) =>
      if Ascii.eqb a slash then
        if (Ascii.eqb b slash && negb (Ascii.eqb c slash))%bool then "//" else "/"
      else ""
  | String a (String b EmptyString) =>
      if Ascii.eqb a slash then
        if Ascii.eqb b slash then "//" else "/"
      else ""
  | String a EmptyString => if Ascii.eqb a slash then "/" else ""
  | EmptyString => ""
  end.

Definition keep_part (x : string) : bool :=
  (py.truthy x && negb (String.eqb x "."))%bool.

(** [Path(p)] *)
Definition parse (p : string) : Path :=
  {| root := splitroot p; parts := filter keep_part (py.split slash p) |}.

(** [str(path)] *)
Definition str (p : Path) : string :=
  if py.truthy (root p) then root p ++ py.join "/" (parts p)
  else match parts p with
       | [] => "."
       | _ => py.join "/" (parts p)
       end.

(** [path.name] *)
Definition name (p : Path) : string := last (parts p) "".

(** [path.suffix] *)
Definition suffix (p : Path) : string :=
  let n := name p in
  let i := py.rfind dot n in
  if ((0 <? i) && (i <? py.len n - 1))%bool then py.slice_from n i else "".

(** [path.stem] *)
Definition stem (p : Path) : string :=
  let n := name p in
  let i := py.rfind dot n in
  if ((0 <? i) && (i <? py.len n - 1))%bool then py.slice_to n i else n.

(** [path.parent] *)
Definition parent (p : Path) : Path :=
  match parts p with
  | [] => p
  | _ => {| root := root p; parts := removelast (parts p) |}
  end.

(** [path / key] *)
Definition truediv (p : Path) (key : string) : Path :=
  let q := parse key in
  if py.truthy (root q) then q
  else {| root := root p; parts := parts p ++ parts q |}.

End pathlib.

(* ================================================================= *)
(** ** Exceptions ([src/utils/exceptions.py]) and fallible calls *)

Module exceptions.

(** The classes of the exceptions that occur: the two of the package
    that the converter raises, and the built-in families raised by the
    library calls.  [OSError] stands for the class and its subclasses, and
    so does [RuntimeError], which has [BrokenProcessPool] among them. *)
Inductive exn_class : Type :=
| ConversionError
| PDFGenerationError
| OSError
| ValueError
| KeyError
| RuntimeError.

Record exn : Type := mkExn {
  class_of : exn_class;
  message : string;
  file_path : option string;
  details : option string
}.

(** [ConversionError(message, file_path)] *)
Definition new_ConversionError (msg : string) (fp : option string) : exn :=
  mkExn ConversionError msg fp None.

(** [PDFGenerationError(message, file_path)]: the third argument
    [pdf_error] defaults to [None] and [details] is an f-string of it. *)
Definition new_PDFGenerationError (msg : string) (fp : option string) : exn :=
  mkExn PDFGenerationError msg fp (Some ("Error PDF: " ++ py.fmt_opt None)).

(** An exception raised by a library call, with its [str]. *)
Definition builtin (c : exn_class) (msg : string) : exn :=
  mkExn c msg None None.

(** [ConversionError.__str__] *)
Definition ConversionError_str (e : exn) : string :=
  let r := message e in
  let r := if py.truthy_opt (file_path e)
           then r ++ " (Archivo: " ++ py.fmt_opt (file_path e) ++ ")" else r in
  if py.truthy_opt (details e) then r ++ " - " ++ py.fmt_opt (details e) else r.

(** [str(e)] *)
Definition str (e : exn) : string :=
  match class_of e with
  | ConversionError | PDFGenerationError => ConversionError_str e
  | _ => message e
  end.

(** [isinstance(e, OSError)] *)
Definition is_OSError (e : exn) : bool :=
  match class_of e with
  | OSError => true
  | _ => false
  end.

(** [isinstance(e, ConversionError)]: the class or its subclass. *)
Definition is_ConversionError (e : exn) : bool :=
  match class_of e with
  | ConversionError | PDFGenerationError => true
  | _ => false
  end.

End exceptions.

Import exceptions.

(** The outcome of a call that may raise an [Exception]. *)
Inductive result (A : Type) : Type :=
| Ok (a : A)
| Raise (e : exn).

Arguments Ok {A} a.
Arguments Raise {A} e.

Definition rbind {A B : Type} (r : result A) (k : A -> result B) : result B :=
  match r with
  | Ok a => k a
  | Raise e => Raise e
  end.

(** [try: body  except Exception as e: handler(e)] *)
Definition try_except {A : Type} (body : result A) (handler : exn -> result A)
  : result A :=
  match body with
  | Ok a => Ok a
  | Raise e => handler e
  end.

Declare Scope result_scope.
Delimit Scope result_scope with result.
Notation "x <- c ;; k" := (rbind c (fun x => k))
  (at level 61, c at next level, right associativity) : result_scope.

(* ================================================================= *)
(** ** Configuration ([src/config/settings.py]) *)

Module settings.

Record Config : Type := mkConfig {
  max_file_size : Z;
  supported_extensions : list string;
  max_workers : Z
}.

(** The values set by [Config.__init__] before any file or environment
    override. *)
Definition default : Config :=
  {| max_file_size := 104857600;
     supported_extensions := [".doc"; ".docx"];
     max_workers := 4 |}.

(** [Config.is_supported_extension] *)
Definition is_supported_extension (c : Config) (extension : string) : bool :=
  py.str_in (py.lower extension) (map py.lower (supported_extensions c)).

End settings.

(* ================================================================= *)
(** ** The environment

    Everything the sources ask of the operating system and of the
    third-party libraries.  A document and its extracted content are kept
    abstract as their paragraphs.

    The environment is one fixed value during a call: what a library call
    answers depends on its arguments only.  The process pool is not part
    of it: what the pool does to the tasks of a call is given with each
    call (see [Pool] below). *)

Record Document : Type := mkDocument { paragraphs : list string }.

Record Content : Type := mkContent { title : string; content_paragraphs : list string }.

Record World : Type := mkWorld {
  (** the global [config] instance *)
  config : settings.Config;
  (** [mp.cpu_count()] *)
  cpu_count : Z;
  (** [Path(p).exists()] *)
  Path_exists : string -> result bool;
  (** [os.path.exists(p)] *)
  os_path_exists : string -> bool;
  (** [os.access(p, os.R_OK)] *)
  os_access_R_OK : string -> result bool;
  (** [os.path.getsize(p)] *)
  os_path_getsize : string -> result Z;
  (** [magic.from_file(p, mime=True)] *)
  magic_from_file : string -> result string;
  (** f-string rendering of a [float] *)
  float_str : Q -> string;
  (** [path.mkdir(parents=True, exist_ok=True)] *)
  Path_mkdir : pathlib.Path -> result unit;
  (** [docx.Document(p)] *)
  docx_Document : string -> result Document;
  (** the body of [_load_doc_file]: run [antiword] and rebuild a document *)
  antiword_document : string -> result Document;
  (** the body of [_extract_content]: walk the document *)
  extract_body : Document -> result Content;
  (** the body of [generate_pdf]: lay the content out and write the file *)
  build_pdf : Content -> string -> result unit;
  (** [ProcessPoolExecutor(max_workers=n)]: the pool is set up or the
      constructor raises *)
  ProcessPoolExecutor : Z -> result unit;
  (** [get_logger(name)] of [src/utils/logger.py], called by the
      constructor of every [LoggerMixin]: the logger is there, or setting
      it up (creating [logs/], opening the log file) raises.  The
      processor and the validators are constructed before the calls
      looked at here, so their [__init__] below is what a constructor
      that returned has set; the converter is constructed inside the
      task. *)
  get_logger : string -> result unit
}.

(* ================================================================= *)
(** ** [FileValidator] ([src/validators/file_validator.py]) *)

Module FileValidator.

Local Open Scope result_scope.

Record t : Type := mk {
  supported_extensions : list string;
  max_file_size : Z
}.

(** [FileValidator.__init__] *)
Definition init (W : World) : t :=
  {| supported_extensions := settings.supported_extensions (config W);
     max_file_size := settings.max_file_size (config W) |}.

Definition _file_exists (W : World) (file_path : string) : result bool :=
  Path_exists W file_path.

Definition _is_readable (W : World) (file_path : string) : result bool :=
  os_access_R_OK W file_path.

Definition _has_valid_extension (W : World) (file_path : string) : bool :=
  let extension := py.lower (pathlib.suffix (pathlib.parse file_path)) in
  settings.is_supported_extension (config W) extension.

Definition _has_valid_size (W : World) (self : t) (file_path : string)
  : result bool :=
  match os_path_getsize W file_path with
  | Ok file_size => Ok (file_size <=? max_file_size self)
  | Raise e => if is_OSError e then Ok false else Raise e
  end.

Definition _get_file_size_mb (W : World) (file_path : string) : result Q :=
  match os_path_getsize W file_path with
  | Ok size_bytes => Ok (inject_Z size_bytes / inject_Z (1024 * 1024))%Q
  | Raise e => if is_OSError e then Ok 0%Q else Raise e
  end.

Definition docx_mimes : list string :=
  ["application/vnd.openxmlformats-officedocument.wordprocessingml.document";
   "application/zip"].

Definition doc_mimes : list string :=
  ["application/msword"; "application/vnd.ms-word"].

Definition _is_valid_file (W : World) (file_path : string) : bool :=
  let body : result bool :=
    if py.endswith (py.lower file_path) ".docx" then
      mime_type <- magic_from_file W file_path ;;
      Ok (py.str_in mime_type docx_mimes)
    else if py.endswith (py.lower file_path) ".doc" then
      mime_type <- magic_from_file W file_path ;;
      Ok (py.str_in mime_type doc_mimes)
    else Ok true in
  match body with
  | Ok b => b
  | Raise _ => true
  end.

(** [FileValidator.validate_file]: [(es_valido, mensaje_error)] *)
Definition validate_file (W : World) (self : t) (file_path : string)
  : result (bool * option string) :=
  try_except
    (found <- _file_exists W file_path ;;
     if negb found then
       Ok (false, Some ("Archivo no encontrado: " ++ file_path))
     else
     readable <- _is_readable W file_path ;;
     if negb readable then
       Ok (false, Some ("Sin permisos de lectura: " ++ file_path))
     else
     if negb (_has_valid_extension W file_path) then
       Ok (false, Some ("Extensión no soportada: "
                        ++ pathlib.suffix (pathlib.parse file_path)))
     else
     size_ok <- _has_valid_size W self file_path ;;
     if negb size_ok then
       mb <- _get_file_size_mb W file_path ;;
       Ok (false, Some ("Archivo demasiado grande: " ++ float_str W mb ++ "MB"))
     else
     if negb (_is_valid_file W file_path) then
       Ok (false, Some ("Archivo corrupto o no válido: " ++ file_path))
     else Ok (true, None))
    (fun e => Ok (false, Some ("Error de validación: " ++ exceptions.str e))).

End FileValidator.

(* ================================================================= *)
(** ** [BatchValidator] ([src/validators/batch_validator.py]) *)

Module BatchValidator.

Record t : Type := mk {
  file_validator : FileValidator.t;
  max_files_per_batch : Z
}.

(** [BatchValidator.__init__] *)
Definition init (W : World) : t :=
  {| file_validator := FileValidator.init W; max_files_per_batch := 100 |}.

(** The returned dict, and beside it the paths handed to
    [file_validator.validate_file], in call order. *)
Record Report : Type := mkReport {
  valid : list string;
  invalid : list string;
  errors : list string;
  validated : list string
}.

Definition empty : Report :=
  {| valid := []; invalid := []; errors := []; validated := [] |}.

(** One iteration of the loop of [validate_batch]. *)
Definition validate_step (W : World) (self : t) (acc : Report)
           (file_path : string) : Report :=
  let seen := py.append (validated acc) file_path in
  match FileValidator.validate_file W (file_validator self) file_path with
  | Ok (true, _) =>
      {| valid := py.append (valid acc) file_path; invalid := invalid acc;
         errors := errors acc; validated := seen |}
  | Ok (false, error_msg) =>
      {| valid := valid acc; invalid := py.append (invalid acc) file_path;
         errors := py.append (errors acc)
                     (file_path ++ ": " ++ py.fmt_opt error_msg);
         validated := seen |}
  | Raise e =>
      {| valid := valid acc; invalid := py.append (invalid acc) file_path;
         errors := py.append (errors acc)
                     (file_path ++ ": Error inesperado - " ++ exceptions.str e);
         validated := seen |}
  end.

(** [BatchValidator.validate_batch] *)
Definition validate_batch (W : World) (self : t) (file_paths : list string)
  : Report :=
  if Z.of_nat (length file_paths) >? max_files_per_batch self then
    let error_msg := "Demasiados archivos ("
                     ++ py.str_int (Z.of_nat (length file_paths))
                     ++ "). Máximo: "
                     ++ py.str_int (max_files_per_batch self) in
    {| valid := []; invalid := file_paths; errors := py.append [] error_msg;
       validated := [] |}
  else fold_left (validate_step W self) file_paths empty.

End BatchValidator.

(* ================================================================= *)
(** ** Stateful code that may raise

    A method that reads and writes its object and may raise is a function
    from the state before to the outcome and the state after; what was
    written before an exception stays written. *)

Definition M (S A : Type) : Type := S -> result A * S.

Definition ret {S A : Type} (a : A) : M S A := fun s => (Ok a, s).

Definition bind {S A B : Type} (c : M S A) (k : A -> M S B) : M S B :=
  fun s =>
    match c s with
    | (Ok a, s') => k a s'
    | (Raise e, s') => (Raise e, s')
    end.

Definition raise {S A : Type} (e : exn) : M S A := fun s => (Raise e, s).

Definition lift {S A : Type} (r : result A) : M S A := fun s => (r, s).

Definition get {S : Type} : M S S := fun s => (Ok s, s).

Definition modify {S : Type} (f : S -> S) : M S unit := fun s => (Ok tt, f s).

(** [try: body  except Exception as e: handler(e)] *)
Definition try_catch {S A : Type} (body : M S A) (handler : exn -> M S A)
  : M S A :=
  fun s =>
    match body s with
    | (Ok a, s') => (Ok a, s')
    | (Raise e, s') => handler e s'
    end.

(** [for x in l: acc = body(acc, x)] *)
Fixpoint foldM {S A B : Type} (body : B -> A -> M S B) (l : list A) (acc : B)
  : M S B :=
  match l with
  | [] => ret acc
  | x :: t => bind (body acc x) (fun acc' => foldM body t acc')
  end.

Declare Scope m_scope.
Delimit Scope m_scope with m.
Notation "x <- c ;; k" := (bind c (fun x => k))
  (at level 61, c at next level, right associativity) : m_scope.
Notation "c ;; k" := (bind c (fun _ => k))
  (at level 61, right associativity) : m_scope.

(** The decorator [log_execution_time] of [src/utils/logger.py]: it logs,
    returns what the function returns and re-raises what it raises. *)
Definition log_execution_time {S A : Type} (func : M S A) : M S A :=
  fun s =>
    match func s with
    | (Ok r, s') => (Ok r, s')
    | (Raise e, s') => (Raise e, s')
    end.

(* ================================================================= *)
(** ** [PDFGenerator] ([src/converters/pdf_generator.py]) *)

Module PDFGenerator.

Local Open Scope result_scope.

(** [PDFGenerator()]: the constructor sets up the logger of the class,
    which can raise, and then its styles. *)
Definition new (W : World) : result unit :=
  _ <- get_logger W "PDFGenerator" ;;
  Ok tt.

(** [PDFGenerator.generate_pdf] *)
Definition generate_pdf (W : World) (content : Content) (output_path : string)
  : result bool :=
  try_except
    (_ <- build_pdf W content output_path ;; Ok true)
    (fun e => Raise (new_PDFGenerationError
                       ("Error generando PDF: " ++ exceptions.str e)
                       (Some output_path))).

End PDFGenerator.

(* ================================================================= *)
(** ** [DocumentConverter] ([src/converters/document_converter.py]) *)

Module DocumentConverter.

(** [self.conversion_stats] *)
Record t : Type := mk {
  total_conversions : Z;
  successful_conversions : Z;
  failed_conversions : Z;
  total_time : Q
}.

(** The counters as [__init__] sets them. *)
Definition init : t :=
  {| total_conversions := 0; successful_conversions := 0;
     failed_conversions := 0; total_time := 0%Q |}.

(** [DocumentConverter()]: [__init__] sets up the logger of the class and
    builds a [PDFGenerator] before it sets the counters; either can
    raise. *)
Definition new (W : World) : result t :=
  (_ <- get_logger W "DocumentConverter" ;;
   _ <- PDFGenerator.new W ;;
   Ok init)%result.

Definition incr_successful (s : t) : t :=
  {| total_conversions := total_conversions s;
     successful_conversions := successful_conversions s + 1;
     failed_conversions := failed_conversions s;
     total_time := total_time s |}.

Definition incr_failed (s : t) : t :=
  {| total_conversions := total_conversions s;
     successful_conversions := successful_conversions s;
     failed_conversions := failed_conversions s + 1;
     total_time := total_time s |}.

(** [DocumentConverter._load_doc_file] *)
Definition _load_doc_file (W : World) (file_path : string) : result Document :=
  try_except
    (antiword_document W file_path)
    (fun e => Raise (new_ConversionError
                       ("Error procesando archivo .doc: " ++ exceptions.str e)
                       (Some file_path))).

(** [DocumentConverter._load_document] *)
Definition _load_document (W : World) (file_path : string) : result Document :=
  try_except
    (if negb (py.endswith (py.lower file_path) ".doc"
              || py.endswith (py.lower file_path) ".docx")
     then Raise (new_ConversionError
                   ("Formato no soportado: "
                    ++ pathlib.suffix (pathlib.parse file_path)) None)
     else if py.endswith (py.lower file_path) ".doc"
     then _load_doc_file W file_path
     else docx_Document W file_path)
    (fun e => Raise (new_ConversionError
                       ("No se pudo cargar el documento: " ++ exceptions.str e)
                       (Some file_path))).

(** [DocumentConverter._extract_content] *)
Definition _extract_content (W : World) (doc : Document) : result Content :=
  try_except
    (extract_body W doc)
    (fun e => Raise (new_ConversionError
                       ("Error extrayendo contenido: " ++ exceptions.str e)
                       None)).

Local Open Scope m_scope.

(** The body of [convert_document], under its decorator below. *)
Definition convert_document_body (W : World) (input_path output_path : string)
  : M t bool :=
  try_catch
    (if negb (os_path_exists W input_path) then
       raise (new_ConversionError
                ("Archivo de entrada no encontrado: " ++ input_path) None)
     else
       let output_dir := pathlib.parent (pathlib.parse output_path) in
       _ <- lift (Path_mkdir W output_dir) ;;
       doc <- lift (_load_document W input_path) ;;
       content <- lift (_extract_content W doc) ;;
       success <- lift (PDFGenerator.generate_pdf W content output_path) ;;
       (if success : bool then modify incr_successful
        else (modify incr_failed ;;
              raise (new_PDFGenerationError
                       ("No se pudo generar el PDF: " ++ output_path) None))) ;;
       ret success)
    (fun e =>
       modify incr_failed ;;
       raise (new_ConversionError
                ("Error de conversión: " ++ exceptions.str e)
                (Some input_path))).

(** [DocumentConverter.convert_document] *)
Definition convert_document (W : World) (input_path output_path : string)
  : M t bool :=
  log_execution_time (convert_document_body W input_path output_path).

End DocumentConverter.

(* ================================================================= *)
(** ** [ParallelProcessor] ([src/converters/parallel_processor.py]) *)

Module ParallelProcessor.

(** [self.stats] *)
Module Stats.
Record t : Type := mk {
  total_files : Z;
  processed_files : Z;
  successful_conversions : Z;
  failed_conversions : Z;
  start_time : option Q;
  end_time : option Q
}.

Definition fresh : t :=
  {| total_files := 0; processed_files := 0; successful_conversions := 0;
     failed_conversions := 0; start_time := None; end_time := None |}.

Definition set_total_files (v : Z) (s : t) : t :=
  mk v (processed_files s) (successful_conversions s)
     (failed_conversions s) (start_time s) (end_time s).

Definition set_processed_files (v : Z) (s : t) : t :=
  mk (total_files s) v (successful_conversions s)
     (failed_conversions s) (start_time s) (end_time s).

Definition incr_successful (s : t) : t :=
  mk (total_files s) (processed_files s) (successful_conversions s + 1)
     (failed_conversions s) (start_time s) (end_time s).

Definition incr_failed (s : t) : t :=
  mk (total_files s) (processed_files s) (successful_conversions s)
     (failed_conversions s + 1) (start_time s) (end_time s).

Definition set_start_time (v : option Q) (s : t) : t :=
  mk (total_files s) (processed_files s) (successful_conversions s)
     (failed_conversions s) v (end_time s).

Definition set_end_time (v : option Q) (s : t) : t :=
  mk (total_files s) (processed_files s) (successful_conversions s)
     (failed_conversions s) (start_time s) v.
End Stats.

(** [results['stats']] *)
Module FinalStats.
Record t : Type := mk {
  total_files : Z;
  processed_files : Z;
  successful_conversions : Z;
  failed_conversions : Z;
  success_rate : Q;
  total_time : Q;
  average_time_per_file : Q;
  files_per_minute : Q
}.
End FinalStats.

(** An entry of [results['successful']] *)
Module Success.
Record t : Type := mk { input : string; output : string }.
End Success.

(** An entry of [results['failed']] *)
Module Failure.
Record t : Type := mk { input : string; error : option string }.
End Failure.

(** The dict returned by [process_files] *)
Module Results.
Record t : Type := mk {
  successful : list Success.t;
  failed : list Failure.t;
  errors : list string;
  stats : FinalStats.t
}.
End Results.

(** [MultiProgressTracker(total_files, num_workers)] of
    [src/utils/progress.py], which the processor creates and never
    consults. *)
Record MultiProgressTracker : Type := mkTracker {
  tracker_total_files : Z;
  tracker_num_workers : Z
}.

Record t : Type := mk {
  max_workers : Z;
  file_validator : FileValidator.t;
  progress_tracker : option MultiProgressTracker;
  stats : Stats.t
}.

(** [ParallelProcessor.__init__] *)
Definition init (W : World) (max_workers : option Z) : t :=
  {| max_workers := py.or_int max_workers (settings.max_workers (config W));
     file_validator := FileValidator.init W;
     progress_tracker := None;
     stats := Stats.fresh |}.

(** [ParallelProcessor.set_max_workers] *)
Definition set_max_workers (n : Z) (self : t) : t :=
  mk n (file_validator self) (progress_tracker self) (stats self).

(** [ParallelProcessor.reset_stats] *)
Definition reset_stats (self : t) : t :=
  mk (max_workers self) (file_validator self) (progress_tracker self)
     Stats.fresh.

(** [ParallelProcessor.get_optimal_worker_count] *)
Definition get_optimal_worker_count (W : World) (self : t) (file_count : Z) : Z :=
  let cpu_count := cpu_count W in
  if file_count <=? 5 then Z.min 2 cpu_count
  else if file_count <=? 20 then Z.min 4 cpu_count
  else Z.min (max_workers self) cpu_count.

(** [ParallelProcessor._get_output_path] *)
Definition _get_output_path (input_path output_dir : string) : string :=
  let input_file := pathlib.parse input_path in
  let output_file :=
    pathlib.truediv (pathlib.parse output_dir)
                    (pathlib.stem input_file ++ ".pdf") in
  pathlib.str output_file.

(** [ParallelProcessor._convert_single_file], run in a worker process on
    a converter that it constructs inside its [try]. *)
Definition _convert_single_file (W : World) (input_path output_path : string)
  : bool * string * option string :=
  match (converter <- DocumentConverter.new W ;;
         fst (DocumentConverter.convert_document W input_path output_path
                converter))%result with
  | Ok true => (true, output_path, None)
  | Ok false => (false, output_path, Some "Error en conversión")
  | Raise e => (false, output_path, Some (exceptions.str e))
  end.

(** *** The pool

    What the program does to the executor is observed, not stored in the
    object: the size the pool is created with, and every call of
    [executor.submit] with the number that its future gets; a call of
    [submit] is recorded whether it returns or raises. *)
Inductive event : Type :=
| PoolCreated (size : Z)
| Submitted (id : nat) (input_path output_path : string).

Record Machine : Type := mkMachine { self : t; trace : list event }.

(** A future is the task it was submitted for; [id] is its identity as an
    object. *)
Record Future : Type := mkFuture {
  id : nat;
  task_input : string;
  task_output : string
}.

(** What the pool does during one call of [process_files].  It is not a
    function of the single task: a worker that dies breaks the pool for
    every future still pending and for every later [submit], so the pool is
    asked with the futures it has handed out. *)
Record Pool : Type := mkPool {
  (** [executor.submit(fn, input_path, output_path)] raises
      ([BrokenProcessPool] once the pool is broken, another [RuntimeError],
      an [OSError]) instead of returning a future; the first argument is
      the futures handed out before *)
  submit_fault : list Future -> string -> string -> option exn;
  (** [as_completed(fs)]: the futures of [fs] in the order in which they
      finish *)
  as_completed : list Future -> list Future;
  (** the exception that the pool sets on a future in place of the result
      of its task: the worker died while the future was pending or running,
      or the task or its result could not be pickled; the first argument is
      all the futures of the pool *)
  result_fault : list Future -> Future -> option exn
}.

(** [future.result()] once the future is done; [fs] is the futures of the
    pool. *)
Definition future_result (W : World) (pool : Pool) (fs : list Future)
           (f : Future) : result (bool * string * option string) :=
  match result_fault pool fs f with
  | Some e => Raise e
  | None => Ok (_convert_single_file W (task_input f) (task_output f))
  end.

(** [as_completed] yields every future once. *)
Definition fair (pool : Pool) : Prop :=
  forall fs, Permutation (as_completed pool fs) fs.

(** The dict [future_to_file], keyed by the identity of the future. *)
Definition dict : Type := list (Future * string).

Definition keys (d : dict) : list Future := map fst d.

Definition dict_get (d : dict) (f : Future) : result string :=
  match find (fun kv => Nat.eqb (id (fst kv)) (id f)) d with
  | Some kv => Ok (snd kv)
  | None => Raise (builtin KeyError "future")
  end.

Local Open Scope m_scope.

Definition update_stats (f : Stats.t -> Stats.t) : M Machine unit :=
  modify (fun m =>
    {| self := mk (max_workers (self m)) (file_validator (self m))
                  (progress_tracker (self m)) (f (stats (self m)));
       trace := trace m |}).

Definition set_progress_tracker (p : MultiProgressTracker) : M Machine unit :=
  modify (fun m =>
    {| self := mk (max_workers (self m)) (file_validator (self m))
                  (Some p) (stats (self m));
       trace := trace m |}).

Definition observe (e : event) : M Machine unit :=
  modify (fun m => {| self := self m; trace := py.append (trace m) e |}).

(** One iteration of the loop of [_validate_input_files]. *)
Definition validate_step (W : World) (valid_files : list string)
           (file_path : string) : M Machine (list string) :=
  m <- get ;;
  r <- lift (FileValidator.validate_file W (file_validator (self m))
               file_path) ;;
  if fst r : bool then ret (py.append valid_files file_path)
  else ret valid_files.

(** [ParallelProcessor._validate_input_files] *)
Definition _validate_input_files (W : World) (input_files : list string)
  : M Machine (list string) :=
  foldM (validate_step W) input_files [].

(** [ParallelProcessor._calculate_final_stats] *)
Definition _calculate_final_stats (s : Stats.t) : FinalStats.t :=
  let total_time :=
    match Stats.start_time s, Stats.end_time s with
    | Some t0, Some t1 => (t1 - t0)%Q
    | _, _ => 0%Q
    end in
  let processed := Stats.processed_files s in
  let success_rate :=
    if processed >? 0
    then (inject_Z (Stats.successful_conversions s) / inject_Z processed
          * inject_Z 100)%Q
    else 0%Q in
  {| FinalStats.total_files := Stats.total_files s;
     FinalStats.processed_files := processed;
     FinalStats.successful_conversions := Stats.successful_conversions s;
     FinalStats.failed_conversions := Stats.failed_conversions s;
     FinalStats.success_rate := success_rate;
     FinalStats.total_time := total_time;
     FinalStats.average_time_per_file :=
       if processed >? 0 then (total_time / inject_Z processed)%Q else 0%Q;
     FinalStats.files_per_minute :=
       if negb (Qle_bool total_time 0)
       then (inject_Z processed / total_time * inject_Z 60)%Q else 0%Q |}.

(** [ParallelProcessor._create_error_result] *)
Definition _create_error_result (error_message : string)
  : M Machine Results.t :=
  m <- get ;;
  ret {| Results.successful := [];
         Results.failed := [];
         Results.errors := [error_message];
         Results.stats :=
           {| FinalStats.total_files := Stats.total_files (stats (self m));
              FinalStats.processed_files := 0;
              FinalStats.successful_conversions := 0;
              FinalStats.failed_conversions := 0;
              FinalStats.success_rate := 0%Q;
              FinalStats.total_time := 0%Q;
              FinalStats.average_time_per_file := 0%Q;
              FinalStats.files_per_minute := 0%Q |} |}.

(** The lists of [results] while the futures are collected. *)
Record Collected : Type := mkCollected {
  c_successful : list Success.t;
  c_failed : list Failure.t;
  c_errors : list string
}.

(** One iteration of the submission loop of [_process_parallel]; there is
    no [try] around [executor.submit]. *)
Definition submit_step (pool : Pool) (output_dir : string)
           (future_to_file : dict) (file_path : string) : M Machine dict :=
  let output_path := _get_output_path file_path output_dir in
  observe (Submitted (length future_to_file) file_path output_path) ;;
  match submit_fault pool (keys future_to_file) file_path output_path with
  | Some e => raise e
  | None =>
      let future := mkFuture (length future_to_file) file_path output_path in
      ret (py.append future_to_file (future, file_path))
  end.

(** One iteration of the collection loop of [_process_parallel]. *)
Definition collect_step (W : World) (pool : Pool) (future_to_file : dict)
           (results : Collected) (future : Future) : M Machine Collected :=
  file_path <- lift (dict_get future_to_file future) ;;
  match future_result W pool (keys future_to_file) future with
  | Ok (true, output_path, _) =>
      update_stats Stats.incr_successful ;;
      ret {| c_successful := py.append (c_successful results)
                               (Success.mk file_path output_path);
             c_failed := c_failed results;
             c_errors := c_errors results |}
  | Ok (false, _, error_msg) =>
      update_stats Stats.incr_failed ;;
      ret {| c_successful := c_successful results;
             c_failed := py.append (c_failed results)
                           (Failure.mk file_path error_msg);
             c_errors := py.append (c_errors results)
                           (file_path ++ ": " ++ py.fmt_opt error_msg) |}
  | Raise e =>
      update_stats Stats.incr_failed ;;
      ret {| c_successful := c_successful results;
             c_failed := py.append (c_failed results)
                           (Failure.mk file_path (Some (exceptions.str e)));
             c_errors := py.append (c_errors results)
                           (file_path ++ ": Error inesperado - "
                            ++ exceptions.str e) |}
  end.

(** [ParallelProcessor._process_parallel] *)
Definition _process_parallel (W : World) (pool : Pool)
           (input_files : list string) (output_dir : string)
  : M Machine Results.t :=
  _ <- lift (Path_mkdir W (pathlib.parse output_dir)) ;;
  m <- get ;;
  _ <- lift (ProcessPoolExecutor W (max_workers (self m))) ;;
  observe (PoolCreated (max_workers (self m))) ;;
  future_to_file <- foldM (submit_step pool output_dir) input_files [] ;;
  results <- foldM (collect_step W pool future_to_file)
                   (as_completed pool (keys future_to_file))
                   (mkCollected [] [] []) ;;
  m <- get ;;
  ret {| Results.successful := c_successful results;
         Results.failed := c_failed results;
         Results.errors := c_errors results;
         Results.stats := _calculate_final_stats (stats (self m)) |}.

(** [ParallelProcessor.process_files]; [t0] and [t1] are the readings of
    [time.time()] when the call starts and when it ends. *)
Definition process_files (W : World) (pool : Pool) (t0 t1 : Q)
           (input_files : list string) (output_dir : string)
  : M Machine Results.t :=
  try_catch
    (update_stats (Stats.set_total_files (Z.of_nat (length input_files))) ;;
     update_stats (Stats.set_start_time (Some t0)) ;;
     m <- get ;;
     set_progress_tracker
       (mkTracker (Z.of_nat (length input_files)) (max_workers (self m))) ;;
     valid_files <- _validate_input_files W input_files ;;
     match valid_files with
     | [] => _create_error_result "No hay archivos válidos para procesar"
     | _ :: _ =>
         results <- _process_parallel W pool valid_files output_dir ;;
         update_stats (Stats.set_end_time (Some t1)) ;;
         update_stats
           (Stats.set_processed_files (Z.of_nat (length valid_files))) ;;
         ret results
     end)
    (fun e =>
       update_stats (Stats.set_end_time (Some t1)) ;;
       _create_error_result ("Error de procesamiento: " ++ exceptions.str e)).

End ParallelProcessor.

(* ================================================================= *)
(** ** Vocabulary of the statements

    Read off the code above, to say what the loops compute. *)

Import ParallelProcessor.

(** A file passes validation when [validate_file] answers [(True, _)]. *)
Definition passes_validation (W : World) (v : FileValidator.t) (file_path : string)
  : bool :=
  match FileValidator.validate_file W v file_path with
  | Ok (b, _) => b
  | Raise _ => false
  end.

(** The output directory and the pool are there: [_process_parallel] gets
    as far as submitting tasks. *)
Definition pool_starts (W : World) (p : ParallelProcessor.t) (output_dir : string)
  : bool :=
  match Path_mkdir W (pathlib.parse output_dir),
        ProcessPoolExecutor W (max_workers p) with
  | Ok _, Ok _ => true
  | _, _ => false
  end.

(** The futures of the submission loop, numbered from [start]. *)
Fixpoint enumerate (start : nat) (files : list string) (output_dir : string)
  : dict :=
  match files with
  | [] => []
  | f :: t =>
      (mkFuture start f (_get_output_path f output_dir), f)
        :: enumerate (S start) t output_dir
  end.

(** The futures that a batch gets when every [submit] returns. *)
Definition futures_of (files : list string) (output_dir : string) : list Future :=
  keys (enumerate 0 files output_dir).

(** What the first raising [submit] raises when [files] are submitted
    after the futures [before]; [None] when every [submit] returns. *)
Fixpoint submit_raises (k : Pool) (output_dir : string) (before : list Future)
         (files : list string) : option exn :=
  match files with
  | [] => None
  | f :: t =>
      match submit_fault k before f (_get_output_path f output_dir) with
      | Some e => Some e
      | None =>
          submit_raises k output_dir
            (before ++ [mkFuture (length before) f
                          (_get_output_path f output_dir)])%list t
      end
  end.

(** The number of calls of [submit] made for [files]: all of them, or up
    to and with the first that raises. *)
Fixpoint submit_calls (k : Pool) (output_dir : string) (before : list Future)
         (files : list string) : nat :=
  match files with
  | [] => 0
  | f :: t =>
      match submit_fault k before f (_get_output_path f output_dir) with
      | Some _ => 1
      | None =>
          S (submit_calls k output_dir
               (before ++ [mkFuture (length before) f
                             (_get_output_path f output_dir)])%list t)
      end
  end.

(** What the call of [submit] for the [i]-th file of a batch raises, the
    calls before it having returned. *)
Definition submit_fault_at (k : Pool) (output_dir : string) (files : list string)
           (i : nat) : option exn :=
  submit_fault k (futures_of (firstn i files) output_dir) (nth i files "")
    (_get_output_path (nth i files "") output_dir).

(** Every [submit] of the batch returns. *)
Definition submits_all (k : Pool) (output_dir : string) (files : list string)
  : bool :=
  match submit_raises k output_dir [] files with
  | None => true
  | Some _ => false
  end.

(** What the collection loop appends for one future. *)
Definition success_entries (W : World) (k : Pool) (fs : list Future) (fu : Future)
  : list Success.t :=
  match future_result W k fs fu with
  | Ok (true, o, _) => [Success.mk (task_input fu) o]
  | _ => []
  end.

Definition failure_entries (W : World) (k : Pool) (fs : list Future) (fu : Future)
  : list Failure.t :=
  match future_result W k fs fu with
  | Ok (true, _, _) => []
  | Ok (false, _, error_msg) => [Failure.mk (task_input fu) error_msg]
  | Raise e => [Failure.mk (task_input fu) (Some (exceptions.str e))]
  end.

Definition error_lines (W : World) (k : Pool) (fs : list Future) (fu : Future)
  : list string :=
  match future_result W k fs fu with
  | Ok (true, _, _) => []
  | Ok (false, _, error_msg) =>
      [task_input fu ++ ": " ++ py.fmt_opt error_msg]
  | Raise e =>
      [task_input fu ++ ": Error inesperado - " ++ exceptions.str e]
  end.

(** The future comes back as a success. *)
Definition future_succeeds (W : World) (k : Pool) (fs : list Future) (fu : Future)
  : bool :=
  match future_result W k fs fu with
  | Ok (true, _, _) => true
  | _ => false
  end.

Definition task_of (f : Future) : string * string := (task_input f, task_output f).

Definition file_task (output_dir : string) (f : string) : string * string :=
  (f, _get_output_path f output_dir).

(** The counters after [a] successes and [b] failures were recorded. *)
Definition add_counts (a b : Z) (s : Stats.t) : Stats.t :=
  Stats.mk (Stats.total_files s) (Stats.processed_files s)
           (Stats.successful_conversions s + a)
           (Stats.failed_conversions s + b)
           (Stats.start_time s) (Stats.end_time s).

Definition with_stats (f : Stats.t -> Stats.t) (m : Machine) : Machine :=
  {| self := mk (max_workers (self m)) (file_validator (self m))
                (progress_tracker (self m)) (f (stats (self m)));
     trace := trace m |}.

(** The calls of [submit] recorded in a trace, as tasks. *)
Definition submissions (tr : list event) : list (string * string) :=
  flat_map (fun e => match e with
                     | Submitted _ i o => [(i, o)]
                     | PoolCreated _ => []
                     end) tr.

(** The sizes of the pools created in a trace. *)
Definition pool_sizes (tr : list event) : list Z :=
  flat_map (fun e => match e with
                     | PoolCreated n => [n]
                     | Submitted _ _ _ => []
                     end) tr.

(** The lists after the futures [done] were collected. *)
Definition collected_after (W : World) (k : Pool) (fs : list Future)
           (acc : Collected) (done : list Future) : Collected :=
  {| c_successful :=
       (c_successful acc ++ flat_map (success_entries W k fs) done)%list;
     c_failed := (c_failed acc ++ flat_map (failure_entries W k fs) done)%list;
     c_errors := (c_errors acc ++ flat_map (error_lines W k fs) done)%list |}.

(** The counters after the futures [done] were collected. *)
Definition counted_after (W : World) (k : Pool) (fs done : list Future)
           (s : Stats.t) : Stats.t :=
  add_counts (Z.of_nat (length (flat_map (success_entries W k fs) done)))
             (Z.of_nat (length (flat_map (failure_entries W k fs) done))) s.

Definition submitted_event (kv : Future * string) : event :=
  Submitted (id (fst kv)) (task_input (fst kv)) (task_output (fst kv)).

(** The processor once [process_files] has noted the batch size, the start
    time and the progress tracker. *)
Definition prologue (t0 : Q) (n : Z) (m : Machine) : Machine :=
  {| self := mk (max_workers (self m)) (file_validator (self m))
                (Some (mkTracker n (max_workers (self m))))
                (Stats.set_start_time (Some t0)
                   (Stats.set_total_files n (stats (self m))));
     trace := trace m |}.

(** The dict built by [_create_error_result]. *)
Definition error_result (error_message : string) (total : Z) : Results.t :=
  {| Results.successful := [];
     Results.failed := [];
     Results.errors := [error_message];
     Results.stats := FinalStats.mk total 0 0 0 0%Q 0%Q 0%Q 0%Q |}.

(** The files of a batch that pass validation, in order. *)
Definition valid_files_of (W : World) (m : Machine) (input_files : list string)
  : list string :=
  filter (passes_validation W (file_validator (self m))) input_files.

(** The input files named in the two lists of a result. *)
Definition successful_inputs (r : Results.t) : list string :=
  map Success.input (Results.successful r).

Definition failed_inputs (r : Results.t) : list string :=
  map Failure.input (Results.failed r).

(** The call gets as far as the pool: some file passed validation, and the
    output directory and the pool could be created. *)
Definition reaches_pool (W : World) (m : Machine) (input_files : list string)
           (output_dir : string) : bool :=
  match valid_files_of W m input_files with
  | [] => false
  | _ :: _ => pool_starts W (self m) output_dir
  end.

(** The call gets through the pool: it reaches it and every [submit]
    returns, so the futures are collected. *)
Definition completes (W : World) (k : Pool) (m : Machine)
           (input_files : list string) (output_dir : string) : bool :=
  (reaches_pool W m input_files output_dir
   && submits_all k output_dir (valid_files_of W m input_files))%bool.

(** The futures of the call when every [submit] returns, in the order of
    submission and in the order of completion. *)
Definition batch_futures (W : World) (m : Machine) (input_files : list string)
           (output_dir : string) : list Future :=
  futures_of (valid_files_of W m input_files) output_dir.

Definition collected (W : World) (k : Pool) (m : Machine)
           (input_files : list string) (output_dir : string) : list Future :=
  as_completed k (batch_futures W m input_files output_dir).

(** What a call adds to the trace. *)
Definition events_of_call (W : World) (k : Pool) (m : Machine)
           (input_files : list string) (output_dir : string) : list event :=
  if reaches_pool W m input_files output_dir
  then PoolCreated (max_workers (self m))
         :: map submitted_event
              (firstn (submit_calls k output_dir []
                         (valid_files_of W m input_files))
                      (enumerate 0 (valid_files_of W m input_files)
                                 output_dir))
  else [].

(** How often a file is the input of a call of [submit]. *)
Definition times_submitted (f : string) (tr : list event) : nat :=
  count_occ string_dec (map fst (submissions tr)) f.

(** *** A pool that treats every task on its own

    Every [submit] returns, and what the pool sets on a future depends on
    the task of that future alone, as [g] says: no worker dies.  Then what
    is recorded for a task is a function of the task. *)
Definition isolated (g : string -> string -> option exn) (k : Pool) : Prop :=
  (forall fs i o, submit_fault k fs i o = None)
  /\ (forall fs fu, result_fault k fs fu = g (task_input fu) (task_output fu)).

Definition task_result (W : World) (g : string -> string -> option exn)
           (input_path output_path : string)
  : result (bool * string * option string) :=
  match g input_path output_path with
  | Some e => Raise e
  | None => Ok (_convert_single_file W input_path output_path)
  end.

Definition file_successes (W : World) (g : string -> string -> option exn)
           (output_dir f : string) : list Success.t :=
  match task_result W g f (_get_output_path f output_dir) with
  | Ok (true, o, _) => [Success.mk f o]
  | _ => []
  end.

Definition file_failures (W : World) (g : string -> string -> option exn)
           (output_dir f : string) : list Failure.t :=
  match task_result W g f (_get_output_path f output_dir) with
  | Ok (true, _, _) => []
  | Ok (false, _, error_msg) => [Failure.mk f error_msg]
  | Raise e => [Failure.mk f (Some (exceptions.str e))]
  end.

(** The string has a [/] in it. *)
Fixpoint has_slash (s : string) : bool :=
  match s with
  | EmptyString => false
  | String a s' => (Ascii.eqb a pathlib.slash || has_slash s')%bool
  end.

(** A directory joined with a file name, as text: the directory in its
    normal form, a [/], the file name; the root alone or the current
    directory take no [/] of their own. *)
Definition joined (output_dir file : string) : string :=
  let d := pathlib.parse output_dir in
  match pathlib.parts d with
  | [] => pathlib.root d ++ file
  | _ :: _ => pathlib.str d ++ "/" ++ file
  end.

(** *** A sample environment

    Every file is there and readable except [missing.docx]; [broken.docx]
    cannot be opened as a document; nothing can be created at [locked];
    the PDF [out/readonly.pdf] cannot be written. *)
Module office.

Definition mkdir (p : pathlib.Path) : result unit :=
  if String.eqb (pathlib.str p) "locked"
  then Raise (builtin OSError "[Errno 17] File exists: 'locked'")
  else Ok tt.

Definition world : World :=
  {| config := settings.default;
     cpu_count := 8;
     Path_exists := fun p => Ok (negb (String.eqb p "missing.docx"));
     os_path_exists := fun p => negb (String.eqb p "missing.docx");
     os_access_R_OK := fun _ => Ok true;
     os_path_getsize := fun _ => Ok 2048;
     magic_from_file := fun _ => Ok "application/zip";
     float_str := fun _ => "0.0";
     Path_mkdir := mkdir;
     docx_Document := fun p =>
       if String.eqb p "broken.docx"
       then Raise (builtin ValueError "File is not a zip file")
       else Ok (mkDocument ["text"]);
     antiword_document := fun _ =>
       Raise (builtin OSError "[Errno 2] No such file or directory: 'antiword'");
     extract_body := fun d => Ok (mkContent "" (paragraphs d));
     build_pdf := fun _ o =>
       if String.eqb o "out/readonly.pdf"
       then Raise (builtin OSError
                     "[Errno 13] Permission denied: 'out/readonly.pdf'")
       else Ok tt;
     ProcessPoolExecutor := fun n =>
       if n <=? 0
       then Raise (builtin ValueError "max_workers must be greater than 0")
       else Ok tt;
     get_logger := fun _ => Ok tt |}.

(** The same place with a [logs] directory that cannot be written: no
    logger can be set up. *)
Definition without_logs : World :=
  {| config := config world;
     cpu_count := cpu_count world;
     Path_exists := Path_exists world;
     os_path_exists := os_path_exists world;
     os_access_R_OK := os_access_R_OK world;
     os_path_getsize := os_path_getsize world;
     magic_from_file := magic_from_file world;
     float_str := float_str world;
     Path_mkdir := Path_mkdir world;
     docx_Document := docx_Document world;
     antiword_document := antiword_document world;
     extract_body := extract_body world;
     build_pdf := build_pdf world;
     ProcessPoolExecutor := ProcessPoolExecutor world;
     get_logger := fun _ =>
       Raise (builtin OSError "[Errno 13] Permission denied: 'logs'") |}.

(** A processor just constructed with [max_workers=n]. *)
Definition start (n : option Z) : Machine :=
  mkMachine (init world n) [].

(** Two pools in which nothing goes wrong, with two completion orders. *)
Definition in_order : Pool :=
  {| submit_fault := fun _ _ _ => None;
     as_completed := fun fs => fs;
     result_fault := fun _ _ => None |}.

Definition reversed : Pool :=
  {| submit_fault := fun _ _ _ => None;
     as_completed := fun fs => rev fs;
     result_fault := fun _ _ => None |}.

Definition BrokenProcessPool : exn :=
  builtin RuntimeError
    "A process in the process pool was terminated abruptly while the future was running or pending.".

(** A pool of one worker, which runs the tasks in the order of submission
    and dies on [crash.docx]: the future of that task and every future
    after it get [BrokenProcessPool]. *)
Definition one_worker : Pool :=
  {| submit_fault := fun _ _ _ => None;
     as_completed := fun fs => fs;
     result_fault := fun fs fu =>
       if existsb (fun g => (String.eqb (task_input g) "crash.docx"
                             && (id g <=? id fu)%nat)%bool) fs
       then Some BrokenProcessPool
       else None |}.

(** A pool that breaks before the second task is handed in: the second
    [submit] raises. *)
Definition breaks_early : Pool :=
  {| submit_fault := fun before _ _ =>
       match before with
       | [] => None
       | _ :: _ => Some BrokenProcessPool
       end;
     as_completed := fun fs => fs;
     result_fault := fun _ _ => Some BrokenProcessPool |}.

End office.

From Stdlib Require Import Sorted.

(* ================================================================= *)
(** ** The rest of the validators

    The methods of [FileValidator] and [BatchValidator] that walk
    directories and look at file sizes.  What they ask of the file system
    beyond [World] is a [Disk]. *)

Record Disk : Type := mkDisk {
  (** [path.is_file()] *)
  Path_is_file : pathlib.Path -> bool;
  (** [path.is_dir()] *)
  Path_is_dir : pathlib.Path -> bool;
  (** [list(path.rglob("*"))] *)
  Path_rglob : pathlib.Path -> result (list pathlib.Path);
  (** [path.stat().st_size] *)
  Path_stat_st_size : pathlib.Path -> result Z
}.

Module file_validator.

Local Open Scope result_scope.

(** The loop of [get_valid_files_in_directory] over the listing. *)
Fixpoint collect_valid (W : World) (D : Disk) (self : FileValidator.t)
         (listing : list pathlib.Path) (valid_files : list string)
  : result (list string) :=
  match listing with
  | [] => Ok valid_files
  | file_path :: rest =>
      if Path_is_file D file_path then
        r <- FileValidator.validate_file W self (pathlib.str file_path) ;;
        if fst r : bool
        then collect_valid W D self rest
               (py.append valid_files (pathlib.str file_path))
        else collect_valid W D self rest valid_files
      else collect_valid W D self rest valid_files
  end.

(** [FileValidator.get_valid_files_in_directory] *)
Definition get_valid_files_in_directory (W : World) (D : Disk)
           (self : FileValidator.t) (dir_path : string) : list string :=
  let path := pathlib.parse dir_path in
  let body : result (list string) :=
    listing <- Path_rglob D path ;;
    collect_valid W D self listing [] in
  match body with
  | Ok valid_files => valid_files
  | Raise _ => []
  end.

(** [FileValidator.validate_directory] *)
Definition validate_directory (W : World) (D : Disk) (self : FileValidator.t)
           (dir_path : string) : result (bool * option string) :=
  try_except
    (found <- Path_exists W dir_path ;;
     if negb found then
       Ok (false, Some ("Directorio no encontrado: " ++ dir_path))
     else
     if negb (Path_is_dir D (pathlib.parse dir_path)) then
       Ok (false, Some ("No es un directorio: " ++ dir_path))
     else
     readable <- os_access_R_OK W (pathlib.str (pathlib.parse dir_path)) ;;
     if negb readable then
       Ok (false, Some ("Sin permisos de lectura en directorio: " ++ dir_path))
     else
     match get_valid_files_in_directory W D self dir_path with
     | [] => Ok (false, Some ("No se encontraron archivos válidos en: "
                              ++ dir_path))
     | _ :: _ => Ok (true, None)
     end)
    (fun e => Ok (false, Some ("Error de validación: " ++ exceptions.str e))).

End file_validator.

Module batch_validator.

(** The dict [{'valid': [...], 'invalid': [...], 'errors': [...]}]. *)
Record Outcome : Type := mkOutcome {
  valid : list string;
  invalid : list string;
  errors : list string
}.

Definition outcome_of (r : BatchValidator.Report) : Outcome :=
  {| valid := BatchValidator.valid r;
     invalid := BatchValidator.invalid r;
     errors := BatchValidator.errors r |}.

(** [BatchValidator.validate_directory_batch] *)
Definition validate_directory_batch (W : World) (D : Disk)
           (self : BatchValidator.t) (dir_path : string) : result Outcome :=
  rbind (file_validator.validate_directory W D
           (BatchValidator.file_validator self) dir_path)
    (fun r =>
       if negb (fst r) then
         Ok {| valid := []; invalid := [];
               errors := ["Directorio inválido: " ++ py.fmt_opt (snd r)] |}
       else
         match file_validator.get_valid_files_in_directory W D
                 (BatchValidator.file_validator self) dir_path with
         | [] =>
             Ok {| valid := []; invalid := [];
                   errors := ["No se encontraron archivos válidos en "
                              ++ dir_path] |}
         | (_ :: _) as valid_files =>
             Ok (outcome_of (BatchValidator.validate_batch W self valid_files))
         end).




(** The dict returned by [get_batch_statistics]. *)
Record Statistics : Type := mkStatistics {
  total_files : Z;
  valid_files : Z;
  invalid_files : Z;
  success_rate : Q;
  error_count : Z
}.

(** [BatchValidator.get_batch_statistics] *)
Definition get_batch_statistics (validation_result : Outcome) : Statistics :=
  let total_files := Z.of_nat (length (valid validation_result))
                     + Z.of_nat (length (invalid validation_result)) in
  let valid_count := Z.of_nat (length (valid validation_result)) in
  let invalid_count := Z.of_nat (length (invalid validation_result)) in
  let success_rate :=
    if total_files >? 0
    then (inject_Z valid_count / inject_Z total_files * inject_Z 100)%Q
    else 0%Q in
  {| total_files := total_files;
     valid_files := valid_count;
     invalid_files := invalid_count;
     success_rate := success_rate;
     error_count := Z.of_nat (length (errors validation_result)) |}.

(** [BatchValidator.filter_by_size]; [max_size_mb] is a [float] or [None].
    A file whose size cannot be read for an [OSError] is skipped; any other
    exception leaves the loop. *)
Definition filter_step (D : Disk) (max_size_bytes : Q)
           (filtered_files : list string) (file_path : string)
  : result (list string) :=
  match Path_stat_st_size D (pathlib.parse file_path) with
  | Ok file_size =>
      if Qle_bool (inject_Z file_size) max_size_bytes
      then Ok (py.append filtered_files file_path)
      else Ok filtered_files
  | Raise e => if is_OSError e then Ok filtered_files else Raise e
  end.

Fixpoint filter_loop (D : Disk) (max_size_bytes : Q) (file_paths : list string)
         (filtered_files : list string) : result (list string) :=
  match file_paths with
  | [] => Ok filtered_files
  | file_path :: rest =>
      rbind (filter_step D max_size_bytes filtered_files file_path)
            (filter_loop D max_size_bytes rest)
  end.

Definition filter_by_size (W : World) (D : Disk) (file_paths : list string)
           (max_size_mb : option Q) : result (list string) :=
  let max_size_mb :=
    match max_size_mb with
    | None => (inject_Z (settings.max_file_size (config W))
               / inject_Z (1024 * 1024))%Q
    | Some v => v
    end in
  let max_size_bytes := (max_size_mb * inject_Z 1024 * inject_Z 1024)%Q in
  filter_loop D max_size_bytes file_paths [].

(** The key function of [sort_by_size]. *)
Definition get_file_size (D : Disk) (file_path : string) : result Z :=
  match Path_stat_st_size D (pathlib.parse file_path) with
  | Ok size => Ok size
  | Raise e => if is_OSError e then Ok 0 else Raise e
  end.

(** [sorted(l, key=key, reverse=reverse)], the stable sort of Python: the
    keys are computed first, one call per element; then an element goes in
    front of the first element of the sorted rest that it does not have to
    follow. *)
Fixpoint decorate (key : string -> result Z) (l : list string)
  : result (list (Z * string)) :=
  match l with
  | [] => Ok []
  | x :: t =>
      rbind (key x) (fun k =>
      rbind (decorate key t) (fun kt => Ok ((k, x) :: kt)))
  end.

Fixpoint sorted_insert (reverse : bool) (x : Z * string) (l : list (Z * string))
  : list (Z * string) :=
  match l with
  | [] => [x]
  | y :: t =>
      if (if reverse then fst y <=? fst x else fst x <=? fst y)
      then x :: y :: t
      else y :: sorted_insert reverse x t
  end.

Definition sorted (key : string -> result Z) (reverse : bool) (l : list string)
  : result (list string) :=
  rbind (decorate key l) (fun keyed =>
  Ok (map snd (fold_right (sorted_insert reverse) [] keyed))).

(** [BatchValidator.sort_by_size] *)
Definition sort_by_size (D : Disk) (file_paths : list string) (reverse : bool)
  : result (list string) :=
  sorted (get_file_size D) reverse file_paths.

End batch_validator.

(* ================================================================= *)
(** ** The statistics of the converter
    ([src/converters/document_converter.py]) *)

Module document_converter.



(** [DocumentConverter.reset_stats] *)
Definition reset_stats (self : DocumentConverter.t) : DocumentConverter.t :=
  DocumentConverter.mk 0 0 0 0%Q.

End document_converter.

(* ================================================================= *)
(** ** Progress trackers ([src/utils/progress.py])

    [process_files] creates a [MultiProgressTracker]; these are its
    methods.  What they print is left out; [now] is a reading of
    [time.time()] in the call. *)

Module progress.

(** An entry of [ProgressTracker.errors]. *)
Record ErrorEntry : Type := mkErrorEntry {
  error_file : string;
  error_text : option string;
  error_time : Q
}.

Module ProgressTracker.

Record t : Type := mk {
  total_files : Z;
  completed_files : Z;
  failed_files : Z;
  current_file : string;
  start_time : Q;
  file_times : list (string * Q);
  errors : list ErrorEntry
}.

(** [ProgressTracker.__init__] *)
Definition init (total_files : Z) (now : Q) : t :=
  {| total_files := total_files; completed_files := 0; failed_files := 0;
     current_file := ""; start_time := now; file_times := []; errors := [] |}.

(** [d[k] = v] on a dict kept as an association list *)
Fixpoint dict_set (d : list (string * Q)) (k : string) (v : Q)
  : list (string * Q) :=
  match d with
  | [] => [(k, v)]
  | (k', v') :: t =>
      if String.eqb k' k then (k, v) :: t else (k', v') :: dict_set t k v
  end.

(** [ProgressTracker.start_file] *)
Definition start_file (filename : string) (now : Q) (self : t) : t :=
  mk (total_files self) (completed_files self) (failed_files self)
     filename (start_time self) (dict_set (file_times self) filename now)
     (errors self).

(** [ProgressTracker.complete_file] *)
Definition complete_file (filename : string) (success : bool)
           (error : option string) (now : Q) (self : t) : t :=
  if success then
    mk (total_files self) (completed_files self + 1) (failed_files self)
       (current_file self) (start_time self) (file_times self) (errors self)
  else
    mk (total_files self) (completed_files self) (failed_files self + 1)
       (current_file self) (start_time self) (file_times self)
       (py.append (errors self) (mkErrorEntry filename error now)).

(** The dict returned by [get_progress]. *)
Record Progress : Type := mkProgress {
  p_total : Z;
  p_completed : Z;
  p_failed : Z;
  p_current : string;
  p_elapsed : Q;
  p_success_rate : Q;
  p_errors : list ErrorEntry
}.

(** [ProgressTracker.get_progress] *)
Definition get_progress (now : Q) (self : t) : Progress :=
  {| p_total := total_files self;
     p_completed := completed_files self;
     p_failed := failed_files self;
     p_current := current_file self;
     p_elapsed := (now - start_time self)%Q;
     p_success_rate :=
       if total_files self >? 0
       then (inject_Z (completed_files self) / inject_Z (total_files self)
             * inject_Z 100)%Q
       else 0%Q;
     p_errors := errors self |}.

End ProgressTracker.

Module MultiProgressTracker.

(** A value of [worker_progress]. *)
Record Worker : Type := mkWorker {
  files_assigned : Z;
  files_completed : Z;
  current_file : option string;
  status : string
}.

Record t : Type := mk {
  total_files : Z;
  num_workers : Z;
  worker_progress : list (Z * Worker);
  global_progress : ProgressTracker.t;
  start_time : Q
}.

(** [range(n)] *)
Definition range (n : Z) : list Z := map Z.of_nat (seq 0 (Z.to_nat n)).

(** [MultiProgressTracker.__init__]; the global tracker and the tracker
    itself each read the clock. *)
Definition init (total_files num_workers : Z) (now now' : Q) : t :=
  {| total_files := total_files;
     num_workers := num_workers;
     worker_progress :=
       map (fun i => (i, mkWorker 0 0 None "idle")) (range num_workers);
     global_progress := ProgressTracker.init total_files now;
     start_time := now' |}.

(** [worker_id in self.worker_progress] *)
Definition has_worker (d : list (Z * Worker)) (worker_id : Z) : bool :=
  existsb (fun kv => fst kv =? worker_id) d.

(** [self.worker_progress.get(worker_id)] *)
Definition get_worker (d : list (Z * Worker)) (worker_id : Z) : option Worker :=
  option_map snd (find (fun kv => fst kv =? worker_id) d).

(** Update in place of the value at [worker_id]. *)
Definition update_worker (f : Worker -> Worker) (worker_id : Z)
           (d : list (Z * Worker)) : list (Z * Worker) :=
  map (fun kv => if fst kv =? worker_id then (fst kv, f (snd kv)) else kv) d.

(** [MultiProgressTracker.assign_file_to_worker] *)
Definition assign_file_to_worker (worker_id : Z) (filename : string) (self : t)
  : t :=
  if has_worker (worker_progress self) worker_id then
    mk (total_files self) (num_workers self)
       (update_worker
          (fun w => mkWorker (files_assigned w + 1) (files_completed w)
                             (Some filename) "processing")
          worker_id (worker_progress self))
       (global_progress self) (start_time self)
  else self.

(** [MultiProgressTracker.complete_file_in_worker] *)
Definition complete_file_in_worker (worker_id : Z) (filename : string)
           (success : bool) (error : option string) (now : Q) (self : t) : t :=
  if has_worker (worker_progress self) worker_id then
    mk (total_files self) (num_workers self)
       (update_worker
          (fun w => mkWorker (files_assigned w) (files_completed w + 1)
                             None "idle")
          worker_id (worker_progress self))
       (ProgressTracker.complete_file filename success error now
          (global_progress self))
       (start_time self)
  else self.

(** [MultiProgressTracker.get_worker_status]: [None] stands for the empty
    dict that an unknown worker gets. *)
Definition get_worker_status (worker_id : Z) (self : t) : option Worker :=
  get_worker (worker_progress self) worker_id.

(** [sum(w['files_completed'] for w in self.worker_progress.values())] *)
Definition total_completed (self : t) : Z :=
  fold_right (fun kv acc => files_completed (snd kv) + acc) 0
             (worker_progress self).

(** [MultiProgressTracker.is_complete] *)
Definition is_complete (self : t) : bool :=
  total_completed self >=? total_files self.

End MultiProgressTracker.

(** [create_multi_progress_tracker] *)
Definition create_multi_progress_tracker (total_files num_workers : Z)
           (now now' : Q) : MultiProgressTracker.t :=
  MultiProgressTracker.init total_files num_workers now now'.

(** A call on a [MultiProgressTracker]. *)
Inductive call : Type :=
| Assign (worker_id : Z) (filename : string)
| Complete (worker_id : Z) (filename : string) (success : bool)
           (error : option string) (now : Q).

Definition run_call (c : call) (self : MultiProgressTracker.t)
  : MultiProgressTracker.t :=
  match c with
  | Assign w f => MultiProgressTracker.assign_file_to_worker w f self
  | Complete w f s e now =>
      MultiProgressTracker.complete_file_in_worker w f s e now self
  end.

Definition run_calls (cs : list call) (self : MultiProgressTracker.t)
  : MultiProgressTracker.t :=
  fold_left (fun s c => run_call c s) cs self.

(** What the calls keep true of a tracker made for [n] workers. *)
Definition balanced (total n : Z) (t : MultiProgressTracker.t) : Prop :=
  map fst (MultiProgressTracker.worker_progress t) = MultiProgressTracker.range n
  /\ MultiProgressTracker.total_files t = total
  /\ MultiProgressTracker.num_workers t = n
  /\ MultiProgressTracker.total_completed t
     = ProgressTracker.completed_files (MultiProgressTracker.global_progress t)
       + ProgressTracker.failed_files (MultiProgressTracker.global_progress t)
  /\ Z.of_nat (length (ProgressTracker.errors
                         (MultiProgressTracker.global_progress t)))
     = ProgressTracker.failed_files (MultiProgressTracker.global_progress t).

End progress.

(* ================================================================= *)
(** ** Vocabulary of the further statements *)

(** An entry of [failed] and a line of [errors] as the collection loop
    writes them for the future [fu]: a task that returned a failure gives
    its message and the line [input: message]; a future that raised gives
    the text of the exception and the line
    [input: Error inesperado - text]. *)
Definition reported_as (W : World) (k : Pool) (fs : list Future) (fu : Future)
           (x : Failure.t) (line : string) : Prop :=
  Failure.input x = task_input fu
  /\ ((exists o msg,
          future_result W k fs fu = Ok (false, o, msg)
          /\ Failure.error x = msg
          /\ line = task_input fu ++ ": " ++ py.fmt_opt msg)
      \/ (exists e,
             future_result W k fs fu = Raise e
             /\ Failure.error x = Some (exceptions.str e)
             /\ line = task_input fu ++ ": Error inesperado - "
                       ++ exceptions.str e)).

(** The futures of a call that did not come back as a success, in the
    order of completion. *)
Definition failing (W : World) (k : Pool) (m : Machine)
           (input_files : list string) (output_dir : string) : list Future :=
  filter (fun fu => negb (future_succeeds W k
                            (batch_futures W m input_files output_dir) fu))
         (collected W k m input_files output_dir).

(** The size of a file is read and is at most [limit] bytes; the limit is
    a [float], taken as a rational. *)
Definition size_within (D : Disk) (limit : Q) (file_path : string) : bool :=
  match Path_stat_st_size D (pathlib.parse file_path) with
  | Ok n => Qle_bool (inject_Z n) limit
  | Raise _ => false
  end.

(** The size of a file, 0 when it cannot be read. *)
Definition size_or_zero (D : Disk) (file_path : string) : Z :=
  match Path_stat_st_size D (pathlib.parse file_path) with
  | Ok n => n
  | Raise _ => 0
  end.

(** Reading the size of the file raises nothing but an [OSError]. *)
Definition stat_is_tame (D : Disk) (file_path : string) : Prop :=
  forall e, Path_stat_st_size D (pathlib.parse file_path) = Raise e ->
            is_OSError e = true.

(** [a] may come before [b]: ascending, or descending when [reverse]. *)
Definition may_precede (reverse : bool) (a b : Z) : Prop :=
  if reverse then b <= a else a <= b.

(** A disk beside the sample environment: three files of sizes 300, 100
    and 300, and one whose size cannot be read. *)
Module shelf.

Definition size (p : pathlib.Path) : result Z :=
  if String.eqb (pathlib.str p) "big.docx" then Ok 300
  else if String.eqb (pathlib.str p) "small.docx" then Ok 100
  else if String.eqb (pathlib.str p) "large.docx" then Ok 300
  else Raise (builtin OSError "[Errno 2] No such file or directory").

Definition disk : Disk :=
  {| Path_is_file := fun p => negb (String.eqb (pathlib.str p) "docs");
     Path_is_dir := fun p => String.eqb (pathlib.str p) "docs";
     Path_rglob := fun p =>
       if String.eqb (pathlib.str p) "docs"
       then Ok [pathlib.parse "docs/a.docx"; pathlib.parse "docs/notes.txt";
                pathlib.parse "docs/old/b.docx"]
       else Ok [];
     Path_stat_st_size := size |}.

End shelf.

(** The path is there, is a directory and can be read: the three checks
    of [validate_directory] before it looks for files. *)
Definition directory_in_order (W : World) (D : Disk) (dir_path : string) : bool :=
  match Path_exists W dir_path with
  | Ok true =>
      (Path_is_dir D (pathlib.parse dir_path)
       && match os_access_R_OK W (pathlib.str (pathlib.parse dir_path)) with
          | Ok true => true
          | _ => false
          end)%bool
  | _ => false
  end.

(** The files that [get_valid_files_in_directory] keeps of a listing. *)
Definition valid_in_listing (W : World) (D : Disk) (v : FileValidator.t)
           (listing : list pathlib.Path) : list string :=
  map pathlib.str
      (filter (fun q => (Path_is_file D q
                         && passes_validation W v (pathlib.str q))%bool)
              listing).


(** A path as [pathlib] builds them: one of the three roots, and components
    that are not empty, not [.] and hold no [/]. *)
Definition well_formed (q : pathlib.Path) : Prop :=
  (pathlib.root q = "" \/ pathlib.root q = "/" \/ pathlib.root q = "//")
  /\ Forall (fun x => has_slash x = false /\ pathlib.keep_part x = true)
            (pathlib.parts q).

(* ================================================================= *)
(** ** Output paths of the configuration ([src/config/settings.py]) *)

Module Config.

(** The attributes that [Config.get_output_path] reads. *)
Record t : Type := mk {
  default_output_dir : string;
  create_subdirs : bool
}.

(** The values set by [Config.__init__]. *)
Definition default : t :=
  {| default_output_dir := "./output"; create_subdirs := true |}.

(** [path / other] for a path [other] *)
Definition truediv_path (p other : pathlib.Path) : pathlib.Path :=
  if py.truthy (pathlib.root other) then other
  else {| pathlib.root := pathlib.root p;
          pathlib.parts := (pathlib.parts p ++ pathlib.parts other)%list |}.

(** [Config.get_output_path] *)
Definition get_output_path (W : World) (self : t) (input_path : string)
  : result string :=
  let input_path := pathlib.parse input_path in
  let output_dir := pathlib.parse (default_output_dir self) in
  let output_dir :=
    if create_subdirs self
    then truediv_path output_dir (pathlib.parent input_path)
    else output_dir in
  rbind (Path_mkdir W output_dir) (fun _ =>
  Ok (pathlib.str (pathlib.truediv output_dir
                     (pathlib.stem input_path ++ ".pdf")))).

End Config.

(* ================================================================= *)
(** * Properties *)

Unset Implicit Arguments.

(** ** Validation *)

Lemma validate_file_returns (W : World) (v : FileValidator.t) (p : string) :
  exists b msg, FileValidator.validate_file W v p = Ok (b, msg).
Proof.
  unfold FileValidator.validate_file, try_except.
  match goal with
  | |- context [match ?body with Ok _ => _ | Raise _ => _ end] =>
      destruct body as [[b msg]|e]
  end; eauto.
Qed.

Lemma validate_file_passes (W : World) (v : FileValidator.t) (p : string) :
  exists msg,
    FileValidator.validate_file W v p = Ok (passes_validation W v p, msg).
Proof.
  unfold passes_validation.
  destruct (validate_file_returns W v p) as (b & msg & E).
  rewrite E. eauto.
Qed.

(** ** Running stateful code *)

Lemma bind_ok {S A B : Type} (c : M S A) (k : A -> M S B) (s s' : S) (a : A) :
  c s = (Ok a, s') -> bind c k s = k a s'.
Proof. intro E. unfold bind. now rewrite E. Qed.

Lemma bind_raise {S A B : Type} (c : M S A) (k : A -> M S B) (s s' : S) (e : exn) :
  c s = (Raise e, s') -> bind c k s = (Raise e, s').
Proof. intro E. unfold bind. now rewrite E. Qed.

Lemma foldM_cons {S A B : Type} (body : B -> A -> M S B) (x : A) (l : list A)
      (acc : B) :
  foldM body (x :: l) acc = bind (body acc x) (fun acc' => foldM body l acc').
Proof. reflexivity. Qed.

(** ** [_validate_input_files] keeps the files that pass, in order *)

Lemma validate_step_spec (W : World) (acc : list string) (f : string) (m : Machine) :
  validate_step W acc f m
  = (Ok (if passes_validation W (file_validator (self m)) f
         then py.append acc f else acc), m).
Proof.
  unfold validate_step, bind, get, lift.
  destruct (validate_file_passes W (file_validator (self m)) f) as (msg & E).
  rewrite E. simpl fst.
  now destruct (passes_validation W (file_validator (self m)) f).
Qed.

Lemma validate_input_files_from (W : World) (l acc : list string) (m : Machine) :
  foldM (validate_step W) l acc m
  = (Ok (acc ++ filter (passes_validation W (file_validator (self m))) l)%list, m).
Proof.
  revert acc. induction l as [|f l IH]; intro acc.
  - simpl. unfold ret. now rewrite app_nil_r.
  - rewrite foldM_cons. erewrite bind_ok by apply validate_step_spec.
    rewrite IH. simpl filter.
    destruct (passes_validation W (file_validator (self m)) f); [|reflexivity].
    unfold py.append. now rewrite <- app_assoc.
Qed.

Lemma validate_input_files_spec (W : World) (l : list string) (m : Machine) :
  _validate_input_files W l m
  = (Ok (filter (passes_validation W (file_validator (self m))) l), m).
Proof.
  unfold _validate_input_files. now rewrite validate_input_files_from.
Qed.

(** ** The submission loop: one call of [submit] per file, in order, up to
    the first that raises *)

Lemma keys_app (d1 d2 : dict) : keys (d1 ++ d2)%list = (keys d1 ++ keys d2)%list.
Proof. apply map_app. Qed.

Lemma keys_length (d : dict) : length (keys d) = length d.
Proof. apply length_map. Qed.

Lemma submit_step_spec (k : Pool) (out : string) (d : dict) (f : string)
      (m : Machine) :
  submit_step k out d f m
  = (match submit_fault k (keys d) f (_get_output_path f out) with
     | Some e => Raise e
     | None => Ok (d ++ [(mkFuture (length d) f (_get_output_path f out), f)])%list
     end,
     {| self := self m;
        trace := (trace m
                  ++ [Submitted (length d) f (_get_output_path f out)])%list |}).
Proof.
  unfold submit_step, bind, observe, modify, raise, ret. simpl.
  now destruct (submit_fault k (keys d) f (_get_output_path f out)).
Qed.

Lemma submit_loop (k : Pool) (out : string) (l : list string) (d : dict)
      (m : Machine) :
  foldM (submit_step k out) l d m
  = (match submit_raises k out (keys d) l with
     | Some e => Raise e
     | None => Ok (d ++ enumerate (length d) l out)%list
     end,
     {| self := self m;
        trace := (trace m
                  ++ map submitted_event
                       (firstn (submit_calls k out (keys d) l)
                               (enumerate (length d) l out)))%list |}).
Proof.
  revert d m. induction l as [|f l IH]; intros d m.
  - simpl. unfold ret. rewrite !app_nil_r. now destruct m.
  - rewrite foldM_cons. unfold bind. rewrite submit_step_spec.
    cbn [submit_raises submit_calls enumerate]. rewrite keys_length.
    destruct (submit_fault k (keys d) f (_get_output_path f out)) as [e|].
    + reflexivity.
    + rewrite IH. rewrite keys_app, length_app. simpl length. simpl keys.
      replace (length d + 1)%nat with (S (length d)) by lia.
      cbn [firstn map submitted_event fst id task_input task_output trace self].
      rewrite <- !app_assoc. reflexivity.
Qed.

Lemma enumerate_tasks (out : string) (l : list string) (n : nat) :
  map task_of (keys (enumerate n l out)) = map (file_task out) l.
Proof.
  revert n. induction l as [|f l IH]; intro n; simpl; [reflexivity|].
  f_equal. apply IH.
Qed.

Lemma enumerate_inputs (out : string) (l : list string) (n : nat) :
  map task_input (keys (enumerate n l out)) = l.
Proof.
  revert n. induction l as [|f l IH]; intro n; simpl; [reflexivity|].
  f_equal. apply IH.
Qed.


Lemma enumerate_firstn (out : string) (l : list string) (n c : nat) :
  firstn c (enumerate n l out) = enumerate n (firstn c l) out.
Proof.
  revert n c. induction l as [|f l IH]; intros n [|c]; simpl; try reflexivity.
  f_equal. apply IH.
Qed.

Lemma enumerate_pool_sizes (out : string) (l : list string) (n : nat) :
  pool_sizes (map submitted_event (enumerate n l out)) = [].
Proof.
  revert n. induction l as [|f l IH]; intro n; simpl; [reflexivity|]. apply IH.
Qed.

Lemma enumerate_entry (out : string) (l : list string) (n : nat)
      (fu : Future) (s : string) :
  In (fu, s) (enumerate n l out) -> (n <= id fu)%nat /\ s = task_input fu.
Proof.
  revert n. induction l as [|f l IH]; intros n H; simpl in H; [contradiction|].
  destruct H as [H|H].
  - inversion H; subst; simpl; auto.
  - apply IH in H. destruct H. split; [lia|assumption].
Qed.

Lemma enumerate_output (out : string) (l : list string) (n : nat) (fu : Future) :
  In fu (keys (enumerate n l out)) ->
  In (task_input fu) l
  /\ task_output fu = _get_output_path (task_input fu) out.
Proof.
  revert n. induction l as [|f l IH]; intros n H; simpl in H; [contradiction|].
  destruct H as [<-|H]; simpl; [auto|].
  apply IH in H. tauto.
Qed.

(** Looking a future of the dict up gives the file it was submitted for. *)
Lemma dict_get_enumerate (out : string) (l : list string) (n : nat)
      (fu : Future) :
  In fu (keys (enumerate n l out)) ->
  dict_get (enumerate n l out) fu = Ok (task_input fu).
Proof.
  revert n. induction l as [|f l IH]; intros n H; simpl in H; [contradiction|].
  unfold dict_get. simpl find.
  destruct H as [H|H].
  - subst fu. simpl. now rewrite Nat.eqb_refl.
  - assert (S n <= id fu)%nat as Hid.
    { unfold keys in H. apply in_map_iff in H. destruct H as ([fu' s] & E & H).
      simpl in E. subst fu'. now apply enumerate_entry in H. }
    replace (Nat.eqb n (id fu)) with false
      by (symmetry; apply Nat.eqb_neq; lia).
    apply (IH (S n) H).
Qed.

(** Two futures of a batch that differ are futures of different positions;
    when no file is listed twice they are futures of different files. *)
Lemma same_input_same_future (out : string) (l : list string) (fu1 fu2 : Future) :
  NoDup l ->
  In fu1 (futures_of l out) -> In fu2 (futures_of l out) ->
  task_input fu1 = task_input fu2 -> fu1 = fu2.
Proof.
  unfold futures_of. generalize 0%nat.
  induction l as [|f l IH]; intros n Hnd H1 H2 E; simpl in H1, H2;
    [contradiction|].
  inversion Hnd as [|? ? Hnot Hnd']; subst.
  destruct H1 as [<-|H1], H2 as [<-|H2].
  - reflexivity.
  - exfalso. apply Hnot. simpl in E. rewrite E.
    now apply (enumerate_output out l (S n) fu2).
  - exfalso. apply Hnot. simpl in E. rewrite <- E.
    now apply (enumerate_output out l (S n) fu1).
  - now apply (IH (S n)).
Qed.

(** ** The collection loop *)

Lemma add_counts_add_counts (a b c d : Z) (s : Stats.t) :
  add_counts a b (add_counts c d s) = add_counts (c + a) (d + b) s.
Proof. unfold add_counts. simpl. f_equal; lia. Qed.

Lemma add_counts_0 (s : Stats.t) : add_counts 0 0 s = s.
Proof. destruct s. unfold add_counts. simpl. f_equal; lia. Qed.

Lemma with_stats_id (m : Machine) : with_stats (fun s => s) m = m.
Proof. destruct m as [[] ?]. reflexivity. Qed.

Lemma collect_step_spec (W : World) (k : Pool) (d : dict) (acc : Collected)
      (fu : Future) (m : Machine) :
  dict_get d fu = Ok (task_input fu) ->
  collect_step W k d acc fu m
  = (Ok (collected_after W k (keys d) acc [fu]),
     with_stats (counted_after W k (keys d) [fu]) m).
Proof.
  intro E. unfold collect_step.
  erewrite bind_ok by (unfold lift; rewrite E; reflexivity).
  unfold collected_after, counted_after, success_entries,
    failure_entries, error_lines. simpl flat_map.
  destruct (future_result W k (keys d) fu) as [[[[] o] err]|e]; simpl;
    rewrite ?app_nil_r; unfold bind, update_stats, modify, ret, with_stats,
    add_counts, Stats.incr_successful, Stats.incr_failed; simpl;
    rewrite ?Z.add_0_r; destruct acc; reflexivity.
Qed.

Lemma collected_after_app (W : World) (k : Pool) (fs : list Future)
      (acc : Collected) (ts us : list Future) :
  collected_after W k fs (collected_after W k fs acc ts) us
  = collected_after W k fs acc (ts ++ us).
Proof.
  unfold collected_after. simpl. rewrite !flat_map_app, !app_assoc. reflexivity.
Qed.

Lemma counted_after_app (W : World) (k : Pool) (fs ts us : list Future)
      (s : Stats.t) :
  counted_after W k fs us (counted_after W k fs ts s)
  = counted_after W k fs (ts ++ us) s.
Proof.
  unfold counted_after. rewrite add_counts_add_counts.
  rewrite !flat_map_app, !length_app, !Nat2Z.inj_add. reflexivity.
Qed.

Lemma collect_loop (W : World) (k : Pool) (d : dict) (done : list Future) :
  (forall fu, In fu done -> dict_get d fu = Ok (task_input fu)) ->
  forall (acc : Collected) (m : Machine),
    foldM (collect_step W k d) done acc m
    = (Ok (collected_after W k (keys d) acc done),
       with_stats (counted_after W k (keys d) done) m).
Proof.
  induction done as [|fu done IH]; intros Hget acc m.
  - simpl. unfold ret, collected_after, counted_after. simpl.
    rewrite !app_nil_r. destruct acc. simpl.
    destruct m as [[] ?]. unfold with_stats. simpl. now rewrite add_counts_0.
  - rewrite foldM_cons.
    erewrite bind_ok by (apply collect_step_spec; apply Hget; now left).
    rewrite IH by (intros; apply Hget; now right).
    rewrite collected_after_app. simpl app.
    f_equal. unfold with_stats. simpl. now rewrite counted_after_app.
Qed.

(** ** [_process_parallel] *)

Lemma fair_in (k : Pool) (fs : list Future) (fu : Future) :
  fair k -> In fu (as_completed k fs) -> In fu fs.
Proof. intros Hk H. eapply Permutation_in; [apply Hk|exact H]. Qed.

Lemma submit_calls_all (k : Pool) (out : string) (l : list string)
      (bs : list Future) :
  submit_raises k out bs l = None ->
  submit_calls k out bs l = length l.
Proof.
  revert bs. induction l as [|f l IH]; intros bs H; [reflexivity|].
  simpl in *.
  destruct (submit_fault k bs f (_get_output_path f out)); [discriminate|].
  f_equal. now apply IH.
Qed.

Lemma submit_calls_le (k : Pool) (out : string) (l : list string)
      (bs : list Future) :
  (submit_calls k out bs l <= length l)%nat.
Proof.
  revert bs. induction l as [|f l IH]; intro bs; simpl; [lia|].
  destruct (submit_fault k bs f (_get_output_path f out)); [lia|].
  specialize (IH (bs ++ [mkFuture (length bs) f
                           (_get_output_path f out)])%list). lia.
Qed.

Lemma submits_all_true (k : Pool) (out : string) (l : list string) :
  submits_all k out l = true -> submit_raises k out [] l = None.
Proof.
  unfold submits_all. now destruct (submit_raises k out [] l).
Qed.

Lemma submits_all_false (k : Pool) (out : string) (l : list string) :
  submits_all k out l = false -> exists e, submit_raises k out [] l = Some e.
Proof.
  unfold submits_all. destruct (submit_raises k out [] l); [eauto|discriminate].
Qed.

Lemma process_parallel_no_dir (W : World) (k : Pool) (l : list string)
      (out : string) (m : Machine) (e : exn) :
  Path_mkdir W (pathlib.parse out) = Raise e ->
  _process_parallel W k l out m = (Raise e, m).
Proof.
  intro E. unfold _process_parallel.
  erewrite bind_raise; [reflexivity|]. unfold lift. now rewrite E.
Qed.

Lemma process_parallel_no_pool (W : World) (k : Pool) (l : list string)
      (out : string) (m : Machine) (e : exn) :
  Path_mkdir W (pathlib.parse out) = Ok tt ->
  ProcessPoolExecutor W (max_workers (self m)) = Raise e ->
  _process_parallel W k l out m = (Raise e, m).
Proof.
  intros E1 E2. unfold _process_parallel.
  erewrite bind_ok by (unfold lift; rewrite E1; reflexivity).
  erewrite bind_ok by reflexivity.
  erewrite bind_raise; [reflexivity|]. unfold lift. now rewrite E2.
Qed.

Lemma pool_starts_false (W : World) (k : Pool) (l : list string)
      (out : string) (m : Machine) :
  pool_starts W (self m) out = false ->
  exists e, _process_parallel W k l out m = (Raise e, m).
Proof.
  unfold pool_starts. intro H.
  destruct (Path_mkdir W (pathlib.parse out)) as [[]|e] eqn:E1.
  - destruct (ProcessPoolExecutor W (max_workers (self m))) as [[]|e] eqn:E2;
      [discriminate|].
    exists e. now apply process_parallel_no_pool.
  - exists e. now apply process_parallel_no_dir.
Qed.

Lemma pool_starts_true (W : World) (p : ParallelProcessor.t) (out : string) :
  pool_starts W p out = true ->
  Path_mkdir W (pathlib.parse out) = Ok tt
  /\ ProcessPoolExecutor W (max_workers p) = Ok tt.
Proof.
  unfold pool_starts.
  destruct (Path_mkdir W (pathlib.parse out)) as [[]|]; [|discriminate].
  destruct (ProcessPoolExecutor W (max_workers p)) as [[]|]; [|discriminate].
  auto.
Qed.

(** The pool is there and a [submit] raises: the exception leaves
    [_process_parallel], after the calls of [submit] up to that one. *)
Lemma process_parallel_submit_raises (W : World) (k : Pool) (l : list string)
      (out : string) (m : Machine) (e : exn) :
  pool_starts W (self m) out = true ->
  submit_raises k out [] l = Some e ->
  _process_parallel W k l out m
  = (Raise e,
     {| self := self m;
        trace := (trace m ++ PoolCreated (max_workers (self m))
                    :: map submitted_event
                         (firstn (submit_calls k out [] l)
                                 (enumerate 0 l out)))%list |}).
Proof.
  intros Hs Hr. apply pool_starts_true in Hs. destruct Hs as [E1 E2].
  unfold _process_parallel.
  erewrite bind_ok by (unfold lift; rewrite E1; reflexivity).
  erewrite bind_ok by reflexivity.
  erewrite bind_ok by (unfold lift; rewrite E2; reflexivity).
  erewrite bind_ok by reflexivity.
  erewrite bind_raise by (rewrite submit_loop; simpl keys; rewrite Hr;
                          reflexivity).
  unfold py.append. simpl. rewrite <- app_assoc. reflexivity.
Qed.

(** The pool is there and every [submit] returns: the futures are
    collected in the order of completion. *)
Lemma process_parallel_spec (W : World) (k : Pool) (l : list string)
      (out : string) (m : Machine) :
  fair k ->
  pool_starts W (self m) out = true ->
  submit_raises k out [] l = None ->
  _process_parallel W k l out m
  = (Ok {| Results.successful :=
             flat_map (success_entries W k (futures_of l out))
                      (as_completed k (futures_of l out));
           Results.failed :=
             flat_map (failure_entries W k (futures_of l out))
                      (as_completed k (futures_of l out));
           Results.errors :=
             flat_map (error_lines W k (futures_of l out))
                      (as_completed k (futures_of l out));
           Results.stats :=
             _calculate_final_stats
               (counted_after W k (futures_of l out)
                  (as_completed k (futures_of l out)) (stats (self m))) |},
     with_stats (counted_after W k (futures_of l out)
                   (as_completed k (futures_of l out)))
       {| self := self m;
          trace := (trace m ++ PoolCreated (max_workers (self m))
                      :: map submitted_event (enumerate 0 l out))%list |}).
Proof.
  intros Hk Hs Hr. apply pool_starts_true in Hs. destruct Hs as [E1 E2].
  unfold _process_parallel.
  erewrite bind_ok by (unfold lift; rewrite E1; reflexivity).
  erewrite bind_ok by reflexivity.
  erewrite bind_ok by (unfold lift; rewrite E2; reflexivity).
  erewrite bind_ok by reflexivity.
  erewrite bind_ok by (rewrite submit_loop; simpl keys; rewrite Hr;
                       reflexivity).
  simpl app. simpl length.
  assert (length (enumerate 0 l out) = length l) as Hlen.
  { rewrite <- keys_length, <- (length_map task_input), enumerate_inputs.
    reflexivity. }
  rewrite (submit_calls_all k out l [] Hr), firstn_all2 by (rewrite Hlen; lia).
  erewrite bind_ok.
  2:{ apply collect_loop. intros fu H. apply dict_get_enumerate.
      eapply fair_in; eauto. }
  erewrite bind_ok by reflexivity.
  unfold ret, futures_of.
  unfold py.append. simpl. rewrite <- app_assoc. reflexivity.
Qed.

(** ** [process_files]: its four ways of returning *)

Lemma update_stats_spec (f : Stats.t -> Stats.t) (m : Machine) :
  update_stats f m = (Ok tt, with_stats f m).
Proof. reflexivity. Qed.

Lemma process_files_prologue (W : World) (t0 : Q) (l : list string) (m : Machine)
      (A : Type) (rest : list string -> M Machine A) :
  bind (update_stats (Stats.set_total_files (Z.of_nat (length l)))) (fun _ =>
  bind (update_stats (Stats.set_start_time (Some t0))) (fun _ =>
  bind get (fun m0 =>
  bind (set_progress_tracker
          (mkTracker (Z.of_nat (length l)) (max_workers (self m0)))) (fun _ =>
  bind (_validate_input_files W l) rest)))) m
  = rest (valid_files_of W m l) (prologue t0 (Z.of_nat (length l)) m).
Proof.
  erewrite bind_ok by apply update_stats_spec.
  erewrite bind_ok by apply update_stats_spec.
  erewrite bind_ok by reflexivity.
  erewrite bind_ok by reflexivity.
  erewrite bind_ok by apply validate_input_files_spec.
  reflexivity.
Qed.

(** No file passes validation. *)
Lemma process_files_nothing_valid (W : World) (k : Pool) (t0 t1 : Q)
      (l : list string) (out : string) (m : Machine) :
  valid_files_of W m l = [] ->
  process_files W k t0 t1 l out m
  = (Ok (error_result "No hay archivos válidos para procesar"
                      (Z.of_nat (length l))),
     prologue t0 (Z.of_nat (length l)) m).
Proof.
  intro E. unfold process_files, try_catch.
  rewrite process_files_prologue. rewrite E. reflexivity.
Qed.

(** The output directory or the pool cannot be created. *)
Lemma process_files_not_started (W : World) (k : Pool) (t0 t1 : Q)
      (l : list string) (out : string) (m : Machine) :
  valid_files_of W m l <> [] ->
  pool_starts W (self m) out = false ->
  exists e,
    process_files W k t0 t1 l out m
    = (Ok (error_result ("Error de procesamiento: " ++ exceptions.str e)
                        (Z.of_nat (length l))),
       with_stats (Stats.set_end_time (Some t1))
                  (prologue t0 (Z.of_nat (length l)) m)).
Proof.
  intros Hv Hs.
  destruct (pool_starts_false W k (valid_files_of W m l) out
              (prologue t0 (Z.of_nat (length l)) m) Hs) as (e & E).
  exists e. unfold process_files, try_catch.
  rewrite process_files_prologue.
  destruct (valid_files_of W m l) as [|f vs]; [congruence|].
  erewrite bind_raise by exact E. reflexivity.
Qed.

(** A call of [submit] raises: the exception is caught by [process_files],
    which returns the error result; nothing was collected. *)
Lemma process_files_submit_raises (W : World) (k : Pool) (t0 t1 : Q)
      (l : list string) (out : string) (m : Machine) (e : exn) :
  valid_files_of W m l <> [] ->
  pool_starts W (self m) out = true ->
  submit_raises k out [] (valid_files_of W m l) = Some e ->
  process_files W k t0 t1 l out m
  = (Ok (error_result ("Error de procesamiento: " ++ exceptions.str e)
                      (Z.of_nat (length l))),
     with_stats (Stats.set_end_time (Some t1))
       {| self := self (prologue t0 (Z.of_nat (length l)) m);
          trace := (trace m ++ PoolCreated (max_workers (self m))
                      :: map submitted_event
                           (firstn (submit_calls k out []
                                      (valid_files_of W m l))
                                   (enumerate 0 (valid_files_of W m l)
                                              out)))%list |}).
Proof.
  intros Hv Hs Hr. unfold process_files, try_catch.
  rewrite process_files_prologue.
  remember (valid_files_of W m l) as vs eqn:Evs.
  destruct vs as [|f vs']; [congruence|].
  erewrite bind_raise
    by (apply process_parallel_submit_raises; [exact Hs|exact Hr]).
  reflexivity.
Qed.

(** The tasks are submitted and collected. *)
Lemma process_files_started (W : World) (k : Pool) (t0 t1 : Q)
      (l : list string) (out : string) (m : Machine) :
  fair k ->
  valid_files_of W m l <> [] ->
  pool_starts W (self m) out = true ->
  submit_raises k out [] (valid_files_of W m l) = None ->
  process_files W k t0 t1 l out m
  = (Ok {| Results.successful :=
             flat_map (success_entries W k (batch_futures W m l out))
                      (collected W k m l out);
           Results.failed :=
             flat_map (failure_entries W k (batch_futures W m l out))
                      (collected W k m l out);
           Results.errors :=
             flat_map (error_lines W k (batch_futures W m l out))
                      (collected W k m l out);
           Results.stats :=
             _calculate_final_stats
               (counted_after W k (batch_futures W m l out)
                  (collected W k m l out)
                  (stats (self (prologue t0 (Z.of_nat (length l)) m)))) |},
     with_stats (fun s => Stats.set_processed_files
                            (Z.of_nat (length (valid_files_of W m l)))
                            (Stats.set_end_time (Some t1)
                               (counted_after W k (batch_futures W m l out)
                                  (collected W k m l out) s)))
       {| self := self (prologue t0 (Z.of_nat (length l)) m);
          trace := (trace m ++ PoolCreated (max_workers (self m))
                      :: map submitted_event
                           (enumerate 0 (valid_files_of W m l) out))%list |}).
Proof.
  intros Hk Hv Hs Hr. unfold process_files, try_catch, collected, batch_futures.
  rewrite process_files_prologue.
  remember (valid_files_of W m l) as vs eqn:Evs.
  destruct vs as [|f vs']; [congruence|].
  erewrite bind_ok
    by (apply process_parallel_spec; [exact Hk|exact Hs|exact Hr]).
  erewrite bind_ok by apply update_stats_spec.
  erewrite bind_ok by apply update_stats_spec.
  reflexivity.
Qed.

(** ** Lists *)

Lemma filter_perm {A : Type} (p : A -> bool) (l1 l2 : list A) :
  Permutation l1 l2 -> Permutation (filter p l1) (filter p l2).
Proof.
  induction 1 as [|x l1 l2 _ IH|x y l|l1 l2 l3 _ IH1 _ IH2]; simpl.
  - constructor.
  - destruct (p x); [now constructor|assumption].
  - destruct (p x), (p y); try reflexivity. constructor.
  - etransitivity; eassumption.
Qed.

Lemma flat_map_perm {A B : Type} (g : A -> list B) (l1 l2 : list A) :
  Permutation l1 l2 -> Permutation (flat_map g l1) (flat_map g l2).
Proof.
  induction 1 as [|x l1 l2 _ IH|x y l|l1 l2 l3 _ IH1 _ IH2]; simpl.
  - constructor.
  - now apply Permutation_app_head.
  - rewrite !app_assoc. apply Permutation_app_tail, Permutation_app_comm.
  - etransitivity; eassumption.
Qed.

Lemma flat_map_of_map {A B C : Type} (h : A -> B) (g : B -> list C) (l : list A) :
  flat_map g (map h l) = flat_map (fun a => g (h a)) l.
Proof.
  induction l as [|a l IH]; simpl; [reflexivity|]. now rewrite IH.
Qed.

Lemma flat_map_agree {A B : Type} (g h : A -> list B) (l : list A) :
  (forall a, In a l -> g a = h a) -> flat_map g l = flat_map h l.
Proof.
  induction l as [|a l IH]; intro H; simpl; [reflexivity|].
  rewrite (H a) by now left. f_equal. apply IH. intros b Hb. apply H. now right.
Qed.

Lemma map_of_flat_map {A B C : Type} (h : B -> C) (g : A -> list B) (l : list A) :
  map h (flat_map g l) = flat_map (fun a => map h (g a)) l.
Proof.
  induction l as [|a l IH]; simpl; [reflexivity|]. now rewrite map_app, IH.
Qed.

(** Two families of entries that give one entry per element between them. *)
Lemma flat_map_split {A B : Type} (g h : A -> list B) (proj : A -> B) (l : list A) :
  (forall a, Permutation (g a ++ h a) [proj a]) ->
  Permutation (flat_map g l ++ flat_map h l) (map proj l).
Proof.
  intro Hgh. induction l as [|a l IH]; simpl; [constructor|].
  transitivity ((g a ++ h a) ++ (flat_map g l ++ flat_map h l))%list.
  - rewrite <- !app_assoc. apply Permutation_app_head.
    rewrite !app_assoc. apply Permutation_app_tail, Permutation_app_comm.
  - change (proj a :: map proj l) with ([proj a] ++ map proj l)%list.
    now apply Permutation_app.
Qed.

Lemma perm_same_members {A : Type} (l1 l2 : list A) :
  Permutation l1 l2 -> forall x, In x l1 <-> In x l2.
Proof.
  intros P x. split; apply Permutation_in; [exact P|symmetry; exact P].
Qed.

(** ** One future, one entry *)

Lemma success_entries_in (W : World) (k : Pool) (fs : list Future) (fu : Future)
      (x : Success.t) :
  In x (success_entries W k fs fu) ->
  Success.input x = task_input fu /\ future_succeeds W k fs fu = true.
Proof.
  unfold success_entries, future_succeeds.
  destruct (future_result W k fs fu) as [[[[] o'] err]|e]; simpl;
    intro H; try contradiction; destruct H as [<-|[]]; auto.
Qed.

Lemma failure_entries_in (W : World) (k : Pool) (fs : list Future) (fu : Future)
      (x : Failure.t) :
  In x (failure_entries W k fs fu) ->
  Failure.input x = task_input fu /\ future_succeeds W k fs fu = false.
Proof.
  unfold failure_entries, future_succeeds.
  destruct (future_result W k fs fu) as [[[[] o'] err]|e]; simpl;
    intro H; try contradiction; destruct H as [<-|[]]; auto.
Qed.

Lemma one_entry_per_future (W : World) (k : Pool) (fs : list Future)
      (fu : Future) :
  (map Success.input (success_entries W k fs fu)
   ++ map Failure.input (failure_entries W k fs fu))%list = [task_input fu].
Proof.
  unfold success_entries, failure_entries.
  now destruct (future_result W k fs fu) as [[[[] o'] err]|e].
Qed.


Lemma length_entries (W : World) (k : Pool) (fs done : list Future) :
  (length (flat_map (success_entries W k fs) done)
   + length (flat_map (failure_entries W k fs) done))%nat = length done.
Proof.
  rewrite <- (length_map Success.input (flat_map (success_entries W k fs) done)),
    <- (length_map Failure.input (flat_map (failure_entries W k fs) done)),
    <- length_app.
  rewrite !map_of_flat_map.
  transitivity (length (map task_input done)); [|apply length_map].
  apply Permutation_length, flat_map_split.
  intro fu. now rewrite one_entry_per_future.
Qed.

Lemma batch_futures_inputs (W : World) (m : Machine) (l : list string)
      (out : string) :
  map task_input (batch_futures W m l out) = valid_files_of W m l.
Proof. apply enumerate_inputs. Qed.

Lemma collected_perm (W : World) (k : Pool) (m : Machine) (l : list string)
      (out : string) :
  fair k -> Permutation (collected W k m l out) (batch_futures W m l out).
Proof. intro Hk. apply Hk. Qed.

Lemma collected_length (W : World) (k : Pool) (m : Machine) (l : list string)
      (out : string) :
  fair k -> length (collected W k m l out) = length (valid_files_of W m l).
Proof.
  intro Hk. rewrite (Permutation_length (collected_perm W k m l out Hk)).
  rewrite <- (batch_futures_inputs W m l out). symmetry. apply length_map.
Qed.

(** ** What every call returns and leaves behind *)

Lemma completes_cases (W : World) (k : Pool) (m : Machine) (l : list string)
      (out : string) :
  (completes W k m l out = true
   /\ valid_files_of W m l <> []
   /\ pool_starts W (self m) out = true
   /\ reaches_pool W m l out = true
   /\ submit_raises k out [] (valid_files_of W m l) = None)
  \/ (completes W k m l out = false
      /\ valid_files_of W m l <> []
      /\ pool_starts W (self m) out = true
      /\ reaches_pool W m l out = true
      /\ exists e, submit_raises k out [] (valid_files_of W m l) = Some e)
  \/ (completes W k m l out = false
      /\ valid_files_of W m l <> []
      /\ pool_starts W (self m) out = false
      /\ reaches_pool W m l out = false)
  \/ (completes W k m l out = false
      /\ valid_files_of W m l = []
      /\ reaches_pool W m l out = false).
Proof.
  unfold completes, reaches_pool.
  destruct (valid_files_of W m l) as [|v vs] eqn:Ev.
  - right. right. right. auto.
  - assert (v :: vs <> []) as Hne by discriminate.
    destruct (pool_starts W (self m) out).
    + simpl. destruct (submits_all k out (v :: vs)) eqn:Es.
      * left. apply submits_all_true in Es. auto.
      * right. left. apply submits_all_false in Es. auto.
    + right. right. left. auto.
Qed.

Lemma process_files_summary (W : World) (k : Pool) (t0 t1 : Q)
      (l : list string) (out : string) (m : Machine) :
  fair k ->
  exists r m',
    process_files W k t0 t1 l out m = (Ok r, m')
    /\ Results.successful r
       = (if completes W k m l out
          then flat_map (success_entries W k (batch_futures W m l out))
                        (collected W k m l out)
          else [])
    /\ Results.failed r
       = (if completes W k m l out
          then flat_map (failure_entries W k (batch_futures W m l out))
                        (collected W k m l out)
          else [])
    /\ (if completes W k m l out
        then Results.errors r
             = flat_map (error_lines W k (batch_futures W m l out))
                        (collected W k m l out)
        else length (Results.errors r) = 1%nat)
    /\ FinalStats.total_files (Results.stats r) = Z.of_nat (length l)
    /\ FinalStats.processed_files (Results.stats r)
       = (if completes W k m l out
          then Stats.processed_files (stats (self m)) else 0)
    /\ FinalStats.successful_conversions (Results.stats r)
       = (if completes W k m l out
          then Stats.successful_conversions (stats (self m))
               + Z.of_nat (length (Results.successful r))
          else 0)
    /\ FinalStats.failed_conversions (Results.stats r)
       = (if completes W k m l out
          then Stats.failed_conversions (stats (self m))
               + Z.of_nat (length (Results.failed r))
          else 0)
    /\ trace m' = (trace m ++ events_of_call W k m l out)%list
    /\ max_workers (self m') = max_workers (self m)
    /\ file_validator (self m') = file_validator (self m)
    /\ Stats.total_files (stats (self m')) = Z.of_nat (length l)
    /\ Stats.processed_files (stats (self m'))
       = (if completes W k m l out
          then Z.of_nat (length (valid_files_of W m l))
          else Stats.processed_files (stats (self m)))
    /\ Stats.successful_conversions (stats (self m'))
       = Stats.successful_conversions (stats (self m))
         + Z.of_nat (length (Results.successful r))
    /\ Stats.failed_conversions (stats (self m'))
       = Stats.failed_conversions (stats (self m))
         + Z.of_nat (length (Results.failed r)).
Proof.
  intro Hk. unfold events_of_call.
  destruct (completes_cases W k m l out)
    as [(Ec & Hv & Hs & Er & Hr)|[(Ec & Hv & Hs & Er & e & Hr)
                                 |[(Ec & Hv & Hs & Er)|(Ec & Hv & Er)]]];
    rewrite Ec, Er.
  - rewrite (process_files_started W k t0 t1 l out m Hk Hv Hs Hr).
    eexists. eexists. split; [reflexivity|]. simpl.
    rewrite (submit_calls_all k out _ [] Hr), firstn_all2.
    + repeat split.
    + rewrite <- keys_length, <- (length_map task_input), enumerate_inputs.
      apply Nat.le_refl.
  - rewrite (process_files_submit_raises W k t0 t1 l out m e Hv Hs Hr).
    eexists. eexists. split; [reflexivity|]. simpl.
    rewrite !Z.add_0_r. repeat split.
  - destruct (process_files_not_started W k t0 t1 l out m Hv Hs) as (e & E).
    rewrite E. eexists. eexists. split; [reflexivity|]. simpl.
    rewrite app_nil_r, !Z.add_0_r. repeat split.
  - rewrite (process_files_nothing_valid W k t0 t1 l out m Hv).
    eexists. eexists. split; [reflexivity|]. simpl.
    rewrite app_nil_r, !Z.add_0_r. repeat split.
Qed.

(** [process_files] always returns a result dict. *)
Lemma process_files_returns (W : World) (k : Pool) (t0 t1 : Q)
      (l : list string) (out : string) (m : Machine) :
  fair k ->
  exists r m', process_files W k t0 t1 l out m = (Ok r, m').
Proof.
  intro Hk.
  destruct (process_files_summary W k t0 t1 l out m Hk) as (r & m' & E & _).
  eauto.
Qed.

(* ================================================================= *)
(** * The batch processor: claims about [process_files] *)

Lemma nothing_valid (W : World) (m : Machine) (l : list string) :
  (forall f, In f l -> passes_validation W (file_validator (self m)) f = false) ->
  valid_files_of W m l = [].
Proof.
  intro H. unfold valid_files_of. induction l as [|f l IH]; [reflexivity|].
  simpl. rewrite (H f) by now left. apply IH. intros g Hg. apply H. now right.
Qed.

Lemma valid_files_in (W : World) (m : Machine) (l : list string) (f : string) :
  In f (valid_files_of W m l)
  <-> In f l /\ passes_validation W (file_validator (self m)) f = true.
Proof. unfold valid_files_of. apply filter_In. Qed.

Lemma fair_in_order : fair office.in_order.
Proof. intro fs. reflexivity. Qed.

Lemma fair_reversed : fair office.reversed.
Proof. intro fs. symmetry. apply Permutation_rev. Qed.

Lemma fair_one_worker : fair office.one_worker.
Proof. intro fs. reflexivity. Qed.

Lemma fair_breaks_early : fair office.breaks_early.
Proof. intro fs. reflexivity. Qed.

(** C8.  When no input file passes validation, [process_files] submits no
    conversion and creates no pool, and it returns the error result: the
    lists [successful] and [failed] are empty, [errors] holds exactly one
    message, and every statistic is zero except [total_files], which is the
    number of input files given. *)
Theorem process_files_without_valid_file
        (W : World) (k : Pool) (t0 t1 : Q) (l : list string) (out : string)
        (m : Machine) :
  (forall f, In f l -> passes_validation W (file_validator (self m)) f = false) ->
  exists r m',
    process_files W k t0 t1 l out m = (Ok r, m')
    /\ trace m' = trace m
    /\ Results.successful r = []
    /\ Results.failed r = []
    /\ length (Results.errors r) = 1%nat
    /\ FinalStats.total_files (Results.stats r) = Z.of_nat (length l)
    /\ FinalStats.processed_files (Results.stats r) = 0
    /\ FinalStats.successful_conversions (Results.stats r) = 0
    /\ FinalStats.failed_conversions (Results.stats r) = 0
    /\ FinalStats.success_rate (Results.stats r) = 0%Q
    /\ FinalStats.total_time (Results.stats r) = 0%Q
    /\ FinalStats.average_time_per_file (Results.stats r) = 0%Q
    /\ FinalStats.files_per_minute (Results.stats r) = 0%Q.
Proof.
  intro H. apply nothing_valid in H.
  rewrite (process_files_nothing_valid W k t0 t1 l out m H).
  eexists. eexists. split; [reflexivity|]. simpl. repeat split.
Qed.

Lemma process_files_without_valid_file_witness :
  exists r m',
    process_files office.world office.in_order 10 12
      ["missing.docx"; "notes.txt"] "out" (office.start None) = (Ok r, m')
    /\ trace m' = []
    /\ Results.successful r = []
    /\ Results.failed r = []
    /\ length (Results.errors r) = 1%nat
    /\ FinalStats.total_files (Results.stats r) = 2
    /\ FinalStats.processed_files (Results.stats r) = 0
    /\ FinalStats.successful_conversions (Results.stats r) = 0
    /\ FinalStats.failed_conversions (Results.stats r) = 0
    /\ FinalStats.success_rate (Results.stats r) = 0%Q
    /\ FinalStats.total_time (Results.stats r) = 0%Q
    /\ FinalStats.average_time_per_file (Results.stats r) = 0%Q
    /\ FinalStats.files_per_minute (Results.stats r) = 0%Q.
Proof.
  apply (process_files_without_valid_file office.world office.in_order 10 12
           ["missing.docx"; "notes.txt"] "out" (office.start None)).
  intros f [<-|[<-|[]]]; reflexivity.
Defined.

(** C2, on a processor just constructed.  One valid file is converted
    successfully; the returned statistics count one success and no failure
    but give [processed_files] as 0 and [success_rate] as 0, because
    [_calculate_final_stats] runs inside [_process_parallel], before
    [process_files] stores the number of validated files.  A second call
    without [reset_stats] then reports two successes for one processed
    file, a success rate of 200. *)
Theorem process_files_stats_lag :
  exists r1 m1 r2 m2,
    process_files office.world office.in_order 10 12 ["a.docx"] "out"
      (office.start (Some 2)) = (Ok r1, m1)
    /\ valid_files_of office.world (office.start (Some 2)) ["a.docx"] = ["a.docx"]
    /\ length (Results.successful r1) = 1%nat
    /\ length (Results.failed r1) = 0%nat
    /\ FinalStats.successful_conversions (Results.stats r1) = 1
    /\ FinalStats.failed_conversions (Results.stats r1) = 0
    /\ FinalStats.processed_files (Results.stats r1) = 0
    /\ FinalStats.success_rate (Results.stats r1) = 0%Q
    /\ process_files office.world office.in_order 20 22 ["a.docx"] "out" m1
       = (Ok r2, m2)
    /\ length (Results.successful r2) = 1%nat
    /\ length (Results.failed r2) = 0%nat
    /\ FinalStats.successful_conversions (Results.stats r2) = 2
    /\ FinalStats.failed_conversions (Results.stats r2) = 0
    /\ FinalStats.processed_files (Results.stats r2) = 1
    /\ (FinalStats.success_rate (Results.stats r2) == 200)%Q.
Proof.
  do 4 eexists. split; [vm_compute; reflexivity|].
  repeat (split; [vm_compute; reflexivity|]). vm_compute; reflexivity.
Qed.

(** ** The two lists against the validated files *)

Lemma completes_iff (W : World) (k : Pool) (m : Machine) (l : list string)
      (out : string) :
  completes W k m l out = true
  <-> valid_files_of W m l <> []
      /\ pool_starts W (self m) out = true
      /\ submits_all k out (valid_files_of W m l) = true.
Proof.
  unfold completes, reaches_pool.
  destruct (valid_files_of W m l) as [|v vs].
  - simpl. split; [discriminate|]. intros [H _]. now contradiction H.
  - rewrite andb_true_iff. split.
    + intros [H1 H2]. repeat split; [discriminate|assumption|assumption].
    + tauto.
Qed.

(** The files named in the two lists of a call that gets through the
    pool are the validated files, with multiplicity. *)
Lemma completed_lists_cover (W : World) (k : Pool) (m : Machine)
      (l : list string) (out : string) (r : Results.t) :
  fair k ->
  Results.successful r
  = flat_map (success_entries W k (batch_futures W m l out))
             (collected W k m l out) ->
  Results.failed r
  = flat_map (failure_entries W k (batch_futures W m l out))
             (collected W k m l out) ->
  Permutation (successful_inputs r ++ failed_inputs r) (valid_files_of W m l).
Proof.
  intros Hk Es Ef. unfold successful_inputs, failed_inputs.
  rewrite Es, Ef, !map_of_flat_map.
  rewrite <- (batch_futures_inputs W m l out).
  rewrite <- (Permutation_map task_input (collected_perm W k m l out Hk)).
  apply flat_map_split. intro fu. now rewrite one_entry_per_future.
Qed.

(** When no validated file is listed twice, no file is named in both
    lists. *)
Lemma completed_lists_disjoint (W : World) (k : Pool) (m : Machine)
      (l : list string) (out : string) (r : Results.t) (f : string) :
  fair k ->
  NoDup (valid_files_of W m l) ->
  Results.successful r
  = flat_map (success_entries W k (batch_futures W m l out))
             (collected W k m l out) ->
  Results.failed r
  = flat_map (failure_entries W k (batch_futures W m l out))
             (collected W k m l out) ->
  ~ (In f (successful_inputs r) /\ In f (failed_inputs r)).
Proof.
  intros Hk Hnd Es Ef [Hs Hf]. unfold successful_inputs, failed_inputs in *.
  rewrite Es in Hs. rewrite Ef in Hf.
  apply in_map_iff in Hs. destruct Hs as (x & Ex & Hx).
  apply in_map_iff in Hf. destruct Hf as (y & Ey & Hy).
  apply in_flat_map in Hx. destruct Hx as (fu1 & H1 & Hx).
  apply in_flat_map in Hy. destruct Hy as (fu2 & H2 & Hy).
  apply success_entries_in in Hx. apply failure_entries_in in Hy.
  destruct Hx as [Ix Sx], Hy as [Iy Sy].
  assert (fu1 = fu2) as E.
  { apply (same_input_same_future out (valid_files_of W m l)).
    - exact Hnd.
    - eapply fair_in; eauto.
    - eapply fair_in; eauto.
    - congruence. }
  subst fu2. congruence.
Qed.

(** C1, as the code has it.  [process_files] always returns.  Every entry
    of [successful] and [failed] names an input file that passed
    validation, and a file that fails validation is named in neither list.
    When the output directory and the pool can be created and every call
    of [executor.submit] returns, the files named in the two lists are,
    with multiplicity, the input files that passed validation: each of
    them is named in one of the lists, and in exactly one when no
    validated file is listed twice.  Otherwise the exception is caught and
    both lists are empty. *)
Theorem process_files_partition
        (W : World) (k : Pool) (t0 t1 : Q) (l : list string) (out : string)
        (m : Machine) :
  fair k ->
  exists r m',
    process_files W k t0 t1 l out m = (Ok r, m')
    /\ (forall f, In f (successful_inputs r) \/ In f (failed_inputs r) ->
                  In f l /\ passes_validation W (file_validator (self m)) f = true)
    /\ (forall f, passes_validation W (file_validator (self m)) f = false ->
                  ~ In f (successful_inputs r) /\ ~ In f (failed_inputs r))
    /\ (pool_starts W (self m) out = true ->
        submits_all k out (valid_files_of W m l) = true ->
        Permutation (successful_inputs r ++ failed_inputs r)
                    (valid_files_of W m l)
        /\ (forall f, In f l ->
                      passes_validation W (file_validator (self m)) f = true ->
                      In f (successful_inputs r) \/ In f (failed_inputs r))
        /\ (NoDup (valid_files_of W m l) ->
            forall f, ~ (In f (successful_inputs r) /\ In f (failed_inputs r))))
    /\ (pool_starts W (self m) out = false
        \/ submits_all k out (valid_files_of W m l) = false ->
        Results.successful r = [] /\ Results.failed r = []).
Proof.
  intro Hk.
  destruct (process_files_summary W k t0 t1 l out m Hk) as
      (r & m' & E & Es & Ef & _).
  exists r, m'. split; [exact E|].
  assert (forall f, In f (successful_inputs r) \/ In f (failed_inputs r) ->
                    In f l
                    /\ passes_validation W (file_validator (self m)) f = true)
    as Hfrom.
  { intros f Hf. destruct (completes W k m l out) eqn:Ec.
    - apply valid_files_in.
      eapply Permutation_in;
        [exact (completed_lists_cover W k m l out r Hk Es Ef)|].
      now apply in_or_app.
    - unfold successful_inputs, failed_inputs in Hf. rewrite Es, Ef in Hf.
      destruct Hf as [[]|[]]. }
  split; [exact Hfrom|].
  split.
  { intros f Hf.
    split; intro Hin; [destruct (Hfrom f (or_introl Hin))
                      |destruct (Hfrom f (or_intror Hin))]; congruence. }
  split.
  - intros Hs Ha.
    destruct (valid_files_of W m l) as [|v vs] eqn:Ev.
    + assert (completes W k m l out = false) as Ec
          by (unfold completes, reaches_pool; now rewrite Ev).
      rewrite Ec in Es, Ef. unfold successful_inputs, failed_inputs.
      rewrite Es, Ef. simpl. split; [constructor|]. split.
      * intros f Hl Hp.
        assert (In f (valid_files_of W m l)) as Hin by now apply valid_files_in.
        rewrite Ev in Hin. contradiction.
      * intros _ f [[] _].
    + assert (completes W k m l out = true) as Ec.
      { apply completes_iff. rewrite Ev. repeat split; try assumption.
        discriminate. }
      rewrite Ec in Es, Ef. rewrite <- Ev in *.
      pose proof (completed_lists_cover W k m l out r Hk Es Ef) as Hcover.
      split; [exact Hcover|]. split.
      * intros f Hl Hp. apply in_app_or.
        eapply Permutation_in; [symmetry; exact Hcover|].
        now apply valid_files_in.
      * intros Hnd f.
        exact (completed_lists_disjoint W k m l out r f Hk Hnd Es Ef).
  - intro H.
    assert (completes W k m l out = false) as Ec.
    { destruct (completes W k m l out) eqn:Ec; [|reflexivity].
      apply completes_iff in Ec. destruct Ec as (_ & H1 & H2).
      destruct H; congruence. }
    rewrite Ec in Es, Ef. auto.
Qed.

Lemma process_files_partition_witness :
  fair office.reversed
  /\ exists r m',
      process_files office.world office.reversed 10 12
        ["a.docx"; "broken.docx"; "missing.docx"] "out" (office.start (Some 2))
      = (Ok r, m')
      /\ Permutation (successful_inputs r ++ failed_inputs r)
                     ["a.docx"; "broken.docx"]
      /\ (forall f, ~ (In f (successful_inputs r) /\ In f (failed_inputs r)))
      /\ ~ In "missing.docx" (successful_inputs r)
      /\ ~ In "missing.docx" (failed_inputs r)
      /\ successful_inputs r = ["a.docx"]
      /\ failed_inputs r = ["broken.docx"].
Proof.
  split; [exact fair_reversed|].
  destruct (process_files_partition office.world office.reversed 10 12
              ["a.docx"; "broken.docx"; "missing.docx"] "out"
              (office.start (Some 2)) fair_reversed)
    as (r & m' & E & _ & Hinv & Hdone & _).
  exists r, m'. split; [exact E|].
  destruct (Hdone eq_refl eq_refl) as (Hperm & _ & Hdisj).
  split; [exact Hperm|].
  split.
  { apply Hdisj. repeat constructor; simpl; intuition discriminate. }
  destruct (Hinv "missing.docx" eq_refl) as [H1 H2].
  split; [exact H1|]. split; [exact H2|].
  vm_compute in E. injection E as <- _. split; reflexivity.
Defined.

(** C1 as stated fails: the call below returns without raising, its one
    input file passes validation, and the file is in neither list, because
    the output directory cannot be created and the exception is caught. *)
Lemma partition_fails_without_output_dir :
  ~ (forall (W : World) (k : Pool) (t0 t1 : Q) (l : list string)
            (out : string) (m m' : Machine) (r : Results.t),
        fair k ->
        process_files W k t0 t1 l out m = (Ok r, m') ->
        forall f, In f l ->
                  passes_validation W (file_validator (self m)) f = true ->
                  In f (successful_inputs r) \/ In f (failed_inputs r)).
Proof.
  intro H.
  destruct (process_files office.world office.in_order 10 12 ["a.docx"] "locked"
              (office.start (Some 2))) as [[r|e] m'] eqn:E;
    [|vm_compute in E; discriminate].
  specialize (H office.world office.in_order 10%Q 12%Q ["a.docx"] "locked"
                (office.start (Some 2)) m' r fair_in_order E "a.docx"
                (or_introl eq_refl) eq_refl).
  vm_compute in E. injection E as <- _.
  destruct H as [[]|[]].
Qed.

(** The same happens when the pool breaks while the tasks are handed in:
    the second [submit] raises, and neither validated file is in a list,
    though one task was handed in. *)
Example partition_fails_when_submit_raises :
  exists r m',
    process_files office.world office.breaks_early 10 12
      ["a.docx"; "x/b.docx"] "out" (office.start (Some 2)) = (Ok r, m')
    /\ pool_starts office.world (self (office.start (Some 2))) "out" = true
    /\ valid_files_of office.world (office.start (Some 2))
         ["a.docx"; "x/b.docx"] = ["a.docx"; "x/b.docx"]
    /\ Results.successful r = [] /\ Results.failed r = []
    /\ length (Results.errors r) = 1%nat
    /\ submissions (trace m') = [("a.docx", "out/a.pdf"); ("x/b.docx", "out/b.pdf")].
Proof.
  eexists. eexists. split; [vm_compute; reflexivity|].
  repeat split.
Qed.

(** And a file listed twice can be named in both lists: here the worker
    dies between the two tasks of [a.docx]. *)
Example listed_twice_in_both_lists :
  exists r m',
    process_files office.world office.one_worker 10 12
      ["a.docx"; "crash.docx"; "a.docx"] "out" (office.start (Some 1))
    = (Ok r, m')
    /\ successful_inputs r = ["a.docx"]
    /\ failed_inputs r = ["crash.docx"; "a.docx"].
Proof.
  eexists. eexists. split; [vm_compute; reflexivity|]. split; reflexivity.
Qed.

(** ** Pools that treat every task on its own *)

Lemma isolated_submits (g : string -> string -> option exn) (k : Pool)
      (out : string) (l : list string) (bs : list Future) :
  isolated g k -> submit_raises k out bs l = None.
Proof.
  intros [Hs _]. revert bs. induction l as [|f l IH]; intro bs; simpl;
    [reflexivity|].
  rewrite Hs. apply IH.
Qed.

Lemma isolated_completes (W : World) (g : string -> string -> option exn)
      (k : Pool) (m : Machine) (l : list string) (out : string) :
  isolated g k -> completes W k m l out = reaches_pool W m l out.
Proof.
  intro Hi. unfold completes, submits_all.
  rewrite (isolated_submits g k out _ [] Hi). apply andb_true_r.
Qed.

Lemma isolated_in_order : isolated (fun _ _ => None) office.in_order.
Proof. split; reflexivity. Qed.

Lemma isolated_reversed : isolated (fun _ _ => None) office.reversed.
Proof. split; reflexivity. Qed.

Lemma isolated_success_entries (W : World) (g : string -> string -> option exn)
      (k : Pool) (fs : list Future) (out : string) (l : list string)
      (fu : Future) :
  isolated g k -> In fu (futures_of l out) ->
  success_entries W k fs fu = file_successes W g out (task_input fu).
Proof.
  intros [_ Hr] Hin. apply enumerate_output in Hin. destruct Hin as [_ Eo].
  unfold success_entries, file_successes, future_result, task_result.
  now rewrite Hr, Eo.
Qed.

Lemma isolated_failure_entries (W : World) (g : string -> string -> option exn)
      (k : Pool) (fs : list Future) (out : string) (l : list string)
      (fu : Future) :
  isolated g k -> In fu (futures_of l out) ->
  failure_entries W k fs fu = file_failures W g out (task_input fu).
Proof.
  intros [_ Hr] Hin. apply enumerate_output in Hin. destruct Hin as [_ Eo].
  unfold failure_entries, file_failures, future_result, task_result.
  now rewrite Hr, Eo.
Qed.

Lemma isolated_successful (W : World) (g : string -> string -> option exn)
      (k : Pool) (m : Machine) (l : list string) (out : string) :
  fair k -> isolated g k ->
  Permutation
    (flat_map (success_entries W k (batch_futures W m l out))
              (collected W k m l out))
    (flat_map (file_successes W g out) (valid_files_of W m l)).
Proof.
  intros Hk Hi.
  rewrite (flat_map_agree _ (fun fu => file_successes W g out (task_input fu))).
  - rewrite <- flat_map_of_map. apply flat_map_perm.
    rewrite <- (batch_futures_inputs W m l out).
    apply Permutation_map, collected_perm, Hk.
  - intros fu Hin.
    apply (isolated_success_entries W g k _ out (valid_files_of W m l) fu Hi).
    apply (fair_in k _ fu Hk Hin).
Qed.

Lemma isolated_failed (W : World) (g : string -> string -> option exn)
      (k : Pool) (m : Machine) (l : list string) (out : string) :
  fair k -> isolated g k ->
  Permutation
    (flat_map (failure_entries W k (batch_futures W m l out))
              (collected W k m l out))
    (flat_map (file_failures W g out) (valid_files_of W m l)).
Proof.
  intros Hk Hi.
  rewrite (flat_map_agree _ (fun fu => file_failures W g out (task_input fu))).
  - rewrite <- flat_map_of_map. apply flat_map_perm.
    rewrite <- (batch_futures_inputs W m l out).
    apply Permutation_map, collected_perm, Hk.
  - intros fu Hin.
    apply (isolated_failure_entries W g k _ out (valid_files_of W m l) fu Hi).
    apply (fair_in k _ fu Hk Hin).
Qed.

(** What a call returns and leaves behind when the pool treats every task
    on its own, up to the order of completion. *)
Lemma isolated_summary (W : World) (g : string -> string -> option exn)
      (k : Pool) (t0 t1 : Q) (l : list string) (out : string) (m : Machine) :
  fair k -> isolated g k ->
  exists r m',
    process_files W k t0 t1 l out m = (Ok r, m')
    /\ Permutation (Results.successful r)
         (if reaches_pool W m l out
          then flat_map (file_successes W g out) (valid_files_of W m l) else [])
    /\ Permutation (Results.failed r)
         (if reaches_pool W m l out
          then flat_map (file_failures W g out) (valid_files_of W m l) else [])
    /\ FinalStats.total_files (Results.stats r) = Z.of_nat (length l)
    /\ FinalStats.processed_files (Results.stats r)
       = (if reaches_pool W m l out
          then Stats.processed_files (stats (self m)) else 0)
    /\ FinalStats.successful_conversions (Results.stats r)
       = (if reaches_pool W m l out
          then Stats.successful_conversions (stats (self m))
               + Z.of_nat (length (Results.successful r))
          else 0)
    /\ FinalStats.failed_conversions (Results.stats r)
       = (if reaches_pool W m l out
          then Stats.failed_conversions (stats (self m))
               + Z.of_nat (length (Results.failed r))
          else 0)
    /\ Stats.total_files (stats (self m')) = Z.of_nat (length l)
    /\ Stats.processed_files (stats (self m'))
       = (if reaches_pool W m l out
          then Z.of_nat (length (valid_files_of W m l))
          else Stats.processed_files (stats (self m)))
    /\ Stats.successful_conversions (stats (self m'))
       = Stats.successful_conversions (stats (self m))
         + Z.of_nat (length (Results.successful r))
    /\ Stats.failed_conversions (stats (self m'))
       = Stats.failed_conversions (stats (self m))
         + Z.of_nat (length (Results.failed r)).
Proof.
  intros Hk Hi.
  destruct (process_files_summary W k t0 t1 l out m Hk) as
      (r & m' & E & Es & Ef & _ & T & Pr & Sc & Fc & _ & _ & _ & T' & Pr' & Sc' & Fc').
  rewrite (isolated_completes W g k m l out Hi) in *.
  exists r, m'. split; [exact E|].
  split.
  { rewrite Es. destruct (reaches_pool W m l out); [|constructor].
    now apply isolated_successful. }
  split.
  { rewrite Ef. destruct (reaches_pool W m l out); [|constructor].
    now apply isolated_failed. }
  repeat split; assumption.
Qed.

Lemma file_successes_in (W : World) (g : string -> string -> option exn)
      (out : string) (l : list string) (x : Success.t) :
  In x (flat_map (file_successes W g out) l) ->
  In (Success.input x) l
  /\ In x (file_successes W g out (Success.input x))
  /\ Success.output x = _get_output_path (Success.input x) out.
Proof.
  rewrite in_flat_map. intros (f & Hf & H).
  assert (Success.input x = f /\ Success.output x = _get_output_path f out)
    as [Ei Eo].
  { unfold file_successes, task_result, _convert_single_file in H.
    destruct (g f (_get_output_path f out)); [destruct H|].
    match type of H with
    | context [match ?c with Ok _ => _ | Raise _ => _ end] =>
        destruct c as [[]|e]
    end; simpl in H; try contradiction; destruct H as [<-|[]]; auto. }
  subst f. auto.
Qed.

Lemma file_failures_in (W : World) (g : string -> string -> option exn)
      (out : string) (l : list string) (x : Failure.t) :
  In x (flat_map (file_failures W g out) l) ->
  In (Failure.input x) l /\ In x (file_failures W g out (Failure.input x)).
Proof.
  rewrite in_flat_map. intros (f & Hf & H).
  assert (Failure.input x = f) as Ei.
  { unfold file_failures in H.
    destruct (task_result W g f (_get_output_path f out)) as [[[[] o] err]|e];
      simpl in H; try contradiction; destruct H as [<-|[]]; reflexivity. }
  subst f. auto.
Qed.

(** ** Order of the input list *)

Lemma valid_files_perm (W : World) (m : Machine) (l1 l2 : list string) :
  Permutation l1 l2 ->
  Permutation (valid_files_of W m l1) (valid_files_of W m l2).
Proof. apply filter_perm. Qed.

Lemma reaches_pool_perm (W : World) (m : Machine) (l1 l2 : list string)
      (out : string) :
  Permutation l1 l2 -> reaches_pool W m l1 out = reaches_pool W m l2 out.
Proof.
  intro P. apply (valid_files_perm W m) in P. unfold reaches_pool.
  destruct (valid_files_of W m l1), (valid_files_of W m l2); try reflexivity.
  - apply Permutation_nil in P. discriminate.
  - symmetry in P. apply Permutation_nil in P. discriminate.
Qed.

(** C3, as the code has it.  Take a pool in which every [submit] returns
    and no worker dies, so that what the pool sets on a future depends on
    the task of that future alone.  Then a batch and any reordering of it,
    processed from the same processor state into the same output directory
    and under any two completion orders, give the same entries in
    [successful] and the same entries in [failed] (as multisets, hence as
    sets), and equal counters [total_files], [processed_files],
    [successful_conversions] and [failed_conversions], both in the returned
    statistics and in the processor. *)
Theorem process_files_order_independent
        (W : World) (g : string -> string -> option exn) (k1 k2 : Pool)
        (t0 t1 u0 u1 : Q) (l1 l2 : list string) (out : string) (m : Machine) :
  fair k1 -> fair k2 -> isolated g k1 -> isolated g k2 -> Permutation l1 l2 ->
  exists r1 m1 r2 m2,
    process_files W k1 t0 t1 l1 out m = (Ok r1, m1)
    /\ process_files W k2 u0 u1 l2 out m = (Ok r2, m2)
    /\ Permutation (Results.successful r1) (Results.successful r2)
    /\ Permutation (Results.failed r1) (Results.failed r2)
    /\ (forall x, In x (Results.successful r1) <-> In x (Results.successful r2))
    /\ (forall x, In x (Results.failed r1) <-> In x (Results.failed r2))
    /\ FinalStats.total_files (Results.stats r1)
       = FinalStats.total_files (Results.stats r2)
    /\ FinalStats.processed_files (Results.stats r1)
       = FinalStats.processed_files (Results.stats r2)
    /\ FinalStats.successful_conversions (Results.stats r1)
       = FinalStats.successful_conversions (Results.stats r2)
    /\ FinalStats.failed_conversions (Results.stats r1)
       = FinalStats.failed_conversions (Results.stats r2)
    /\ Stats.total_files (stats (self m1)) = Stats.total_files (stats (self m2))
    /\ Stats.processed_files (stats (self m1))
       = Stats.processed_files (stats (self m2))
    /\ Stats.successful_conversions (stats (self m1))
       = Stats.successful_conversions (stats (self m2))
    /\ Stats.failed_conversions (stats (self m1))
       = Stats.failed_conversions (stats (self m2)).
Proof.
  intros H1 H2 I1 I2 P.
  destruct (isolated_summary W g k1 t0 t1 l1 out m H1 I1) as
      (r1 & m1 & E1 & Ps1 & Pf1 & T1 & Pr1 & Sc1 & Fc1 & T1' & Pr1' & Sc1' & Fc1').
  destruct (isolated_summary W g k2 u0 u1 l2 out m H2 I2) as
      (r2 & m2 & E2 & Ps2 & Pf2 & T2 & Pr2 & Sc2 & Fc2 & T2' & Pr2' & Sc2' & Fc2').
  pose proof (valid_files_perm W m l1 l2 P) as Pv.
  rewrite <- (reaches_pool_perm W m l1 l2 out P) in *.
  assert (Permutation (Results.successful r1) (Results.successful r2)) as Ps.
  { rewrite Ps1, Ps2. destruct (reaches_pool W m l1 out); [|constructor].
    now apply flat_map_perm. }
  assert (Permutation (Results.failed r1) (Results.failed r2)) as Pf.
  { rewrite Pf1, Pf2. destruct (reaches_pool W m l1 out); [|constructor].
    now apply flat_map_perm. }
  pose proof (Permutation_length Ps) as Ls.
  pose proof (Permutation_length Pf) as Lf.
  pose proof (Permutation_length P) as Ll.
  pose proof (Permutation_length Pv) as Lv.
  exists r1, m1, r2, m2.
  split; [exact E1|]. split; [exact E2|]. split; [exact Ps|]. split; [exact Pf|].
  split; [now apply perm_same_members|]. split; [now apply perm_same_members|].
  rewrite T1, T2, Pr1, Pr2, Sc1, Sc2, Fc1, Fc2, T1', T2', Pr1', Pr2',
    Sc1', Sc2', Fc1', Fc2', Ls, Lf, Ll, Lv.
  repeat split.
Qed.

Lemma process_files_order_independent_witness :
  fair office.in_order /\ fair office.reversed
  /\ isolated (fun _ _ => None) office.in_order
  /\ isolated (fun _ _ => None) office.reversed
  /\ Permutation ["a.docx"; "broken.docx"; "x/b.docx"]
                 ["x/b.docx"; "a.docx"; "broken.docx"]
  /\ exists r1 m1 r2 m2,
      process_files office.world office.in_order 10 12
        ["a.docx"; "broken.docx"; "x/b.docx"] "out" (office.start (Some 2))
      = (Ok r1, m1)
      /\ process_files office.world office.reversed 20 23
           ["x/b.docx"; "a.docx"; "broken.docx"] "out" (office.start (Some 2))
         = (Ok r2, m2)
      /\ Permutation (Results.successful r1) (Results.successful r2)
      /\ Permutation (Results.failed r1) (Results.failed r2)
      /\ FinalStats.successful_conversions (Results.stats r1)
         = FinalStats.successful_conversions (Results.stats r2)
      /\ FinalStats.failed_conversions (Results.stats r1)
         = FinalStats.failed_conversions (Results.stats r2).
Proof.
  assert (Permutation ["a.docx"; "broken.docx"; "x/b.docx"]
                      ["x/b.docx"; "a.docx"; "broken.docx"]) as P
      by apply (Permutation_app_comm ["a.docx"; "broken.docx"] ["x/b.docx"]).
  split; [exact fair_in_order|]. split; [exact fair_reversed|].
  split; [exact isolated_in_order|]. split; [exact isolated_reversed|].
  split; [exact P|].
  destruct (process_files_order_independent office.world (fun _ _ => None)
              office.in_order office.reversed 10 12 20 23 _ _ "out"
              (office.start (Some 2))
              fair_in_order fair_reversed isolated_in_order isolated_reversed P)
    as (r1 & m1 & r2 & m2 & E1 & E2 & Ps & Pf & _ & _ & _ & _ & Sc & Fc & _).
  exists r1, m1, r2, m2. repeat split; assumption.
Defined.

(** C3 as stated fails when a worker dies.  The pool has one worker, which
    runs the tasks in the order of submission and dies on [crash.docx].
    With [a.docx] listed first its task is finished by then and succeeds;
    with [a.docx] listed second its future is still pending and gets
    [BrokenProcessPool], so it is recorded as failed. *)
Lemma order_matters_when_a_worker_dies :
  ~ (forall (W : World) (k : Pool) (t0 t1 u0 u1 : Q) (l1 l2 : list string)
            (out : string) (m m1 m2 : Machine) (r1 r2 : Results.t),
        fair k -> Permutation l1 l2 ->
        process_files W k t0 t1 l1 out m = (Ok r1, m1) ->
        process_files W k u0 u1 l2 out m = (Ok r2, m2) ->
        forall x, In x (Results.successful r1) <-> In x (Results.successful r2)).
Proof.
  intro H.
  destruct (process_files office.world office.one_worker 10 12
              ["a.docx"; "crash.docx"] "out" (office.start (Some 1)))
    as [[r1|e1] m1] eqn:E1; [|vm_compute in E1; discriminate].
  destruct (process_files office.world office.one_worker 20 22
              ["crash.docx"; "a.docx"] "out" (office.start (Some 1)))
    as [[r2|e2] m2] eqn:E2; [|vm_compute in E2; discriminate].
  specialize (H office.world office.one_worker 10%Q 12%Q 20%Q 22%Q
                ["a.docx"; "crash.docx"] ["crash.docx"; "a.docx"] "out"
                (office.start (Some 1)) m1 m2 r1 r2 fair_one_worker
                (perm_swap _ _ _) E1 E2 (Success.mk "a.docx" "out/a.pdf")).
  vm_compute in E1. injection E1 as <- _.
  vm_compute in E2. injection E2 as <- _.
  destruct H as [H _]. destruct (H (or_introl eq_refl)).
Qed.

(** ** Submissions *)






Lemma pool_sizes_of_call (W : World) (k : Pool) (m : Machine) (l : list string)
      (out : string) :
  pool_sizes (events_of_call W k m l out)
  = if reaches_pool W m l out then [max_workers (self m)] else [].
Proof.
  unfold events_of_call. destruct (reaches_pool W m l out); [|reflexivity].
  simpl. now rewrite enumerate_firstn, enumerate_pool_sizes.
Qed.




(** When the pool breaks while the tasks are handed in, the files after
    the raising [submit] are never handed in, and the task that was handed
    in is not recorded. *)
Example no_submission_after_submit_raises :
  exists r m',
    process_files office.world office.breaks_early 10 12
      ["a.docx"; "x/b.docx"; "c.docx"] "out" (office.start (Some 2))
    = (Ok r, m')
    /\ times_submitted "a.docx" (trace m') = 1%nat
    /\ times_submitted "c.docx" (trace m') = 0%nat
    /\ Results.successful r = [] /\ Results.failed r = [].
Proof.
  eexists. eexists. split; [vm_compute; reflexivity|]. repeat split.
Qed.

(** ** The size of the pool *)

(** C5, as the code has it.  [__init__] keeps its argument as
    [max_workers] when it is given and not zero, and takes
    [config.max_workers] when it is [None] or [0].  The only pool that a
    call of [process_files] creates is created with [self.max_workers], and
    the call leaves [self.max_workers] unchanged.
    [get_optimal_worker_count] is [min(2, cpu_count)] up to 5 files,
    [min(4, cpu_count)] up to 20 and [min(self.max_workers, cpu_count)]
    beyond, so never more than the CPU count. *)
Theorem pool_size_is_max_workers
        (W : World) (k : Pool) (t0 t1 : Q) (l : list string) (out : string)
        (m : Machine) (file_count : Z) :
  fair k ->
  (forall n, n <> 0 -> max_workers (init W (Some n)) = n)
  /\ max_workers (init W (Some 0)) = settings.max_workers (config W)
  /\ max_workers (init W None) = settings.max_workers (config W)
  /\ (exists r m' new,
         process_files W k t0 t1 l out m = (Ok r, m')
         /\ trace m' = (trace m ++ new)%list
         /\ pool_sizes new
            = (if reaches_pool W m l out then [max_workers (self m)] else [])
         /\ max_workers (self m') = max_workers (self m))
  /\ (file_count <= 5 ->
      get_optimal_worker_count W (self m) file_count = Z.min 2 (cpu_count W))
  /\ (5 < file_count <= 20 ->
      get_optimal_worker_count W (self m) file_count = Z.min 4 (cpu_count W))
  /\ (20 < file_count ->
      get_optimal_worker_count W (self m) file_count
      = Z.min (max_workers (self m)) (cpu_count W))
  /\ get_optimal_worker_count W (self m) file_count <= cpu_count W.
Proof.
  intro Hk.
  split.
  { intros n Hn. unfold init, py.or_int. simpl.
    destruct (Z.eqb_spec n 0); [contradiction|reflexivity]. }
  split; [reflexivity|]. split; [reflexivity|].
  split.
  { destruct (process_files_summary W k t0 t1 l out m Hk) as
        (r & m' & E & _ & _ & _ & _ & _ & _ & _ & Tr & Mw & _).
    exists r, m'. eexists. split; [exact E|]. split; [exact Tr|].
    split; [apply pool_sizes_of_call|exact Mw]. }
  unfold get_optimal_worker_count.
  repeat split; intros;
    destruct (Z.leb_spec file_count 5); destruct (Z.leb_spec file_count 20);
    lia.
Qed.

Lemma pool_size_is_max_workers_witness :
  fair office.in_order
  /\ max_workers (init office.world (Some 3)) = 3
  /\ (exists r m' new,
         process_files office.world office.in_order 10 12 ["a.docx"] "out"
           (office.start (Some 3)) = (Ok r, m')
         /\ trace m' = new
         /\ pool_sizes new = [3])
  /\ get_optimal_worker_count office.world (init office.world (Some 3)) 4 = 2
  /\ get_optimal_worker_count office.world (init office.world (Some 3)) 12 = 4
  /\ get_optimal_worker_count office.world (init office.world (Some 3)) 50 = 3.
Proof.
  split; [exact fair_in_order|].
  destruct (pool_size_is_max_workers office.world office.in_order 10 12
              ["a.docx"] "out" (office.start (Some 3)) 4 fair_in_order)
    as (Hn & _ & _ & (r & m' & new & E & Tr & Hp & _) & _).
  split; [apply Hn; discriminate|].
  split; [exists r, m', new; repeat split; assumption|].
  repeat split.
Defined.

(** C5 as stated fails for the argument [0]: it is given, and the processor
    takes [config.max_workers] instead. *)
Lemma max_workers_zero_is_replaced :
  ~ (forall (W : World) (n : Z), max_workers (init W (Some n)) = n).
Proof.
  intro H. specialize (H office.world 0). discriminate H.
Qed.

(** ** Independence of the other files of the batch *)

Lemma successful_inputs_entries (r : Results.t) (f : string) :
  In f (successful_inputs r)
  <-> exists o, In (Success.mk f o) (Results.successful r).
Proof.
  unfold successful_inputs. rewrite in_map_iff. split.
  - intros ([i o] & E & H). simpl in E. subst i. eauto.
  - intros (o & H). exists (Success.mk f o). auto.
Qed.

Lemma failed_inputs_entries (r : Results.t) (f : string) :
  In f (failed_inputs r)
  <-> exists e, In (Failure.mk f e) (Results.failed r).
Proof.
  unfold failed_inputs. rewrite in_map_iff. split.
  - intros ([i e] & E & H). simpl in E. subst i. eauto.
  - intros (e & H). exists (Failure.mk f e). auto.
Qed.

Lemma reaches_pool_with (W : World) (m : Machine) (l : list string)
      (out f : string) :
  In f (valid_files_of W m l) ->
  reaches_pool W m l out = pool_starts W (self m) out.
Proof.
  unfold reaches_pool. destruct (valid_files_of W m l); [intros []|reflexivity].
Qed.

(** With a pool that treats every task on its own, the entries that name a
    file of the batch are decided by the file, the validator, the output
    directory and whether the pool starts. *)
Lemma named_in_successful (W : World) (g : string -> string -> option exn)
      (m : Machine) (l : list string) (out f o : string) (r : Results.t) :
  In f l ->
  Permutation (Results.successful r)
    (if reaches_pool W m l out
     then flat_map (file_successes W g out) (valid_files_of W m l) else []) ->
  In (Success.mk f o) (Results.successful r)
  <-> passes_validation W (file_validator (self m)) f = true
      /\ pool_starts W (self m) out = true
      /\ In (Success.mk f o) (file_successes W g out f).
Proof.
  intros Hl P. rewrite (perm_same_members _ _ P). split.
  - destruct (reaches_pool W m l out) eqn:Er; [|intros []].
    intro H. apply file_successes_in in H. simpl in H. destruct H as (Hv & H & _).
    rewrite (reaches_pool_with W m l out f Hv) in Er.
    apply valid_files_in in Hv. tauto.
  - intros (Hp & Hs & H).
    assert (In f (valid_files_of W m l)) as Hv by (apply valid_files_in; auto).
    rewrite (reaches_pool_with W m l out f Hv), Hs.
    apply in_flat_map. eauto.
Qed.

Lemma named_in_failed (W : World) (g : string -> string -> option exn)
      (m : Machine) (l : list string) (out f : string) (e : option string)
      (r : Results.t) :
  In f l ->
  Permutation (Results.failed r)
    (if reaches_pool W m l out
     then flat_map (file_failures W g out) (valid_files_of W m l) else []) ->
  In (Failure.mk f e) (Results.failed r)
  <-> passes_validation W (file_validator (self m)) f = true
      /\ pool_starts W (self m) out = true
      /\ In (Failure.mk f e) (file_failures W g out f).
Proof.
  intros Hl P. rewrite (perm_same_members _ _ P). split.
  - destruct (reaches_pool W m l out) eqn:Er; [|intros []].
    intro H. apply file_failures_in in H. simpl in H. destruct H as (Hv & H).
    rewrite (reaches_pool_with W m l out f Hv) in Er.
    apply valid_files_in in Hv. tauto.
  - intros (Hp & Hs & H).
    assert (In f (valid_files_of W m l)) as Hv by (apply valid_files_in; auto).
    rewrite (reaches_pool_with W m l out f Hv), Hs.
    apply in_flat_map. eauto.
Qed.

(** C6, as the code has it.  Take two calls of [process_files] with the
    same output directory, on processors with the same [max_workers] and
    the same validator, each with a pool in which every [submit] returns
    and no worker dies, so that what the pool sets on a future depends on
    the task of that future alone; and take a file [f] that is in both
    input lists.  Whatever else the two batches hold and in whatever order
    the tasks complete, [f] is recorded in the same way by both: the same
    entries of [successful] name it, with the same output path, which is
    [_get_output_path f output_dir], and the same entries of [failed] name
    it. *)
Theorem process_files_noninterference
        (W : World) (g : string -> string -> option exn) (k1 k2 : Pool)
        (t0 t1 u0 u1 : Q) (l1 l2 : list string)
        (out : string) (m1 m2 : Machine) (f : string) :
  fair k1 -> fair k2 -> isolated g k1 -> isolated g k2 ->
  max_workers (self m1) = max_workers (self m2) ->
  file_validator (self m1) = file_validator (self m2) ->
  In f l1 -> In f l2 ->
  exists r1 m1' r2 m2',
    process_files W k1 t0 t1 l1 out m1 = (Ok r1, m1')
    /\ process_files W k2 u0 u1 l2 out m2 = (Ok r2, m2')
    /\ (In f (successful_inputs r1) <-> In f (successful_inputs r2))
    /\ (In f (failed_inputs r1) <-> In f (failed_inputs r2))
    /\ (forall o, In (Success.mk f o) (Results.successful r1)
                  <-> In (Success.mk f o) (Results.successful r2))
    /\ (forall e, In (Failure.mk f e) (Results.failed r1)
                  <-> In (Failure.mk f e) (Results.failed r2))
    /\ (forall o, In (Success.mk f o) (Results.successful r1) ->
                  o = _get_output_path f out).
Proof.
  intros H1 H2 I1 I2 Hw Hv Hl1 Hl2.
  destruct (isolated_summary W g k1 t0 t1 l1 out m1 H1 I1) as
      (r1 & m1' & E1 & Ps1 & Pf1 & _).
  destruct (isolated_summary W g k2 u0 u1 l2 out m2 H2 I2) as
      (r2 & m2' & E2 & Ps2 & Pf2 & _).
  exists r1, m1', r2, m2'. split; [exact E1|]. split; [exact E2|].
  assert (pool_starts W (self m1) out = pool_starts W (self m2) out) as Hp
      by (unfold pool_starts; now rewrite Hw).
  assert (forall o, In (Success.mk f o) (Results.successful r1)
                    <-> In (Success.mk f o) (Results.successful r2)) as Hs.
  { intro o.
    rewrite (named_in_successful W g m1 l1 out f o r1 Hl1 Ps1).
    rewrite (named_in_successful W g m2 l2 out f o r2 Hl2 Ps2).
    now rewrite Hv, Hp. }
  assert (forall e, In (Failure.mk f e) (Results.failed r1)
                    <-> In (Failure.mk f e) (Results.failed r2)) as Hf.
  { intro e.
    rewrite (named_in_failed W g m1 l1 out f e r1 Hl1 Pf1).
    rewrite (named_in_failed W g m2 l2 out f e r2 Hl2 Pf2).
    now rewrite Hv, Hp. }
  split.
  { rewrite !successful_inputs_entries. split; intros (o & H); exists o;
      now apply Hs. }
  split.
  { rewrite !failed_inputs_entries. split; intros (e & H); exists e;
      now apply Hf. }
  split; [exact Hs|]. split; [exact Hf|].
  intros o H. apply (named_in_successful W g m1 l1 out f o r1 Hl1 Ps1) in H.
  destruct H as (_ & _ & H).
  assert (In (Success.mk f o) (flat_map (file_successes W g out) [f])) as H'
      by (simpl; rewrite app_nil_r; exact H).
  apply file_successes_in in H'. simpl in H'. tauto.
Qed.

Lemma process_files_noninterference_witness :
  fair office.in_order /\ fair office.reversed
  /\ isolated (fun _ _ => None) office.in_order
  /\ isolated (fun _ _ => None) office.reversed
  /\ In "a.docx" ["a.docx"; "broken.docx"]
  /\ In "a.docx" ["x/b.docx"; "missing.docx"; "a.docx"]
  /\ exists r1 m1' r2 m2',
      process_files office.world office.in_order 10 12
        ["a.docx"; "broken.docx"] "out" (office.start (Some 2)) = (Ok r1, m1')
      /\ process_files office.world office.reversed 20 23
           ["x/b.docx"; "missing.docx"; "a.docx"] "out" m1' = (Ok r2, m2')
      /\ (In "a.docx" (successful_inputs r1) <-> In "a.docx" (successful_inputs r2))
      /\ (In "a.docx" (failed_inputs r1) <-> In "a.docx" (failed_inputs r2))
      /\ In (Success.mk "a.docx" "out/a.pdf") (Results.successful r1)
      /\ In (Success.mk "a.docx" "out/a.pdf") (Results.successful r2).
Proof.
  split; [exact fair_in_order|]. split; [exact fair_reversed|].
  split; [exact isolated_in_order|]. split; [exact isolated_reversed|].
  split; [simpl; auto|]. split; [simpl; auto|].
  destruct (process_files office.world office.in_order 10 12
              ["a.docx"; "broken.docx"] "out" (office.start (Some 2)))
    as [r1' m1'] eqn:E1.
  destruct (process_files_noninterference office.world (fun _ _ => None)
              office.in_order office.reversed 10 12 20 23
              ["a.docx"; "broken.docx"]
              ["x/b.docx"; "missing.docx"; "a.docx"] "out"
              (office.start (Some 2)) m1' "a.docx"
              fair_in_order fair_reversed isolated_in_order isolated_reversed)
    as (r1 & m1'' & r2 & m2' & F1 & F2 & Is & If & Hs & _).
  - vm_compute in E1. injection E1 as _ <-. reflexivity.
  - vm_compute in E1. injection E1 as _ <-. reflexivity.
  - simpl; auto.
  - simpl; auto.
  - rewrite E1 in F1. injection F1 as -> ->.
    exists r1, m1'', r2, m2'. split; [reflexivity|]. split; [exact F2|].
    split; [exact Is|]. split; [exact If|].
    assert (In (Success.mk "a.docx" "out/a.pdf") (Results.successful r1)) as Hin.
    { vm_compute in E1. injection E1 as <- _. simpl. auto. }
    split; [exact Hin|]. now apply Hs.
Defined.

(** C6 as stated fails when a worker dies.  The pool has one worker, which
    runs the tasks in the order of submission and dies on [crash.docx].
    Alone in its batch, [a.docx] is recorded as a success; listed after
    [crash.docx], on the same processor and into the same directory, its
    future gets [BrokenProcessPool] and it is recorded as failed. *)
Lemma outcome_depends_on_batch_when_a_worker_dies :
  ~ (forall (W : World) (k : Pool) (t0 t1 u0 u1 : Q) (l1 l2 : list string)
            (out : string) (m m1' m2' : Machine) (r1 r2 : Results.t)
            (f : string),
        fair k -> In f l1 -> In f l2 ->
        process_files W k t0 t1 l1 out m = (Ok r1, m1') ->
        process_files W k u0 u1 l2 out m = (Ok r2, m2') ->
        (In f (successful_inputs r1) <-> In f (successful_inputs r2))).
Proof.
  intro H.
  destruct (process_files office.world office.one_worker 10 12
              ["a.docx"] "out" (office.start (Some 1)))
    as [[r1|e1] m1] eqn:E1; [|vm_compute in E1; discriminate].
  destruct (process_files office.world office.one_worker 20 22
              ["crash.docx"; "a.docx"] "out" (office.start (Some 1)))
    as [[r2|e2] m2] eqn:E2; [|vm_compute in E2; discriminate].
  specialize (H office.world office.one_worker 10%Q 12%Q 20%Q 22%Q
                ["a.docx"] ["crash.docx"; "a.docx"] "out"
                (office.start (Some 1)) m1 m2 r1 r2 "a.docx" fair_one_worker
                (or_introl eq_refl) (or_intror (or_introl eq_refl)) E1 E2).
  vm_compute in E1. injection E1 as <- _.
  vm_compute in E2. injection E2 as <- _.
  destruct H as [H _]. destruct (H (or_introl eq_refl)).
Qed.

(** ** Which call of [submit] raises *)

Lemma enumerate_app (out : string) (a b : list string) (n : nat) :
  enumerate n (a ++ b) out
  = (enumerate n a out ++ enumerate (n + length a) b out)%list.
Proof.
  revert n. induction a as [|x a IH]; intro n; simpl.
  - now rewrite Nat.add_0_r.
  - f_equal. rewrite IH. f_equal. f_equal. lia.
Qed.

Lemma futures_of_length (l : list string) (out : string) :
  length (futures_of l out) = length l.
Proof.
  unfold futures_of. rewrite <- (length_map task_input), enumerate_inputs.
  reflexivity.
Qed.

Lemma futures_of_snoc (pre : list string) (f out : string) :
  futures_of (pre ++ [f]) out
  = (futures_of pre out
     ++ [mkFuture (length (futures_of pre out)) f (_get_output_path f out)])%list.
Proof.
  rewrite futures_of_length. unfold futures_of.
  rewrite enumerate_app, keys_app. reflexivity.
Qed.

(** The calls of [submit] before the last one returned; the last one
    raised when a [submit] raises, and every call returned otherwise. *)
Lemma submit_run (k : Pool) (out : string) (l pre : list string) :
  (forall i, (S i < submit_calls k out (futures_of pre out) l)%nat ->
             submit_fault k (futures_of (pre ++ firstn i l) out) (nth i l "")
               (_get_output_path (nth i l "") out) = None)
  /\ (forall e, submit_raises k out (futures_of pre out) l = Some e ->
                exists j,
                  submit_calls k out (futures_of pre out) l = S j
                  /\ submit_fault k (futures_of (pre ++ firstn j l) out)
                       (nth j l "") (_get_output_path (nth j l "") out)
                     = Some e)
  /\ (submit_raises k out (futures_of pre out) l = None ->
      forall i, (i < length l)%nat ->
                submit_fault k (futures_of (pre ++ firstn i l) out) (nth i l "")
                  (_get_output_path (nth i l "") out) = None).
Proof.
  revert pre. induction l as [|f l IH]; intro pre.
  - simpl. split; [intros i Hi; lia|]. split; [discriminate|].
    intros _ i Hi. lia.
  - cbn [submit_calls submit_raises].
    destruct (submit_fault k (futures_of pre out) f (_get_output_path f out))
      as [e'|] eqn:Ef.
    + split; [intros i Hi; lia|]. split; [|discriminate].
      intros e E. injection E as <-. exists 0%nat. split; [reflexivity|].
      simpl. rewrite app_nil_r. exact Ef.
    + rewrite <- futures_of_snoc.
      destruct (IH (pre ++ [f])%list) as (H1 & H2 & H3).
      split; [|split].
      * intros [|i] Hi.
        -- simpl. rewrite app_nil_r. exact Ef.
        -- simpl firstn. simpl nth.
           replace (pre ++ f :: firstn i l)%list
             with ((pre ++ [f]) ++ firstn i l)%list
             by (rewrite <- app_assoc; reflexivity).
           apply H1. lia.
      * intros e E. destruct (H2 e E) as (j & Ej & Hj).
        exists (S j). split; [now rewrite Ej|].
        simpl firstn. simpl nth.
        replace (pre ++ f :: firstn j l)%list
          with ((pre ++ [f]) ++ firstn j l)%list
          by (rewrite <- app_assoc; reflexivity).
        exact Hj.
      * intros E [|i] Hi.
        -- simpl. rewrite app_nil_r. exact Ef.
        -- simpl firstn. simpl nth.
           replace (pre ++ f :: firstn i l)%list
             with ((pre ++ [f]) ++ firstn i l)%list
             by (rewrite <- app_assoc; reflexivity).
           apply (H3 E). simpl in Hi. lia.
Qed.
(* ================================================================= *)
(** * Output paths *)

Example stem_report : pathlib.stem (pathlib.parse "a/report.docx") = "report".
Proof. reflexivity. Qed.

Example stem_hidden : pathlib.stem (pathlib.parse "a/.bashrc") = ".bashrc".
Proof. reflexivity. Qed.

Example suffix_last_dot : pathlib.suffix (pathlib.parse "/x/b.tar.GZ") = ".GZ".
Proof. reflexivity. Qed.

Example str_normal_form : pathlib.str (pathlib.parse "out//./sub/") = "out/sub".
Proof. reflexivity. Qed.

Example output_path_in_root :
  _get_output_path "docs/letter.DOCX" "/" = "/letter.pdf".
Proof. reflexivity. Qed.

Example output_path_here : _get_output_path "letter.doc" "." = "letter.pdf".
Proof. reflexivity. Qed.

Lemma string_app_assoc (a b c : string) : ((a ++ b) ++ c = a ++ (b ++ c))%string.
Proof. induction a as [|x a IH]; simpl; [reflexivity|]. now rewrite IH. Qed.

Lemma string_length_app (a b : string) :
  String.length (a ++ b) = (String.length a + String.length b)%nat.
Proof. induction a as [|x a IH]; simpl; [reflexivity|]. now rewrite IH. Qed.

Lemma has_slash_app (a b : string) :
  has_slash (a ++ b) = (has_slash a || has_slash b)%bool.
Proof.
  induction a as [|x a IH]; simpl; [reflexivity|].
  now rewrite IH, orb_assoc.
Qed.

Lemma has_slash_substring (s : string) (n m : nat) :
  has_slash s = false -> has_slash (String.substring n m s) = false.
Proof.
  revert n m. induction s as [|a s IH]; intros n m H.
  - now destruct n, m.
  - simpl in H. apply orb_false_iff in H. destruct H as [Ha Hs].
    destruct n as [|n].
    + destruct m as [|m]; simpl; [reflexivity|].
      rewrite Ha. simpl. now apply IH.
    + simpl. now apply IH.
Qed.

Lemma split_not_nil (c : ascii) (s : string) : py.split c s <> [].
Proof.
  destruct s as [|a s]; simpl; [discriminate|].
  destruct (Ascii.eqb a c); [discriminate|].
  destruct (py.split c s); discriminate.
Qed.

(** The components of a path have no [/] in them. *)
Lemma split_slash_free (s x : string) :
  In x (py.split pathlib.slash s) -> has_slash x = false.
Proof.
  revert x. induction s as [|a s IH]; intros x H; simpl in H.
  - destruct H as [<-|[]]. reflexivity.
  - destruct (Ascii.eqb a pathlib.slash) eqn:Ea.
    + destruct H as [<-|H]; [reflexivity|now apply IH].
    + destruct (py.split pathlib.slash s) as [|h t] eqn:Es.
      * destruct H as [<-|[]]. simpl. now rewrite Ea.
      * destruct H as [<-|H].
        -- simpl. rewrite Ea. simpl. apply IH. now left.
        -- apply IH. now right.
Qed.

(** A text without [/] is a single component. *)
Lemma split_of_slash_free (s : string) :
  has_slash s = false -> py.split pathlib.slash s = [s].
Proof.
  induction s as [|a s IH]; intro H; simpl; [reflexivity|].
  simpl in H. apply orb_false_iff in H. destruct H as [Ha Hs].
  rewrite Ha, (IH Hs). reflexivity.
Qed.

Lemma splitroot_of_slash_free (s : string) :
  has_slash s = false -> pathlib.splitroot s = "".
Proof.
  destruct s as [|a s]; [reflexivity|]. simpl has_slash.
  intro H. apply orb_false_iff in H. destruct H as [Ha _].
  unfold pathlib.splitroot. destruct s as [|b [|c s]]; now rewrite Ha.
Qed.

Lemma last_keeps {A : Type} (P : A -> Prop) (l : list A) (d : A) :
  P d -> (forall x, In x l -> P x) -> P (last l d).
Proof.
  intros Hd. induction l as [|a l IH]; intro H; [exact Hd|].
  simpl. destruct l as [|b l]; [apply H; now left|].
  apply IH. intros x Hx. apply H. now right.
Qed.

Lemma name_slash_free (p : string) :
  has_slash (pathlib.name (pathlib.parse p)) = false.
Proof.
  unfold pathlib.name, pathlib.parse. simpl.
  apply (last_keeps (fun x => has_slash x = false)); [reflexivity|].
  intros x H. apply filter_In in H. destruct H as [H _].
  now apply split_slash_free in H.
Qed.

Lemma stem_slash_free (p : string) :
  has_slash (pathlib.stem (pathlib.parse p)) = false.
Proof.
  unfold pathlib.stem.
  destruct ((0 <? py.rfind pathlib.dot (pathlib.name (pathlib.parse p)))
            && (py.rfind pathlib.dot (pathlib.name (pathlib.parse p))
                <? py.len (pathlib.name (pathlib.parse p)) - 1))%bool.
  - unfold py.slice_to. apply has_slash_substring, name_slash_free.
  - apply name_slash_free.
Qed.

(** The file name [stem + ".pdf"] parses as one relative component. *)
Lemma parse_pdf_name (stem : string) :
  has_slash stem = false ->
  pathlib.parse (stem ++ ".pdf") = pathlib.mkPath "" [stem ++ ".pdf"].
Proof.
  intro H.
  assert (has_slash (stem ++ ".pdf") = false) as Hf
      by (rewrite has_slash_app, H; reflexivity).
  unfold pathlib.parse.
  rewrite (splitroot_of_slash_free _ Hf), (split_of_slash_free _ Hf).
  simpl filter.
  assert (pathlib.keep_part (stem ++ ".pdf") = true) as Hk.
  { unfold pathlib.keep_part, py.truthy.
    assert (String.length (stem ++ ".pdf") >= 4)%nat as Hl
        by (rewrite string_length_app; simpl; lia).
    destruct (String.eqb_spec (stem ++ ".pdf") "") as [E|_];
      [rewrite E in Hl; simpl in Hl; lia|].
    destruct (String.eqb_spec (stem ++ ".pdf") ".") as [E|_];
      [rewrite E in Hl; simpl in Hl; lia|].
    reflexivity. }
  now rewrite Hk.
Qed.

Lemma join_snoc (ps : list string) (file : string) :
  ps <> [] ->
  py.join "/" (ps ++ [file]) = (py.join "/" ps ++ "/" ++ file)%string.
Proof.
  induction ps as [|a ps IH]; intro H; [congruence|].
  destruct ps as [|b ps]; [reflexivity|].
  change (py.join "/" ((a :: b :: ps) ++ [file]))
    with (a ++ "/" ++ py.join "/" ((b :: ps) ++ [file]))%string.
  rewrite IH by discriminate.
  change (py.join "/" (a :: b :: ps))
    with (a ++ "/" ++ py.join "/" (b :: ps))%string.
  now rewrite !string_app_assoc.
Qed.

(** C7.  The output path of an input file is the output directory joined
    with the stem of the input file followed by [.pdf].  So any two input
    files with the same stem get the same output path, as
    [a/report.docx] and [b/report.docx] do. *)
Theorem output_path_of_stem (input_path output_dir : string) :
  _get_output_path input_path output_dir
  = joined output_dir (pathlib.stem (pathlib.parse input_path) ++ ".pdf")
  /\ (forall other,
         pathlib.stem (pathlib.parse other)
         = pathlib.stem (pathlib.parse input_path) ->
         _get_output_path other output_dir
         = _get_output_path input_path output_dir)
  /\ "a/report.docx" <> "b/report.docx"
  /\ _get_output_path "a/report.docx" output_dir
     = _get_output_path "b/report.docx" output_dir
  /\ _get_output_path "a/report.docx" "out" = "out/report.pdf".
Proof.
  split.
  - unfold _get_output_path, joined, pathlib.truediv.
    rewrite (parse_pdf_name _ (stem_slash_free input_path)).
    set (file := (pathlib.stem (pathlib.parse input_path) ++ ".pdf")%string).
    destruct (pathlib.parse output_dir) as [r ps].
    cbn [pathlib.root pathlib.parts]. change (py.truthy "") with false.
    cbn iota. unfold pathlib.str. cbn [pathlib.root pathlib.parts].
    destruct ps as [|a ps].
    + simpl app. simpl py.join.
      destruct (py.truthy r) eqn:Er; [reflexivity|].
      unfold py.truthy in Er. apply negb_false_iff, String.eqb_eq in Er.
      now rewrite Er.
    + rewrite join_snoc by discriminate.
      destruct (py.truthy r); [now rewrite !string_app_assoc|reflexivity].
  - split.
    + intros other E. unfold _get_output_path. now rewrite E.
    + split; [discriminate|]. split; reflexivity.
Qed.

(* ================================================================= *)
(** * The converter *)






(* ================================================================= *)
(** * The batch validator *)

Section BatchLoop.

Variable W : World.
Variable self : BatchValidator.t.

Local Abbreviation passes :=
  (passes_validation W (BatchValidator.file_validator self)).
Local Abbreviation step := (BatchValidator.validate_step W self).

Lemma validate_step_valid (acc : BatchValidator.Report) (p : string) :
  BatchValidator.valid (step acc p)
  = (BatchValidator.valid acc ++ (if passes p then [p] else []))%list.
Proof.
  unfold BatchValidator.validate_step, passes_validation.
  destruct (validate_file_returns W (BatchValidator.file_validator self) p)
    as (b & msg & E).
  rewrite E. destruct b; simpl; [reflexivity|now rewrite app_nil_r].
Qed.

Lemma validate_step_invalid (acc : BatchValidator.Report) (p : string) :
  BatchValidator.invalid (step acc p)
  = (BatchValidator.invalid acc ++ (if passes p then [] else [p]))%list.
Proof.
  unfold BatchValidator.validate_step, passes_validation.
  destruct (validate_file_returns W (BatchValidator.file_validator self) p)
    as (b & msg & E).
  rewrite E. destruct b; simpl; [now rewrite app_nil_r|reflexivity].
Qed.

Lemma validate_step_errors (acc : BatchValidator.Report) (p : string) :
  length (BatchValidator.errors (step acc p))
  = (length (BatchValidator.errors acc) + (if passes p then 0 else 1))%nat.
Proof.
  unfold BatchValidator.validate_step, passes_validation.
  destruct (validate_file_returns W (BatchValidator.file_validator self) p)
    as (b & msg & E).
  rewrite E. destruct b; simpl; [lia|].
  unfold py.append. rewrite length_app. reflexivity.
Qed.

Lemma validate_step_validated (acc : BatchValidator.Report) (p : string) :
  BatchValidator.validated (step acc p)
  = (BatchValidator.validated acc ++ [p])%list.
Proof.
  unfold BatchValidator.validate_step.
  destruct (FileValidator.validate_file W (BatchValidator.file_validator self) p)
    as [[[] msg]|e]; reflexivity.
Qed.

Lemma validate_loop (l : list string) (acc : BatchValidator.Report) :
  let r := fold_left step l acc in
  BatchValidator.valid r = (BatchValidator.valid acc ++ filter passes l)%list
  /\ BatchValidator.invalid r
     = (BatchValidator.invalid acc
        ++ filter (fun p => negb (passes p)) l)%list
  /\ length (BatchValidator.errors r)
     = (length (BatchValidator.errors acc)
        + length (filter (fun p => negb (passes p)) l))%nat
  /\ BatchValidator.validated r = (BatchValidator.validated acc ++ l)%list.
Proof.
  revert acc. induction l as [|p l IH]; intro acc; simpl.
  - rewrite !app_nil_r. repeat split. lia.
  - destruct (IH (step acc p)) as (Hv & Hi & He & Hd).
    rewrite Hv, Hi, He, Hd.
    rewrite validate_step_valid, validate_step_invalid, validate_step_errors,
      validate_step_validated.
    destruct (passes p); simpl; rewrite <- ?app_assoc, ?app_nil_r;
      repeat split; simpl; lia.
Qed.

End BatchLoop.

Lemma filter_partition_perm {A : Type} (p : A -> bool) (l : list A) :
  Permutation (filter p l ++ filter (fun x => negb (p x)) l) l.
Proof.
  induction l as [|a l IH]; simpl; [constructor|].
  destruct (p a); simpl.
  - now constructor.
  - symmetry. apply Permutation_cons_app. now symmetry.
Qed.

(** C10.  [validate_batch] refuses a batch of more than 100 paths whole:
    it hands no path to the file validator, [valid] is empty, [invalid] is
    the input list and [errors] holds one message.  For a batch of at most
    100 paths it validates every path once, in order, and puts each path
    in exactly one of [valid] and [invalid], with one error message per
    invalid path. *)
Theorem validate_batch_limit (W : World) (file_paths : list string) :
  let r := BatchValidator.validate_batch W (BatchValidator.init W) file_paths in
  ((length file_paths > 100)%nat ->
   BatchValidator.validated r = []
   /\ BatchValidator.valid r = []
   /\ BatchValidator.invalid r = file_paths
   /\ length (BatchValidator.errors r) = 1%nat)
  /\ ((length file_paths <= 100)%nat ->
      BatchValidator.validated r = file_paths
      /\ Permutation (BatchValidator.valid r ++ BatchValidator.invalid r)
                     file_paths
      /\ (forall p, In p file_paths ->
                    (In p (BatchValidator.valid r)
                     /\ ~ In p (BatchValidator.invalid r))
                    \/ (~ In p (BatchValidator.valid r)
                        /\ In p (BatchValidator.invalid r)))
      /\ length (BatchValidator.errors r)
         = length (BatchValidator.invalid r)).
Proof.
  unfold BatchValidator.validate_batch. simpl BatchValidator.max_files_per_batch.
  split; intro H.
  - destruct (Z.gtb_spec (Z.of_nat (length file_paths)) 100); [|lia].
    simpl. auto.
  - destruct (Z.gtb_spec (Z.of_nat (length file_paths)) 100); [lia|].
    destruct (validate_loop W (BatchValidator.init W) file_paths
                BatchValidator.empty) as (Hv & Hi & He & Hd).
    simpl in Hv, Hi, He, Hd. rewrite Hv, Hi, He, Hd.
    split; [reflexivity|]. split; [apply filter_partition_perm|].
    split; [|reflexivity].
    intros p Hp. rewrite !filter_In.
    destruct (passes_validation W (FileValidator.init W) p);
      simpl; [left|right]; split;
      solve [auto | intros [_ Hn]; discriminate Hn].
Qed.

Lemma validate_batch_limit_witness :
  (length (List.repeat "a.docx" 101) > 100)%nat
  /\ BatchValidator.valid
       (BatchValidator.validate_batch office.world
          (BatchValidator.init office.world) (List.repeat "a.docx" 101)) = []
  /\ BatchValidator.invalid
       (BatchValidator.validate_batch office.world
          (BatchValidator.init office.world) (List.repeat "a.docx" 101))
     = List.repeat "a.docx" 101
  /\ (length ["a.docx"; "missing.docx"] <= 100)%nat
  /\ Permutation
       (BatchValidator.valid
          (BatchValidator.validate_batch office.world
             (BatchValidator.init office.world) ["a.docx"; "missing.docx"])
        ++ BatchValidator.invalid
             (BatchValidator.validate_batch office.world
                (BatchValidator.init office.world) ["a.docx"; "missing.docx"]))
       ["a.docx"; "missing.docx"].
Proof.
  assert (length (List.repeat "a.docx" 101) > 100)%nat as H1
      by (rewrite repeat_length; lia).
  assert (length ["a.docx"; "missing.docx"] <= 100)%nat as H2 by (simpl; lia).
  destruct (validate_batch_limit office.world (List.repeat "a.docx" 101))
    as [Hbig _].
  destruct (validate_batch_limit office.world ["a.docx"; "missing.docx"])
    as [_ Hsmall].
  destruct (Hbig H1) as (_ & Hv & Hi & _).
  destruct (Hsmall H2) as (_ & Hp & _).
  repeat split; assumption.
Defined.

(* ================================================================= *)
(** * Further properties of the batch processor *)


Lemma failures_reported (W : World) (k : Pool) (fs done : list Future) :
  Forall2 (fun fu p => reported_as W k fs fu (fst p) (snd p))
          (filter (fun fu => negb (future_succeeds W k fs fu)) done)
          (combine (flat_map (failure_entries W k fs) done)
                   (flat_map (error_lines W k fs) done))
  /\ length (flat_map (failure_entries W k fs) done)
     = length (flat_map (error_lines W k fs) done).
Proof.
  induction done as [|fu done [IH1 IH2]]; simpl; [split; constructor|].
  unfold future_succeeds, failure_entries, error_lines, reported_as in *.
  destruct (future_result W k fs fu) as [[[[] o] msg]|e] eqn:E; simpl.
  - split; assumption.
  - split; [|now rewrite IH2]. constructor; [|exact IH1].
    simpl. split; [reflexivity|]. left. exists o, msg. auto.
  - split; [|now rewrite IH2]. constructor; [|exact IH1].
    simpl. split; [reflexivity|]. right. exists e. auto.
Qed.

(** X1.  In the result of a call of [process_files] that gets through the
    pool, [failed] and [errors] go in step with the futures that did not
    come back as a success, in the order of completion: the i-th entry of
    [failed] and the i-th line of [errors] are those of the i-th such
    future.  For a task that returned a failure the entry holds its message
    and the line is the input path, a colon and the message; for a future
    that raised the entry holds the text of the exception and the line is
    the input path, a colon, [Error inesperado - ] and that text.  When the
    call does not get through the pool (no valid file, no output directory
    or pool, or a [submit] that raises), [failed] is empty and [errors]
    holds the one message of the error result. *)
Theorem process_files_errors_follow_failed
        (W : World) (k : Pool) (t0 t1 : Q) (l : list string) (out : string)
        (m : Machine) :
  fair k ->
  exists r m',
    process_files W k t0 t1 l out m = (Ok r, m')
    /\ (completes W k m l out = true ->
        length (Results.failed r) = length (Results.errors r)
        /\ Forall2 (fun fu p =>
                      reported_as W k (batch_futures W m l out) fu
                                  (fst p) (snd p))
                   (failing W k m l out)
                   (combine (Results.failed r) (Results.errors r)))
    /\ (completes W k m l out = false ->
        Results.failed r = [] /\ length (Results.errors r) = 1%nat).
Proof.
  intro Hk.
  destruct (process_files_summary W k t0 t1 l out m Hk) as
      (r & m' & E & _ & Ef & Ee & _).
  exists r, m'. split; [exact E|]. split.
  - intro Hc. rewrite Hc in Ef, Ee. rewrite Ef, Ee.
    destruct (failures_reported W k (batch_futures W m l out)
                (collected W k m l out)) as [H1 H2].
    split; [exact H2|exact H1].
  - intro Hc. rewrite Hc in Ef, Ee. auto.
Qed.

Lemma process_files_errors_follow_failed_witness :
  fair office.one_worker
  /\ exists r m',
      process_files office.world office.one_worker 10 12
        ["broken.docx"; "crash.docx"] "out" (office.start (Some 1)) = (Ok r, m')
      /\ Results.failed r
         = [Failure.mk "broken.docx"
              (Some "Error de conversión: No se pudo cargar el documento: File is not a zip file (Archivo: broken.docx) (Archivo: broken.docx)");
            Failure.mk "crash.docx"
              (Some "A process in the process pool was terminated abruptly while the future was running or pending.")]
      /\ Results.errors r
         = ["broken.docx: Error de conversión: No se pudo cargar el documento: File is not a zip file (Archivo: broken.docx) (Archivo: broken.docx)";
            "crash.docx: Error inesperado - A process in the process pool was terminated abruptly while the future was running or pending."]
      /\ Forall2 (fun fu p =>
                    reported_as office.world office.one_worker
                      (batch_futures office.world (office.start (Some 1))
                         ["broken.docx"; "crash.docx"] "out")
                      fu (fst p) (snd p))
                 (failing office.world office.one_worker
                    (office.start (Some 1)) ["broken.docx"; "crash.docx"] "out")
                 (combine (Results.failed r) (Results.errors r)).
Proof.
  split; [exact fair_one_worker|].
  destruct (process_files_errors_follow_failed office.world office.one_worker
              10 12 ["broken.docx"; "crash.docx"] "out" (office.start (Some 1))
              fair_one_worker)
    as (r & m' & E & H & _).
  exists r, m'. split; [exact E|].
  destruct (H eq_refl) as [_ H2].
  vm_compute in E. injection E as <- _.
  split; [reflexivity|]. split; [reflexivity|]. exact H2.
Defined.

(** X2.  Each call adds to the processor's two counters what it recorded
    and never resets them: after the call, [successful_conversions] and
    [failed_conversions] of [self.stats] have grown by the lengths of
    [successful] and [failed].  When the call gets through the pool they
    have grown together by the number of input files that passed
    validation, the returned statistics carry the same totals and
    [processed_files] is that number; when it does not (no valid file, no
    output directory or pool, or a [submit] that raises) the counters and
    [processed_files] are what they were. *)
Theorem process_files_counters_accumulate
        (W : World) (k : Pool) (t0 t1 : Q) (l : list string) (out : string)
        (m : Machine) :
  fair k ->
  exists r m',
    process_files W k t0 t1 l out m = (Ok r, m')
    /\ Stats.successful_conversions (stats (self m'))
       = Stats.successful_conversions (stats (self m))
         + Z.of_nat (length (Results.successful r))
    /\ Stats.failed_conversions (stats (self m'))
       = Stats.failed_conversions (stats (self m))
         + Z.of_nat (length (Results.failed r))
    /\ (completes W k m l out = true ->
        Z.of_nat (length (Results.successful r))
        + Z.of_nat (length (Results.failed r))
        = Z.of_nat (length (valid_files_of W m l))
        /\ FinalStats.successful_conversions (Results.stats r)
           = Stats.successful_conversions (stats (self m'))
        /\ FinalStats.failed_conversions (Results.stats r)
           = Stats.failed_conversions (stats (self m'))
        /\ Stats.processed_files (stats (self m'))
           = Z.of_nat (length (valid_files_of W m l)))
    /\ (completes W k m l out = false ->
        Stats.successful_conversions (stats (self m'))
        = Stats.successful_conversions (stats (self m))
        /\ Stats.failed_conversions (stats (self m'))
           = Stats.failed_conversions (stats (self m))
        /\ Stats.processed_files (stats (self m'))
           = Stats.processed_files (stats (self m))).
Proof.
  intro Hk.
  destruct (process_files_summary W k t0 t1 l out m Hk) as
      (r & m' & E & Es & Ef & _ & _ & _ & Sc & Fc & _ & _ & _ & _ & Pr & Sc' & Fc').
  exists r, m'. split; [exact E|]. split; [exact Sc'|]. split; [exact Fc'|].
  split.
  - intro Hc. rewrite Hc in *. split.
    + rewrite Es, Ef, <- Nat2Z.inj_add, length_entries. f_equal.
      now apply collected_length.
    + rewrite Sc, Fc, Sc', Fc'. auto.
  - intro Hc. rewrite Hc in *. rewrite Sc', Fc', Es, Ef. simpl.
    rewrite !Z.add_0_r. auto.
Qed.

Lemma process_files_counters_accumulate_witness :
  fair office.reversed
  /\ exists r m',
      process_files office.world office.reversed 10 12
        ["a.docx"; "broken.docx"; "missing.docx"] "out" (office.start (Some 2))
      = (Ok r, m')
      /\ Stats.successful_conversions (stats (self m')) = 1
      /\ Stats.failed_conversions (stats (self m')) = 1.
Proof.
  split; [exact fair_reversed|].
  destruct (process_files_counters_accumulate office.world office.reversed
              10 12 ["a.docx"; "broken.docx"; "missing.docx"] "out"
              (office.start (Some 2)) fair_reversed)
    as (r & m' & E & Sc & Fc & _).
  exists r, m'. split; [exact E|]. rewrite Sc, Fc.
  vm_compute in E. injection E as <- _. split; reflexivity.
Defined.

(** X3.  After [reset_stats], and so on a processor just constructed, a
    call keeps the books straight in the processor itself: when it returns,
    [self.stats] has [successful_conversions] equal to the length of
    [successful], [failed_conversions] equal to the length of [failed], and
    their sum equal to [processed_files]. *)
Theorem process_files_after_reset
        (W : World) (k : Pool) (t0 t1 : Q) (l : list string) (out : string)
        (m : Machine) :
  fair k ->
  exists r m',
    process_files W k t0 t1 l out
      (mkMachine (reset_stats (self m)) (trace m)) = (Ok r, m')
    /\ Stats.successful_conversions (stats (self m'))
       = Z.of_nat (length (Results.successful r))
    /\ Stats.failed_conversions (stats (self m'))
       = Z.of_nat (length (Results.failed r))
    /\ Stats.successful_conversions (stats (self m'))
       + Stats.failed_conversions (stats (self m'))
       = Stats.processed_files (stats (self m'))
    /\ Stats.total_files (stats (self m')) = Z.of_nat (length l).
Proof.
  intro Hk.
  set (m0 := mkMachine (reset_stats (self m)) (trace m)).
  destruct (process_files_summary W k t0 t1 l out m0 Hk) as
      (r & m' & E & Es & Ef & _ & _ & _ & _ & _ & _ & _ & _ & T & Pr & Sc' & Fc').
  exists r, m'. split; [exact E|].
  simpl in Sc', Fc', Pr. rewrite Sc', Fc', Pr, T.
  split; [reflexivity|]. split; [reflexivity|]. split; [|reflexivity].
  rewrite Es, Ef.
  destruct (completes W k m0 l out); [|reflexivity].
  rewrite <- Nat2Z.inj_add, length_entries. f_equal.
  now apply collected_length.
Qed.

Lemma process_files_after_reset_witness :
  fair office.in_order
  /\ exists m1 r m',
      snd (process_files office.world office.in_order 10 12
             ["a.docx"; "broken.docx"] "out" (office.start (Some 2))) = m1
      /\ process_files office.world office.in_order 20 22 ["x/b.docx"] "out"
           (mkMachine (reset_stats (self m1)) (trace m1)) = (Ok r, m')
      /\ Stats.successful_conversions (stats (self m')) = 1
      /\ Stats.failed_conversions (stats (self m')) = 0
      /\ Stats.processed_files (stats (self m')) = 1.
Proof.
  pose proof fair_in_order as Hk.
  split; [exact Hk|]. eexists.
  destruct (process_files_after_reset office.world office.in_order 20 22
              ["x/b.docx"] "out"
              (snd (process_files office.world office.in_order 10 12
                      ["a.docx"; "broken.docx"] "out" (office.start (Some 2))))
              Hk)
    as (r & m' & E & Sc & Fc & Sum & _).
  exists r, m'. split; [reflexivity|]. split; [exact E|].
  rewrite <- Sum, Sc, Fc.
  vm_compute in E. injection E as <- _. repeat split.
Defined.

(* ================================================================= *)
(** * Rates *)

(** A part of a whole, as a percentage. *)
Lemma percentage_bounds (part whole : Z) :
  0 <= part <= whole -> 0 < whole ->
  (0 <= inject_Z part / inject_Z whole * inject_Z 100)%Q
  /\ (inject_Z part / inject_Z whole * inject_Z 100 <= 100)%Q.
Proof.
  intros Hp Hw. destruct whole as [|w|w]; try lia.
  unfold Qle, Qdiv, Qmult, Qinv, inject_Z. simpl. split; nia.
Qed.

(** X4.  The success rate of [_calculate_final_stats] is
    [successful_conversions / processed_files * 100] when
    [processed_files] is positive, and then lies between 0 and 100 when
    the successes are between 0 and the files processed; it is 0 when
    [processed_files] is 0 or less, and so are the average time and, up
    to the sign of zero, the throughput, whatever the other counters and
    the clock say.  With a clock reading missing the total time and the
    throughput are 0; the rate does not depend on the clock.  The total
    time is not negative when the clock readings are in order. *)
Theorem final_stats_bounds (s : Stats.t) :
  (0 < Stats.processed_files s ->
   FinalStats.success_rate (_calculate_final_stats s)
   = (inject_Z (Stats.successful_conversions s)
      / inject_Z (Stats.processed_files s) * inject_Z 100)%Q
   /\ (0 <= Stats.successful_conversions s <= Stats.processed_files s ->
       (0 <= FinalStats.success_rate (_calculate_final_stats s))%Q
       /\ (FinalStats.success_rate (_calculate_final_stats s) <= 100)%Q))
  /\ (Stats.processed_files s <= 0 ->
      FinalStats.success_rate (_calculate_final_stats s) = 0%Q
      /\ FinalStats.average_time_per_file (_calculate_final_stats s) = 0%Q)
  /\ (Stats.processed_files s = 0 ->
      (FinalStats.files_per_minute (_calculate_final_stats s) == 0)%Q)
  /\ (Stats.start_time s = None \/ Stats.end_time s = None ->
      FinalStats.total_time (_calculate_final_stats s) = 0%Q
      /\ FinalStats.files_per_minute (_calculate_final_stats s) = 0%Q)
  /\ (forall s', Stats.processed_files s' = Stats.processed_files s ->
                 Stats.successful_conversions s'
                 = Stats.successful_conversions s ->
                 FinalStats.success_rate (_calculate_final_stats s')
                 = FinalStats.success_rate (_calculate_final_stats s))
  /\ (forall a b, Stats.start_time s = Some a -> Stats.end_time s = Some b ->
                  (a <= b)%Q ->
                  (0 <= FinalStats.total_time (_calculate_final_stats s))%Q).
Proof.
  unfold _calculate_final_stats. simpl.
  split; [|split; [|split; [|split; [|split]]]].
  - intro Hp. destruct (Z.gtb_spec (Stats.processed_files s) 0); [|lia].
    split; [reflexivity|]. intro Hb. apply percentage_bounds; lia.
  - intro Hp. destruct (Z.gtb_spec (Stats.processed_files s) 0); [lia|].
    split; reflexivity.
  - intro E. rewrite E.
    match goal with
    | |- ((if ?c then _ else _) == 0)%Q => destruct c; [|reflexivity]
    end.
    unfold Qeq, Qdiv, Qmult, inject_Z. simpl. reflexivity.
  - intros [E|E]; rewrite E; [|destruct (Stats.start_time s)]; simpl; auto.
  - intros s' Ep Es. now rewrite Ep, Es.
  - intros a b Ea Eb Hab. rewrite Ea, Eb.
    unfold Qminus. rewrite <- (Qplus_opp_r a).
    apply Qplus_le_compat; [exact Hab|apply Qle_refl].
Qed.

(** The state in which [_process_parallel] calls the function on a
    processor just constructed, after three successes and one failure:
    [processed_files] is still 0 and no end time is set. *)
Example final_stats_of_a_first_call :
  FinalStats.success_rate
    (_calculate_final_stats (Stats.mk 4 0 3 1 (Some 10%Q) None)) = 0%Q
  /\ FinalStats.total_time
       (_calculate_final_stats (Stats.mk 4 0 3 1 (Some 10%Q) None)) = 0%Q.
Proof. split; reflexivity. Qed.

Lemma final_stats_bounds_witness :
  0 < 4 /\ 0 <= 3 <= 4
  /\ (FinalStats.success_rate
        (_calculate_final_stats (Stats.mk 4 4 3 1 None None))
      == 75)%Q
  /\ (FinalStats.success_rate
        (_calculate_final_stats (Stats.mk 4 4 3 1 None None))
      <= 100)%Q.
Proof.
  assert (0 < 4) as H0 by lia.
  assert (0 <= 3 <= 4) as H by lia.
  split; [exact H0|]. split; [exact H|]. split; [reflexivity|].
  exact (proj2 (proj2 (proj1 (final_stats_bounds
                                (Stats.mk 4 4 3 1 None None)) H0) H)).
Defined.

(* ================================================================= *)
(** * Further properties of the validators *)

Lemma filter_all {A : Type} (p : A -> bool) (l : list A) :
  (forall x, In x l -> p x = true) -> filter p l = l.
Proof.
  induction l as [|a l IH]; intro H; simpl; [reflexivity|].
  rewrite (H a) by now left. f_equal. apply IH. intros x Hx. apply H. now right.
Qed.

Lemma filter_filter_same {A : Type} (p : A -> bool) (l : list A) :
  filter p (filter p l) = filter p l.
Proof.
  apply filter_all. intros x Hx. now apply filter_In in Hx.
Qed.

Lemma validate_batch_valid (W : World) (self : BatchValidator.t)
      (file_paths : list string) :
  BatchValidator.valid (BatchValidator.validate_batch W self file_paths)
  = if Z.of_nat (length file_paths) >? BatchValidator.max_files_per_batch self
    then []
    else filter (passes_validation W (BatchValidator.file_validator self))
                file_paths.
Proof.
  unfold BatchValidator.validate_batch.
  destruct (Z.of_nat (length file_paths)
            >? BatchValidator.max_files_per_batch self); [reflexivity|].
  now destruct (validate_loop W self file_paths BatchValidator.empty)
    as (Hv & _).
Qed.

(** X5.  The files that [validate_batch] reports as valid are the input
    files that pass validation, in input order, and [process_files] on a
    processor with the same validator drops none of them: all of them pass
    its own validation again, [total_files] is their number, and when the
    output directory and the pool can be created and every [submit]
    returns, each of them is named in [successful] or [failed]. *)
Theorem validated_batch_is_processed_whole
        (W : World) (k : Pool) (t0 t1 : Q) (file_paths : list string)
        (out : string) (m : Machine) (b : BatchValidator.t) :
  fair k ->
  file_validator (self m) = BatchValidator.file_validator b ->
  let valid :=
    BatchValidator.valid (BatchValidator.validate_batch W b file_paths) in
  valid_files_of W m valid = valid
  /\ exists r m',
      process_files W k t0 t1 valid out m = (Ok r, m')
      /\ FinalStats.total_files (Results.stats r) = Z.of_nat (length valid)
      /\ (pool_starts W (self m) out = true ->
          submits_all k out valid = true ->
          Permutation (successful_inputs r ++ failed_inputs r) valid).
Proof.
  intros Hk Hv valid.
  assert (valid_files_of W m valid = valid) as Hsame.
  { unfold valid, valid_files_of. rewrite validate_batch_valid, Hv.
    destruct (Z.of_nat (length file_paths)
              >? BatchValidator.max_files_per_batch b); [reflexivity|].
    apply filter_filter_same. }
  split; [exact Hsame|]. clearbody valid.
  destruct (process_files_summary W k t0 t1 valid out m Hk) as
      (r & m' & E & Es & Ef & _ & T & _).
  exists r, m'. split; [exact E|]. split; [exact T|].
  intros Hs Ha.
  destruct (completes W k m valid out) eqn:Hc.
  - pose proof (completed_lists_cover W k m valid out r Hk Es Ef) as P.
    now rewrite Hsame in P.
  - assert (valid = []) as ->.
    { destruct valid as [|v vs]; [reflexivity|]. exfalso.
      assert (completes W k m (v :: vs) out = true) as Hc'.
      { apply completes_iff. rewrite Hsame. repeat split; try assumption.
        discriminate. }
      congruence. }
    unfold successful_inputs, failed_inputs. rewrite Es, Ef. constructor.
Qed.

Lemma validated_batch_is_processed_whole_witness :
  fair office.in_order
  /\ file_validator (self (office.start (Some 2)))
     = BatchValidator.file_validator (BatchValidator.init office.world)
  /\ BatchValidator.valid
       (BatchValidator.validate_batch office.world
          (BatchValidator.init office.world)
          ["a.docx"; "missing.docx"; "broken.docx"])
     = ["a.docx"; "broken.docx"]
  /\ exists r m',
      process_files office.world office.in_order 10 12
        (BatchValidator.valid
           (BatchValidator.validate_batch office.world
              (BatchValidator.init office.world)
              ["a.docx"; "missing.docx"; "broken.docx"]))
        "out" (office.start (Some 2)) = (Ok r, m')
      /\ FinalStats.total_files (Results.stats r) = 2
      /\ Permutation (successful_inputs r ++ failed_inputs r)
                     ["a.docx"; "broken.docx"].
Proof.
  split; [exact fair_in_order|]. split; [reflexivity|]. split; [reflexivity|].
  destruct (validated_batch_is_processed_whole office.world office.in_order
              10 12 ["a.docx"; "missing.docx"; "broken.docx"] "out"
              (office.start (Some 2)) (BatchValidator.init office.world)
              fair_in_order eq_refl)
    as (_ & r & m' & E & T & P).
  exists r, m'. split; [exact E|]. split; [exact T|].
  exact (P eq_refl eq_refl).
Defined.

(** X6.  The statistics of a validated batch add up: [total_files] is the
    number of paths given to [validate_batch], [valid_files] and
    [invalid_files] sum to it, and the success rate lies between 0 and 100.
    Within the batch limit there is one error per invalid file; over the
    limit there is a single error, no valid file and a rate of 0. *)
Theorem batch_statistics_add_up
        (W : World) (self : BatchValidator.t) (file_paths : list string) :
  let st :=
    batch_validator.get_batch_statistics
      (batch_validator.outcome_of
         (BatchValidator.validate_batch W self file_paths)) in
  batch_validator.total_files st = Z.of_nat (length file_paths)
  /\ batch_validator.valid_files st + batch_validator.invalid_files st
     = batch_validator.total_files st
  /\ (0 <= batch_validator.success_rate st)%Q
  /\ (batch_validator.success_rate st <= 100)%Q
  /\ (Z.of_nat (length file_paths) <= BatchValidator.max_files_per_batch self ->
      batch_validator.error_count st = batch_validator.invalid_files st)
  /\ (Z.of_nat (length file_paths) > BatchValidator.max_files_per_batch self ->
      batch_validator.valid_files st = 0
      /\ batch_validator.error_count st = 1
      /\ (batch_validator.success_rate st == 0)%Q).
Proof.
  cbv zeta.
  assert (length (BatchValidator.valid
                    (BatchValidator.validate_batch W self file_paths))
          + length (BatchValidator.invalid
                      (BatchValidator.validate_batch W self file_paths))
          = length file_paths)%nat as Hlen.
  { unfold BatchValidator.validate_batch.
    destruct (Z.of_nat (length file_paths)
              >? BatchValidator.max_files_per_batch self); [reflexivity|].
    destruct (validate_loop W self file_paths BatchValidator.empty)
      as (Hv & Hi & _).
    rewrite Hv, Hi. simpl. rewrite <- length_app.
    apply Permutation_length, filter_partition_perm. }
  unfold batch_validator.get_batch_statistics, batch_validator.outcome_of.
  simpl.
  set (r := BatchValidator.validate_batch W self file_paths) in *.
  split; [lia|]. split; [reflexivity|].
  assert ((0 <= (if Z.of_nat (length (BatchValidator.valid r))
                       + Z.of_nat (length (BatchValidator.invalid r)) >? 0
                 then inject_Z (Z.of_nat (length (BatchValidator.valid r)))
                      / inject_Z (Z.of_nat (length (BatchValidator.valid r))
                                  + Z.of_nat (length (BatchValidator.invalid r)))
                      * inject_Z 100
                 else 0))%Q
          /\ ((if Z.of_nat (length (BatchValidator.valid r))
                    + Z.of_nat (length (BatchValidator.invalid r)) >? 0
               then inject_Z (Z.of_nat (length (BatchValidator.valid r)))
                    / inject_Z (Z.of_nat (length (BatchValidator.valid r))
                                + Z.of_nat (length (BatchValidator.invalid r)))
                    * inject_Z 100
               else 0) <= 100)%Q) as Hrate.
  { destruct (Z.gtb_spec (Z.of_nat (length (BatchValidator.valid r))
                          + Z.of_nat (length (BatchValidator.invalid r))) 0).
    - apply percentage_bounds; lia.
    - split; [apply Qle_refl|discriminate]. }
  split; [exact (proj1 Hrate)|]. split; [exact (proj2 Hrate)|].
  unfold r, BatchValidator.validate_batch.
  split; intro H.
  - destruct (Z.gtb_spec (Z.of_nat (length file_paths))
                         (BatchValidator.max_files_per_batch self)); [lia|].
    destruct (validate_loop W self file_paths BatchValidator.empty)
      as (_ & Hi & He & _).
    rewrite Hi, He. reflexivity.
  - destruct (Z.gtb_spec (Z.of_nat (length file_paths))
                         (BatchValidator.max_files_per_batch self)); [|lia].
    simpl. split; [reflexivity|]. split; [reflexivity|].
    match goal with
    | |- ((if ?c then _ else _) == 0)%Q => destruct c; [|reflexivity]
    end.
    unfold Qeq, Qdiv, Qmult. simpl. reflexivity.
Qed.

Lemma batch_statistics_add_up_witness :
  Z.of_nat (length ["a.docx"; "b.docx"; "c.docx"; "missing.docx"])
  <= BatchValidator.max_files_per_batch (BatchValidator.init office.world)
  /\ (batch_validator.success_rate
        (batch_validator.get_batch_statistics
           (batch_validator.outcome_of
              (BatchValidator.validate_batch office.world
                 (BatchValidator.init office.world)
                 ["a.docx"; "b.docx"; "c.docx"; "missing.docx"]))) == 75)%Q
  /\ batch_validator.error_count
       (batch_validator.get_batch_statistics
          (batch_validator.outcome_of
             (BatchValidator.validate_batch office.world
                (BatchValidator.init office.world)
                ["a.docx"; "b.docx"; "c.docx"; "missing.docx"])))
     = batch_validator.invalid_files
         (batch_validator.get_batch_statistics
            (batch_validator.outcome_of
               (BatchValidator.validate_batch office.world
                  (BatchValidator.init office.world)
                  ["a.docx"; "b.docx"; "c.docx"; "missing.docx"]))).
Proof.
  assert (Z.of_nat (length ["a.docx"; "b.docx"; "c.docx"; "missing.docx"])
          <= BatchValidator.max_files_per_batch
               (BatchValidator.init office.world)) as H by (simpl; lia).
  split; [exact H|]. split; [reflexivity|].
  destruct (batch_statistics_add_up office.world
              (BatchValidator.init office.world)
              ["a.docx"; "b.docx"; "c.docx"; "missing.docx"])
    as (_ & _ & _ & _ & He & _).
  exact (He H).
Defined.

(** X7.  [validate_file] answers [(True, None)] or [(False, message)] and
    never raises.  It answers [True] exactly when the file exists, is
    readable, has a supported extension, has a size that can be read and is
    at most [max_file_size], and passes the check of its magic number; an
    exception in any of the first four checks makes the file invalid. *)
Theorem validate_file_verdict (W : World) (v : FileValidator.t) (p : string) :
  (FileValidator.validate_file W v p = Ok (true, None)
   \/ exists msg, FileValidator.validate_file W v p = Ok (false, Some msg))
  /\ (passes_validation W v p = true
      <-> Path_exists W p = Ok true
          /\ os_access_R_OK W p = Ok true
          /\ FileValidator._has_valid_extension W p = true
          /\ (exists n, os_path_getsize W p = Ok n
                        /\ n <= FileValidator.max_file_size v)
          /\ FileValidator._is_valid_file W p = true).
Proof.
  unfold passes_validation, FileValidator.validate_file, try_except, rbind,
    FileValidator._file_exists, FileValidator._is_readable,
    FileValidator._has_valid_size, FileValidator._get_file_size_mb.
  destruct (Path_exists W p) as [[]|e1]; simpl;
    [| |]; try (split; [eauto|split; [discriminate|intros (H & _); discriminate]]).
  destruct (os_access_R_OK W p) as [[]|e2]; simpl;
    try (split; [eauto|split; [discriminate|intros (_ & H & _); discriminate]]).
  destruct (FileValidator._has_valid_extension W p); simpl;
    try (split; [eauto|split; [discriminate|intros (_ & _ & H & _); discriminate]]).
  destruct (os_path_getsize W p) as [n|e3]; simpl.
  - destruct (Z.leb_spec n (FileValidator.max_file_size v)); simpl.
    + destruct (FileValidator._is_valid_file W p); simpl.
      * split; [auto|]. split; [|reflexivity]. intros _. repeat split.
        exists n. auto.
      * split; [eauto|].
        split; [discriminate|intros (_ & _ & _ & _ & Hm); discriminate].
    + split; [eauto|]. split; [discriminate|].
      intros (_ & _ & _ & (n' & E & Hn) & _). injection E as <-. lia.
  - destruct (is_OSError e3); simpl.
    + destruct (os_path_getsize W p) eqn:E; simpl;
        (split; [eauto|]; split; [discriminate|];
         intros (_ & _ & _ & (n' & E' & _) & _); discriminate).
    + split; [eauto|]. split; [discriminate|].
      intros (_ & _ & _ & (n' & E' & _) & _); discriminate.
Qed.

Lemma passes_has_valid_extension (W : World) (v : FileValidator.t) (p : string) :
  passes_validation W v p = true ->
  FileValidator._has_valid_extension W p = true.
Proof.
  unfold passes_validation, FileValidator.validate_file, try_except, rbind.
  destruct (FileValidator._file_exists W p) as [[]|e1]; simpl;
    try discriminate.
  destruct (FileValidator._is_readable W p) as [[]|e2]; simpl;
    try discriminate.
  destruct (FileValidator._has_valid_extension W p); simpl;
    [reflexivity|discriminate].
Qed.

Lemma lower_ascii_idem (c : ascii) :
  py.lower_ascii (py.lower_ascii c) = py.lower_ascii c.
Proof.
  destruct c as [[] [] [] [] [] [] [] []]; reflexivity.
Qed.

Lemma lower_idem (s : string) : py.lower (py.lower s) = py.lower s.
Proof.
  induction s as [|c s IH]; simpl; [reflexivity|].
  now rewrite lower_ascii_idem, IH.
Qed.

(** X8.  [Config.is_supported_extension] does not look at the case of
    the extension.  With the extensions of [Config.__init__] it accepts
    exactly the extensions that are [.doc] or [.docx] once lower-cased. *)
Theorem supported_extension_ignores_case (c : settings.Config) (extension : string) :
  settings.is_supported_extension c (py.lower extension)
  = settings.is_supported_extension c extension
  /\ (settings.is_supported_extension settings.default extension = true
      <-> py.lower extension = ".doc" \/ py.lower extension = ".docx")
  /\ settings.is_supported_extension settings.default ".DocX" = true
  /\ settings.is_supported_extension settings.default ".pdf" = false.
Proof.
  split.
  - unfold settings.is_supported_extension. now rewrite lower_idem.
  - split; [|split; reflexivity].
    unfold settings.is_supported_extension, py.str_in. simpl.
    rewrite !orb_true_iff, !String.eqb_eq. intuition discriminate.
Qed.

(* ================================================================= *)
(** * The counters of the converter *)



(* ================================================================= *)
(** * Sizes: [filter_by_size] and [sort_by_size] *)

Lemma filter_loop_spec (D : Disk) (limit : Q) (l acc : list string) :
  (forall p, In p l -> stat_is_tame D p) ->
  batch_validator.filter_loop D limit l acc
  = Ok (acc ++ filter (fun p =>
                         match Path_stat_st_size D (pathlib.parse p) with
                         | Ok n => Qle_bool (inject_Z n) limit
                         | Raise _ => false
                         end) l)%list.
Proof.
  revert acc. induction l as [|p l IH]; intros acc H; simpl.
  - now rewrite app_nil_r.
  - unfold batch_validator.filter_step.
    assert (stat_is_tame D p) as Hp by (apply H; now left).
    assert (forall q, In q l -> stat_is_tame D q) as Hl
        by (intros q Hq; apply H; now right).
    destruct (Path_stat_st_size D (pathlib.parse p)) as [n|e] eqn:E.
    + destruct (Qle_bool (inject_Z n) limit); simpl; rewrite IH by exact Hl.
      * unfold py.append. now rewrite <- app_assoc.
      * reflexivity.
    + rewrite (Hp e E). simpl. now apply IH.
Qed.

Lemma Qle_bool_same (a b c : Q) : (b == c)%Q -> Qle_bool a b = Qle_bool a c.
Proof.
  intro E. apply eq_true_iff_eq. rewrite !Qle_bool_iff. now rewrite E.
Qed.

Lemma megabytes_and_back (limit : Z) :
  (inject_Z limit / inject_Z (1024 * 1024) * inject_Z 1024 * inject_Z 1024
   == inject_Z limit)%Q.
Proof. unfold Qeq, Qdiv, Qmult, Qinv, inject_Z. simpl. lia. Qed.

(** A non-[OSError] while a size is read leaves [filter_by_size]. *)
Lemma filter_loop_raises (D : Disk) (limit : Q) (l1 l2 acc : list string)
      (p : string) (e : exn) :
  (forall q, In q l1 -> stat_is_tame D q) ->
  Path_stat_st_size D (pathlib.parse p) = Raise e ->
  is_OSError e = false ->
  batch_validator.filter_loop D limit (l1 ++ p :: l2) acc = Raise e.
Proof.
  revert acc. induction l1 as [|q l1 IH]; intros acc H E Hn; simpl.
  - unfold batch_validator.filter_step. now rewrite E, Hn.
  - unfold batch_validator.filter_step.
    assert (stat_is_tame D q) as Hq by (apply H; now left).
    assert (forall r, In r l1 -> stat_is_tame D r) as Hl
        by (intros r Hr; apply H; now right).
    destruct (Path_stat_st_size D (pathlib.parse q)) as [n|e'] eqn:Eq.
    + destruct (Qle_bool (inject_Z n) limit); simpl; now apply IH.
    + rewrite (Hq e' Eq). simpl. now apply IH.
Qed.

(** X10.  [filter_by_size] keeps, in input order, exactly the files whose
    size can be read and is at most the limit in bytes, as long as reading
    a size raises nothing but [OSError]; a file whose size cannot be read
    is dropped.  The limit is [max_size_mb * 1024 * 1024] bytes for every
    [max_size_mb] given, whole or fractional, the [float]s taken as
    rationals; without one it is [config.max_file_size] bytes, the detour
    through megabytes changing nothing.  The first file whose size cannot
    be read for another exception ends the call with that exception. *)
Theorem filter_by_size_keeps_small_files
        (W : World) (D : Disk) (file_paths : list string) :
  ((forall p, In p file_paths -> stat_is_tame D p) ->
   batch_validator.filter_by_size W D file_paths None
   = Ok (filter (size_within D (inject_Z (settings.max_file_size (config W))))
                file_paths)
   /\ forall max_size_mb : Q,
       batch_validator.filter_by_size W D file_paths (Some max_size_mb)
       = Ok (filter (size_within D (max_size_mb * inject_Z 1024 * inject_Z 1024))
                    file_paths))
  /\ (forall (limit : Q) (p : string),
         size_within D limit p = true
         <-> exists n, Path_stat_st_size D (pathlib.parse p) = Ok n
                       /\ (inject_Z n <= limit)%Q)
  /\ (forall l1 p l2 e max_size_mb,
         file_paths = (l1 ++ p :: l2)%list ->
         (forall q, In q l1 -> stat_is_tame D q) ->
         Path_stat_st_size D (pathlib.parse p) = Raise e ->
         is_OSError e = false ->
         batch_validator.filter_by_size W D file_paths max_size_mb = Raise e).
Proof.
  split; [|split].
  - intro H. unfold batch_validator.filter_by_size. split.
    + rewrite (filter_loop_spec D _ file_paths [] H). simpl. f_equal.
      apply filter_ext. intro p. unfold size_within.
      destruct (Path_stat_st_size D (pathlib.parse p)); [|reflexivity].
      apply Qle_bool_same, megabytes_and_back.
    + intro mb. rewrite (filter_loop_spec D _ file_paths [] H). reflexivity.
  - intros limit p. unfold size_within.
    destruct (Path_stat_st_size D (pathlib.parse p)) as [n|e].
    + rewrite Qle_bool_iff. split; [eauto|].
      intros (n' & E & Hn). now injection E as <-.
    + split; [discriminate|]. intros (n' & E & _). discriminate E.
  - intros l1 p l2 e mb -> H E Hn. unfold batch_validator.filter_by_size.
    now apply filter_loop_raises.
Qed.

Lemma filter_by_size_keeps_small_files_witness :
  (forall p, In p ["big.docx"; "gone.docx"; "small.docx"] ->
             stat_is_tame shelf.disk p)
  /\ batch_validator.filter_by_size office.world shelf.disk
       ["big.docx"; "gone.docx"; "small.docx"] None
     = Ok ["big.docx"; "small.docx"]
  /\ batch_validator.filter_by_size office.world shelf.disk
       ["big.docx"; "gone.docx"; "small.docx"] (Some (2 # 10000))
     = Ok ["small.docx"].
Proof.
  assert (forall p, In p ["big.docx"; "gone.docx"; "small.docx"] ->
                    stat_is_tame shelf.disk p) as H.
  { intros p [<-|[<-|[<-|[]]]] e E; vm_compute in E; try discriminate.
    injection E as <-. reflexivity. }
  split; [exact H|].
  destruct (proj1 (filter_by_size_keeps_small_files office.world shelf.disk
                     ["big.docx"; "gone.docx"; "small.docx"]) H) as [E1 E2].
  rewrite E1, E2. split; reflexivity.
Defined.

(** ** The stable sort *)

Lemma decorate_spec (D : Disk) (l : list string) :
  (forall p, In p l -> stat_is_tame D p) ->
  batch_validator.decorate (batch_validator.get_file_size D) l
  = Ok (map (fun p => (size_or_zero D p, p)) l).
Proof.
  induction l as [|p l IH]; intro H; simpl; [reflexivity|].
  assert (batch_validator.get_file_size D p = Ok (size_or_zero D p)) as E.
  { unfold batch_validator.get_file_size, size_or_zero.
    destruct (Path_stat_st_size D (pathlib.parse p)) as [n|e] eqn:Es;
      [reflexivity|].
    now rewrite (H p (or_introl eq_refl) e Es). }
  rewrite E. simpl. rewrite IH by (intros q Hq; apply H; now right).
  reflexivity.
Qed.

Lemma sorted_insert_perm (reverse : bool) (x : Z * string) (l : list (Z * string)) :
  Permutation (batch_validator.sorted_insert reverse x l) (x :: l).
Proof.
  induction l as [|y l IH]; simpl; [reflexivity|].
  destruct (if reverse then fst y <=? fst x else fst x <=? fst y);
    [reflexivity|].
  rewrite IH. apply perm_swap.
Qed.

Lemma sorted_insert_sorted (reverse : bool) (x : Z * string)
      (l : list (Z * string)) :
  StronglySorted (fun a b => may_precede reverse (fst a) (fst b)) l ->
  StronglySorted (fun a b => may_precede reverse (fst a) (fst b))
                 (batch_validator.sorted_insert reverse x l).
Proof.
  induction 1 as [|y l Hs IH Hy]; simpl.
  - repeat constructor.
  - destruct (if reverse then fst y <=? fst x else fst x <=? fst y) eqn:E.
    + constructor; [now constructor|].
      assert (may_precede reverse (fst x) (fst y)) as Hxy
          by (unfold may_precede; destruct reverse; lia).
      constructor; [exact Hxy|].
      eapply Forall_impl; [|exact Hy]. intros z Hz.
      unfold may_precede in *. destruct reverse; lia.
    + constructor; [exact IH|].
      rewrite (sorted_insert_perm reverse x l).
      constructor; [|exact Hy].
      unfold may_precede. destruct reverse; lia.
Qed.

Lemma sorted_insert_stable (reverse : bool) (n : Z) (x : Z * string)
      (l : list (Z * string)) :
  filter (fun z => fst z =? n) (batch_validator.sorted_insert reverse x l)
  = filter (fun z => fst z =? n) (x :: l).
Proof.
  induction l as [|y l IH]; [reflexivity|].
  simpl batch_validator.sorted_insert.
  destruct (if reverse then fst y <=? fst x else fst x <=? fst y) eqn:E;
    [reflexivity|].
  simpl filter in *. rewrite IH.
  destruct (Z.eqb_spec (fst x) n) as [Ex|_];
    destruct (Z.eqb_spec (fst y) n) as [Ey|_]; try reflexivity.
  destruct reverse; lia.
Qed.

Lemma insertion_sort_facts (reverse : bool) (l : list (Z * string)) :
  Permutation (fold_right (batch_validator.sorted_insert reverse) [] l) l
  /\ StronglySorted (fun a b => may_precede reverse (fst a) (fst b))
                    (fold_right (batch_validator.sorted_insert reverse) [] l)
  /\ forall n,
      filter (fun z => fst z =? n)
             (fold_right (batch_validator.sorted_insert reverse) [] l)
      = filter (fun z => fst z =? n) l.
Proof.
  induction l as [|x l (IHp & IHs & IHf)]; simpl.
  - repeat split; constructor.
  - split; [rewrite sorted_insert_perm; now constructor|].
    split; [now apply sorted_insert_sorted|].
    intro n. rewrite sorted_insert_stable. simpl. now rewrite IHf.
Qed.

Lemma strongly_sorted_map {A B : Type} (R : B -> B -> Prop) (f : A -> B)
      (l : list A) :
  StronglySorted (fun a b => R (f a) (f b)) l -> StronglySorted R (map f l).
Proof.
  induction 1 as [|a l Hs IH Ha]; simpl; constructor; [exact IH|].
  apply Forall_map. exact Ha.
Qed.

(** X11.  [sort_by_size] returns the input files rearranged by size,
    smallest first, or largest first when [reverse] is set; a file whose
    size cannot be read for an [OSError] counts as size 0, and files of
    equal size keep the order they had in the input. *)
Theorem sort_by_size_sorts (D : Disk) (file_paths : list string) (reverse : bool) :
  (forall p, In p file_paths -> stat_is_tame D p) ->
  exists sorted_files,
    batch_validator.sort_by_size D file_paths reverse = Ok sorted_files
    /\ Permutation sorted_files file_paths
    /\ StronglySorted
         (fun a b => may_precede reverse (size_or_zero D a) (size_or_zero D b))
         sorted_files
    /\ forall n,
        filter (fun p => size_or_zero D p =? n) sorted_files
        = filter (fun p => size_or_zero D p =? n) file_paths.
Proof.
  intro H. unfold batch_validator.sort_by_size, batch_validator.sorted.
  rewrite (decorate_spec D file_paths H). simpl.
  set (keyed := map (fun p => (size_or_zero D p, p)) file_paths).
  destruct (insertion_sort_facts reverse keyed) as (Hp & Hs & Hf).
  set (out := fold_right (batch_validator.sorted_insert reverse) [] keyed) in *.
  assert (Forall (fun z => fst z = size_or_zero D (snd z)) out) as Hkey.
  { apply Forall_forall. intros z Hz.
    apply (Permutation_in _ Hp) in Hz. unfold keyed in Hz.
    apply in_map_iff in Hz. destruct Hz as (p & <- & _). reflexivity. }
  assert (map snd keyed = file_paths) as Hsnd.
  { unfold keyed. rewrite map_map. simpl. apply map_id. }
  eexists. split; [reflexivity|]. split.
  { rewrite <- Hsnd. now apply Permutation_map. }
  split.
  { apply strongly_sorted_map.
    revert Hkey. generalize out Hs. clear.
    induction 1 as [|z l Hl IH Hz]; intro Hkey; constructor.
    - apply IH. exact (Forall_inv_tail Hkey).
    - pose proof (Forall_inv Hkey) as Ez. pose proof (Forall_inv_tail Hkey) as Hrest.
      rewrite Forall_forall in *. intros y Hy.
      rewrite <- Ez, <- (Hrest y Hy). now apply Hz. }
  intro n.
  assert (forall l, Forall (fun z => fst z = size_or_zero D (snd z)) l ->
                    filter (fun p => size_or_zero D p =? n) (map snd l)
                    = map snd (filter (fun z => fst z =? n) l)) as Hmap.
  { induction l as [|z l IH]; intro Hl; [reflexivity|].
    pose proof (Forall_inv Hl) as Ez. pose proof (Forall_inv_tail Hl) as Hrest.
    simpl. rewrite <- Ez.
    destruct (fst z =? n); simpl; now rewrite IH. }
  rewrite Hmap by exact Hkey. rewrite Hf.
  rewrite <- Hmap; [now rewrite Hsnd|].
  apply Forall_forall. intros z Hz. unfold keyed in Hz.
  apply in_map_iff in Hz. destruct Hz as (p & <- & _). reflexivity.
Qed.

Lemma sort_by_size_sorts_witness :
  (forall p, In p ["big.docx"; "gone.docx"; "large.docx"; "small.docx"] ->
             stat_is_tame shelf.disk p)
  /\ batch_validator.sort_by_size shelf.disk
       ["big.docx"; "gone.docx"; "large.docx"; "small.docx"] false
     = Ok ["gone.docx"; "small.docx"; "big.docx"; "large.docx"]
  /\ batch_validator.sort_by_size shelf.disk
       ["big.docx"; "gone.docx"; "large.docx"; "small.docx"] true
     = Ok ["big.docx"; "large.docx"; "small.docx"; "gone.docx"]
  /\ exists sorted_files,
      batch_validator.sort_by_size shelf.disk
        ["big.docx"; "gone.docx"; "large.docx"; "small.docx"] true
      = Ok sorted_files
      /\ Permutation sorted_files
           ["big.docx"; "gone.docx"; "large.docx"; "small.docx"].
Proof.
  assert (forall p, In p ["big.docx"; "gone.docx"; "large.docx"; "small.docx"] ->
                    stat_is_tame shelf.disk p) as H.
  { intros p [<-|[<-|[<-|[<-|[]]]]] e E; vm_compute in E; try discriminate.
    injection E as <-. reflexivity. }
  split; [exact H|]. split; [reflexivity|]. split; [reflexivity|].
  destruct (sort_by_size_sorts shelf.disk
              ["big.docx"; "gone.docx"; "large.docx"; "small.docx"] true H)
    as (s & E & P & _).
  exists s. split; assumption.
Defined.

(* ================================================================= *)
(** * Directories *)

Lemma collect_valid_spec (W : World) (D : Disk) (v : FileValidator.t)
      (listing : list pathlib.Path) (acc : list string) :
  file_validator.collect_valid W D v listing acc
  = Ok (acc ++ valid_in_listing W D v listing)%list.
Proof.
  unfold valid_in_listing.
  revert acc. induction listing as [|q l IH]; intro acc; simpl.
  - now rewrite app_nil_r.
  - destruct (Path_is_file D q); simpl; [|apply IH].
    unfold passes_validation.
    destruct (validate_file_returns W v (pathlib.str q)) as (b & msg & E).
    rewrite E. simpl. destruct b; simpl; rewrite IH; [|reflexivity].
    unfold py.append. now rewrite <- app_assoc.
Qed.

Lemma get_valid_files_spec (W : World) (D : Disk) (v : FileValidator.t)
      (dir_path : string) :
  file_validator.get_valid_files_in_directory W D v dir_path
  = match Path_rglob D (pathlib.parse dir_path) with
    | Ok listing => valid_in_listing W D v listing
    | Raise _ => []
    end.
Proof.
  unfold file_validator.get_valid_files_in_directory, rbind.
  destruct (Path_rglob D (pathlib.parse dir_path)) as [listing|e];
    [|reflexivity].
  now rewrite collect_valid_spec.
Qed.

Lemma found_files_pass (W : World) (D : Disk) (v : FileValidator.t)
      (dir_path p : string) :
  In p (file_validator.get_valid_files_in_directory W D v dir_path) ->
  passes_validation W v p = true.
Proof.
  rewrite get_valid_files_spec.
  destruct (Path_rglob D (pathlib.parse dir_path)) as [listing|e]; [|intros []].
  unfold valid_in_listing. rewrite in_map_iff. intros (q & <- & Hq).
  apply filter_In in Hq. destruct Hq as [_ Hq].
  now apply andb_true_iff in Hq.
Qed.

Lemma filter_none {A : Type} (p : A -> bool) (l : list A) :
  (forall x, In x l -> p x = true) -> filter (fun x => negb (p x)) l = [].
Proof.
  induction l as [|a l IH]; intro H; simpl; [reflexivity|].
  rewrite (H a) by now left. simpl. apply IH. intros x Hx. apply H. now right.
Qed.

Lemma validate_directory_verdict (W : World) (D : Disk) (v : FileValidator.t)
      (dir_path : string) :
  (directory_in_order W D dir_path = true
   /\ file_validator.get_valid_files_in_directory W D v dir_path <> []
   /\ file_validator.validate_directory W D v dir_path = Ok (true, None))
  \/ ((directory_in_order W D dir_path = false
       \/ file_validator.get_valid_files_in_directory W D v dir_path = [])
      /\ exists msg,
          file_validator.validate_directory W D v dir_path
          = Ok (false, Some msg)).
Proof.
  unfold file_validator.validate_directory, directory_in_order, try_except,
    rbind.
  destruct (Path_exists W dir_path) as [[]|e]; simpl; eauto.
  destruct (Path_is_dir D (pathlib.parse dir_path)); simpl; eauto.
  destruct (os_access_R_OK W (pathlib.str (pathlib.parse dir_path)))
    as [[]|e]; simpl; eauto.
  destruct (file_validator.get_valid_files_in_directory W D v dir_path);
    [right; eauto|left]. repeat split. discriminate.
Qed.

(** X12.  [validate_directory_batch] always returns, and what it returns
    is decided by the directory and by the valid files found in it.  When
    the path is not there, not a directory or not readable, or when no
    valid file is found, both lists are empty and there is one error.
    When the directory is in order and the valid files found are at least
    one and at most [max_files_per_batch], they are all reported valid, in
    the order found, with no invalid file and no error.  When they are
    more than [max_files_per_batch], all of them are reported invalid,
    none valid, with one error. *)
Theorem validate_directory_batch_outcomes
        (W : World) (D : Disk) (self : BatchValidator.t) (dir_path : string) :
  let found :=
    file_validator.get_valid_files_in_directory W D
      (BatchValidator.file_validator self) dir_path in
  exists o,
    batch_validator.validate_directory_batch W D self dir_path = Ok o
    /\ (directory_in_order W D dir_path = false \/ found = [] ->
        batch_validator.valid o = [] /\ batch_validator.invalid o = []
        /\ length (batch_validator.errors o) = 1%nat)
    /\ (directory_in_order W D dir_path = true ->
        found <> [] ->
        Z.of_nat (length found) <= BatchValidator.max_files_per_batch self ->
        batch_validator.valid o = found
        /\ batch_validator.invalid o = []
        /\ batch_validator.errors o = [])
    /\ (directory_in_order W D dir_path = true ->
        Z.of_nat (length found) > BatchValidator.max_files_per_batch self ->
        batch_validator.valid o = []
        /\ batch_validator.invalid o = found
        /\ length (batch_validator.errors o) = 1%nat).
Proof.
  cbv zeta. unfold batch_validator.validate_directory_batch, rbind.
  pose proof (found_files_pass W D (BatchValidator.file_validator self) dir_path)
    as Hpass.
  destruct (validate_directory_verdict W D (BatchValidator.file_validator self)
              dir_path) as [(Ho & Hf & E)|(Hbad & msg & E)]; rewrite E; simpl.
  2:{ eexists. split; [reflexivity|]. simpl.
      split; [auto|]. split.
      - intros Ho Hf _. destruct Hbad; congruence.
      - intros Ho Hgt. destruct Hbad as [Hb|Hb]; [congruence|].
        rewrite Hb. auto. }
  destruct (file_validator.get_valid_files_in_directory W D
              (BatchValidator.file_validator self) dir_path) as [|f fs] eqn:Ef;
    [now contradiction Hf|].
  eexists. split; [reflexivity|].
  remember (f :: fs) as found eqn:Hfound. clear Hfound Ef f fs.
  unfold batch_validator.outcome_of, BatchValidator.validate_batch.
  cbn [batch_validator.valid batch_validator.invalid batch_validator.errors].
  split.
  { intros [Hb|Hb]; congruence. }
  destruct (Z.gtb_spec (Z.of_nat (length found))
                       (BatchValidator.max_files_per_batch self)) as [Hgt|Hle].
  - split; [intros; lia|]. intros _ _. simpl. auto.
  - split; [|intros; lia]. intros _ _ _.
    destruct (validate_loop W self found BatchValidator.empty)
      as (Hv & Hi & He & _).
    rewrite Hv, Hi. simpl BatchValidator.valid. simpl BatchValidator.invalid.
    simpl BatchValidator.errors in He.
    rewrite (filter_none _ found Hpass) in *.
    rewrite (filter_all _ found Hpass).
    repeat split.
    simpl in He.
    destruct (BatchValidator.errors
                (fold_left (BatchValidator.validate_step W self) found
                   BatchValidator.empty)); [reflexivity|discriminate].
Qed.



Example directory_batch_on_the_shelf :
  batch_validator.validate_directory_batch office.world shelf.disk
    (BatchValidator.init office.world) "docs"
  = Ok (batch_validator.mkOutcome ["docs/a.docx"; "docs/old/b.docx"] [] []).
Proof. reflexivity. Qed.


(* ================================================================= *)
(** * The progress tracker *)

Section Tracker.

Import progress.
Import progress.MultiProgressTracker.

Local Abbreviation sum_completed :=
  (fold_right (fun (kv : Z * Worker) acc => files_completed (snd kv) + acc) 0).

Lemma update_worker_keys (f : Worker -> Worker) (w : Z) (d : list (Z * Worker)) :
  map fst (update_worker f w d) = map fst d.
Proof.
  unfold update_worker. rewrite map_map. apply map_ext.
  intros [k v]. simpl. now destruct (k =? w).
Qed.

Lemma update_worker_absent (f : Worker -> Worker) (w : Z) (d : list (Z * Worker)) :
  ~ In w (map fst d) -> update_worker f w d = d.
Proof.
  induction d as [|[k v] d IH]; intro H; simpl; [reflexivity|].
  simpl in H. destruct (Z.eqb_spec k w) as [->|_]; [tauto|].
  f_equal. apply IH. tauto.
Qed.

Lemma has_worker_in (d : list (Z * Worker)) (w : Z) :
  has_worker d w = true <-> In w (map fst d).
Proof.
  unfold has_worker. rewrite existsb_exists, in_map_iff. split.
  - intros ([k v] & Hin & E). apply Z.eqb_eq in E. eauto.
  - intros ([k v] & E & Hin). exists (k, v). split; [exact Hin|].
    now apply Z.eqb_eq.
Qed.

Lemma update_worker_cons (f : Worker -> Worker) (w k : Z) (v : Worker)
      (d : list (Z * Worker)) :
  update_worker f w ((k, v) :: d)
  = (if k =? w then (k, f v) else (k, v)) :: update_worker f w d.
Proof. reflexivity. Qed.

Lemma sum_after_completion (w : Z) (d : list (Z * Worker)) :
  NoDup (map fst d) -> In w (map fst d) ->
  sum_completed
    (update_worker
       (fun x => mkWorker (files_assigned x) (files_completed x + 1) None "idle")
       w d)
  = sum_completed d + 1.
Proof.
  induction d as [|[k v] d IH]; intros Hn Hin; [contradiction|].
  cbn [map fst] in Hn, Hin. rewrite update_worker_cons.
  pose proof (NoDup_cons_iff k (map fst d)) as Hc.
  apply Hc in Hn. destruct Hn as [Hk Hd].
  destruct (Z.eqb_spec k w) as [E|Hne].
  - rewrite E in Hk. rewrite (update_worker_absent _ w d Hk).
    cbn [fold_right snd files_completed]. lia.
  - destruct Hin as [E|Hin]; [congruence|].
    cbn [fold_right snd]. rewrite (IH Hd Hin). lia.
Qed.

Lemma sum_after_assignment (w : Z) (name : string) (d : list (Z * Worker)) :
  sum_completed
    (update_worker
       (fun x => mkWorker (files_assigned x + 1) (files_completed x)
                          (Some name) "processing")
       w d)
  = sum_completed d.
Proof.
  induction d as [|[k v] d IH]; [reflexivity|].
  rewrite update_worker_cons. cbn [fold_right]. rewrite IH.
  now destruct (k =? w).
Qed.

Lemma range_nodup (n : Z) : NoDup (range n).
Proof.
  unfold range. generalize 0%nat.
  induction (Z.to_nat n) as [|k IH]; intro s; simpl; constructor.
  - rewrite in_map_iff. intros (j & E & Hj).
    apply Nat2Z.inj in E. subst j. apply in_seq in Hj. lia.
  - apply IH.
Qed.

Lemma range_in (n w : Z) : In w (range n) <-> 0 <= w < n.
Proof.
  unfold range. rewrite in_map_iff. split.
  - intros (j & <- & Hj). apply in_seq in Hj. lia.
  - intro H. exists (Z.to_nat w). split; [lia|]. apply in_seq. lia.
Qed.

Lemma balanced_init (total n : Z) (now now' : Q) :
  balanced total n (create_multi_progress_tracker total n now now').
Proof.
  unfold progress.balanced, create_multi_progress_tracker, init, total_completed. simpl.
  split; [rewrite map_map; apply map_id|]. repeat split.
  induction (range n) as [|i l IH]; simpl; [reflexivity|exact IH].
Qed.

Lemma balanced_step (total n : Z) (c : call) (t : MultiProgressTracker.t) :
  balanced total n t -> balanced total n (run_call c t).
Proof.
  intros (Hk & Ht & Hn & Hs & He).
  destruct c as [w name|w name success error now]; simpl.
  - unfold assign_file_to_worker.
    destruct (has_worker (worker_progress t) w); [|repeat split; assumption].
    unfold progress.balanced, total_completed. simpl.
    rewrite update_worker_keys, sum_after_assignment. repeat split; assumption.
  - unfold complete_file_in_worker.
    destruct (has_worker (worker_progress t) w) eqn:Hw;
      [|repeat split; assumption].
    apply has_worker_in in Hw.
    unfold progress.balanced, total_completed. simpl.
    rewrite update_worker_keys.
    rewrite sum_after_completion;
      [|rewrite Hk; apply range_nodup|exact Hw].
    unfold total_completed in Hs. rewrite Hs.
    unfold ProgressTracker.complete_file.
    split; [exact Hk|]. split; [exact Ht|]. split; [exact Hn|].
    destruct success; simpl; [split; [lia|exact He]|].
    split; [lia|]. unfold py.append. rewrite length_app. simpl. lia.
Qed.

Lemma balanced_run (total n : Z) (cs : list call) (t : MultiProgressTracker.t) :
  balanced total n t -> balanced total n (run_calls cs t).
Proof.
  unfold run_calls. revert t.
  induction cs as [|c cs IH]; intros t H; simpl; [exact H|].
  apply IH. now apply balanced_step.
Qed.

(** X14.  Whatever calls of [assign_file_to_worker] and
    [complete_file_in_worker] a [MultiProgressTracker] made for [n] workers
    receives, its workers stay the ids [0 .. n-1], the files completed over
    all workers are the completed plus the failed files of the global
    tracker, there is one recorded error per failed file, and
    [is_complete] holds exactly when completed plus failed files reach
    [total_files].  A call for an id outside [0 .. n-1] changes nothing. *)
Theorem tracker_books_balance (total n : Z) (now now' : Q) (cs : list call) :
  let t := run_calls cs (create_multi_progress_tracker total n now now') in
  map fst (worker_progress t) = range n
  /\ total_completed t
     = ProgressTracker.completed_files (global_progress t)
       + ProgressTracker.failed_files (global_progress t)
  /\ Z.of_nat (length (ProgressTracker.errors (global_progress t)))
     = ProgressTracker.failed_files (global_progress t)
  /\ (is_complete t = true
      <-> total <= ProgressTracker.completed_files (global_progress t)
                   + ProgressTracker.failed_files (global_progress t))
  /\ (forall w name success error at_time,
         ~ (0 <= w < n) ->
         assign_file_to_worker w name t = t
         /\ complete_file_in_worker w name success error at_time t = t).
Proof.
  cbv zeta.
  destruct (balanced_run total n cs _ (balanced_init total n now now'))
    as (Hk & Ht & Hn & Hs & He).
  split; [exact Hk|]. split; [exact Hs|]. split; [exact He|]. split.
  - unfold is_complete. rewrite Hs, Ht. rewrite Z.geb_le. reflexivity.
  - intros w name success error at_time Hw.
    assert (has_worker
              (worker_progress
                 (run_calls cs
                    (create_multi_progress_tracker total n now now'))) w
            = false) as Hno.
    { destruct (has_worker _ w) eqn:E; [|reflexivity].
      apply has_worker_in in E. rewrite Hk in E. apply range_in in E. lia. }
    unfold assign_file_to_worker, complete_file_in_worker. rewrite Hno. auto.
Qed.

End Tracker.

(* ================================================================= *)
(** * Paths: printing and parsing again *)

Lemma parse_well_formed (s : string) : well_formed (pathlib.parse s).
Proof.
  split.
  - unfold pathlib.parse, pathlib.splitroot. simpl.
    destruct s as [|a [|b [|c s]]]; auto;
      destruct (Ascii.eqb a pathlib.slash); auto;
      try (destruct (Ascii.eqb b pathlib.slash); auto);
      destruct (negb (Ascii.eqb c pathlib.slash)); auto.
  - unfold pathlib.parse. simpl. apply Forall_forall. intros x Hx.
    apply filter_In in Hx. destruct Hx as [Hx Hk].
    split; [now apply split_slash_free in Hx|exact Hk].
Qed.

Lemma split_app_slash (a s : string) :
  has_slash a = false ->
  py.split pathlib.slash (a ++ String pathlib.slash s)
  = a :: py.split pathlib.slash s.
Proof.
  induction a as [|c a IH]; intro H.
  - simpl. reflexivity.
  - simpl in H. apply orb_false_iff in H. destruct H as [Hc Ha].
    simpl. rewrite Hc, (IH Ha). reflexivity.
Qed.

Lemma split_join (ps : list string) :
  ps <> [] ->
  Forall (fun x => has_slash x = false /\ pathlib.keep_part x = true) ps ->
  py.split pathlib.slash (py.join "/" ps) = ps.
Proof.
  induction ps as [|a ps IH]; intros Hne H; [congruence|].
  pose proof (Forall_inv H) as [Ha _]. pose proof (Forall_inv_tail H) as Hps.
  destruct ps as [|b ps].
  - simpl. now apply split_of_slash_free.
  - change (py.join "/" (a :: b :: ps))
      with (a ++ String pathlib.slash (py.join "/" (b :: ps)))%string.
    rewrite (split_app_slash _ _ Ha). f_equal. apply IH; [discriminate|exact Hps].
Qed.

Lemma filter_kept (ps : list string) :
  Forall (fun x => has_slash x = false /\ pathlib.keep_part x = true) ps ->
  filter pathlib.keep_part ps = ps.
Proof.
  intro H. apply filter_all. intros x Hx.
  rewrite Forall_forall in H. now destruct (H x Hx).
Qed.

Lemma kept_first_char (x : string) :
  has_slash x = false -> pathlib.keep_part x = true ->
  exists c rest, x = String c rest /\ Ascii.eqb c pathlib.slash = false.
Proof.
  destruct x as [|c rest]; intros Hs Hk; [discriminate|].
  simpl in Hs. apply orb_false_iff in Hs. destruct Hs as [Hc _]. eauto.
Qed.

Lemma join_first_char (ps : list string) :
  ps <> [] ->
  Forall (fun x => has_slash x = false /\ pathlib.keep_part x = true) ps ->
  exists c rest,
    py.join "/" ps = String c rest /\ Ascii.eqb c pathlib.slash = false.
Proof.
  destruct ps as [|a ps]; intros Hne H; [congruence|].
  pose proof (Forall_inv H) as [Ha Hk].
  destruct (kept_first_char a Ha Hk) as (c & rest & -> & Hc).
  destruct ps as [|b ps]; simpl; eauto.
Qed.

Lemma split_leading_slash (s : string) :
  py.split pathlib.slash (String pathlib.slash s)
  = "" :: py.split pathlib.slash s.
Proof. reflexivity. Qed.

Lemma filter_empty_head (l : list string) :
  filter pathlib.keep_part ("" :: l) = filter pathlib.keep_part l.
Proof. reflexivity. Qed.

(** Printing a path and parsing the text gives the path back. *)
Lemma parse_str (q : pathlib.Path) :
  well_formed q -> pathlib.parse (pathlib.str q) = q.
Proof.
  destruct q as [r ps]. intros [Hr Hps]. simpl in Hr, Hps.
  unfold pathlib.parse, pathlib.str. simpl pathlib.root. simpl pathlib.parts.
  destruct ps as [|a ps].
  - destruct Hr as [ -> | [ -> | -> ] ]; reflexivity.
  - assert (a :: ps <> []) as Hne by discriminate.
    destruct (join_first_char (a :: ps) Hne Hps) as (c & rest & Ej & Hc).
    pose proof (split_join (a :: ps) Hne Hps) as Es.
    pose proof (filter_kept (a :: ps) Hps) as Ef.
    destruct Hr as [ -> | [ -> | -> ] ].
    + change (py.truthy "") with false. cbn iota.
      rewrite Es, Ef. f_equal. rewrite Ej.
      unfold pathlib.splitroot. destruct rest as [|b [|d rest]]; now rewrite Hc.
    + change (py.truthy "/") with true. cbn iota.
      change ("/" ++ py.join "/" (a :: ps))%string
        with (String pathlib.slash (py.join "/" (a :: ps))).
      f_equal.
      * rewrite Ej. unfold pathlib.splitroot.
        destruct rest as [|b rest]; simpl; now rewrite Hc.
      * rewrite split_leading_slash, filter_empty_head, Es. exact Ef.
    + change (py.truthy "//") with true. cbn iota.
      change ("//" ++ py.join "/" (a :: ps))%string
        with (String pathlib.slash
                (String pathlib.slash (py.join "/" (a :: ps)))).
      f_equal.
      * rewrite Ej. unfold pathlib.splitroot. simpl. now rewrite Hc.
      * rewrite !split_leading_slash, !filter_empty_head, Es. exact Ef.
Qed.

Lemma endswith_app (a b : string) : py.endswith (a ++ b) b = true.
Proof.
  induction a as [|c a IH].
  - destruct b as [|x b]; [reflexivity|].
    simpl. now rewrite Ascii.eqb_refl, String.eqb_refl.
  - simpl.
    match goal with
    | |- (if ?t then _ else _) = _ => destruct t; [reflexivity|exact IH]
    end.
Qed.

Lemma output_path_as_path (input_path output_dir : string) :
  _get_output_path input_path output_dir
  = pathlib.str
      (pathlib.mkPath
         (pathlib.root (pathlib.parse output_dir))
         (pathlib.parts (pathlib.parse output_dir)
          ++ [pathlib.stem (pathlib.parse input_path) ++ ".pdf"])).
Proof.
  unfold _get_output_path, pathlib.truediv.
  rewrite (parse_pdf_name _ (stem_slash_free input_path)). reflexivity.
Qed.

(** X15.  The output path of a file lies directly in the output
    directory: read as a path again, its parent is the output directory and
    its name is the stem of the input file followed by [.pdf], and as a
    text it ends in [.pdf].  So the directory that [convert_document]
    creates for an output path of the processor is the one that
    [_process_parallel] created before. *)
Theorem output_path_lies_in_output_dir (input_path output_dir : string) :
  pathlib.parent (pathlib.parse (_get_output_path input_path output_dir))
  = pathlib.parse output_dir
  /\ pathlib.name (pathlib.parse (_get_output_path input_path output_dir))
     = (pathlib.stem (pathlib.parse input_path) ++ ".pdf")%string
  /\ py.endswith (_get_output_path input_path output_dir) ".pdf" = true.
Proof.
  rewrite output_path_as_path.
  set (file := (pathlib.stem (pathlib.parse input_path) ++ ".pdf")%string).
  pose proof (parse_well_formed output_dir) as [Hr Hps].
  assert (has_slash file = false /\ pathlib.keep_part file = true) as Hfile.
  { pose proof (parse_pdf_name _ (stem_slash_free input_path)) as E.
    fold file in E. split.
    - unfold file. rewrite has_slash_app, stem_slash_free. reflexivity.
    - assert (In file (pathlib.parts (pathlib.parse file))) as Hin
          by (rewrite E; now left).
      unfold pathlib.parse in Hin. simpl in Hin.
      apply filter_In in Hin. now destruct Hin. }
  destruct (pathlib.parse output_dir) as [r ps]. simpl in Hr, Hps.
  simpl pathlib.root. simpl pathlib.parts.
  assert (well_formed (pathlib.mkPath r (ps ++ [file]))) as Hwf.
  { split; [exact Hr|]. simpl. apply Forall_app. split; [exact Hps|].
    constructor; [exact Hfile|constructor]. }
  rewrite (parse_str _ Hwf).
  split.
  - unfold pathlib.parent. simpl.
    destruct (ps ++ [file])%list eqn:E;
      [destruct ps; discriminate|].
    rewrite <- E, removelast_last. reflexivity.
  - split.
    + unfold pathlib.name. simpl. apply last_last.
    + unfold pathlib.str. simpl.
      assert (forall x, py.endswith (x ++ py.join "/" (ps ++ [file])) ".pdf"
                        = true) as Hend.
      { intro x. destruct ps as [|a ps'].
        - simpl. unfold file. rewrite <- string_app_assoc. apply endswith_app.
        - rewrite join_snoc by discriminate. unfold file.
          rewrite <- !string_app_assoc. apply endswith_app. }
      destruct (py.truthy r); [apply Hend|].
      destruct (ps ++ [file])%list eqn:E; [destruct ps; discriminate|].
      exact (Hend "").
Qed.

Lemma parent_well_formed (q : pathlib.Path) :
  well_formed q -> well_formed (pathlib.parent q).
Proof.
  intros [Hr Hps]. unfold pathlib.parent.
  destruct (pathlib.parts q) as [|a ps] eqn:E; [split; [exact Hr|now rewrite E]|].
  split; [exact Hr|]. simpl pathlib.parts.
  apply Forall_forall. intros x Hx. rewrite Forall_forall in Hps.
  apply Hps.
  clear - Hx. revert a Hx. induction ps as [|b ps IH]; intros a Hx.
  - contradiction.
  - simpl in Hx. destruct Hx as [<-|Hx]; [now left|].
    right. now apply IH.
Qed.

Lemma parent_root (q : pathlib.Path) :
  pathlib.root (pathlib.parent q) = pathlib.root q.
Proof. unfold pathlib.parent. now destruct (pathlib.parts q). Qed.

(** X16.  [Config.get_output_path] names the PDF as the processor does,
    [stem + ".pdf"], and creates the directory it puts it in.  Without
    [create_subdirs] that directory is [default_output_dir].  With
    [create_subdirs] and an absolute input path it is the directory of the
    input file itself, whatever [default_output_dir] is; with a relative
    input path it is the directory of the input file below
    [default_output_dir].  When the directory cannot be created the call
    raises. *)
Theorem config_output_path
        (W : World) (self : Config.t) (input_path : string) :
  let input := pathlib.parse input_path in
  let target :=
    if Config.create_subdirs self
    then (if py.truthy (pathlib.root input)
          then pathlib.parent input
          else pathlib.mkPath
                 (pathlib.root (pathlib.parse (Config.default_output_dir self)))
                 (pathlib.parts (pathlib.parse (Config.default_output_dir self))
                  ++ pathlib.parts (pathlib.parent input)))
    else pathlib.parse (Config.default_output_dir self) in
  well_formed target
  /\ (forall e, Path_mkdir W target = Raise e ->
                Config.get_output_path W self input_path = Raise e)
  /\ (Path_mkdir W target = Ok tt ->
      Config.get_output_path W self input_path
      = Ok (_get_output_path input_path (pathlib.str target))).
Proof.
  cbv zeta.
  set (input := pathlib.parse input_path).
  set (dir := pathlib.parse (Config.default_output_dir self)).
  match goal with |- well_formed ?t /\ _ => set (target := t) end.
  assert (well_formed target) as Hwf.
  { unfold target.
    pose proof (parse_well_formed input_path) as Hi. fold input in Hi.
    pose proof (parent_well_formed input Hi) as Hp.
    pose proof (parse_well_formed (Config.default_output_dir self)) as Hd.
    fold dir in Hd.
    destruct (Config.create_subdirs self); [|exact Hd].
    destruct (py.truthy (pathlib.root input)); [exact Hp|].
    destruct Hd as [Hr Hps]. destruct Hp as [_ Hpp].
    split; [exact Hr|]. simpl. apply Forall_app. auto. }
  assert (Config.get_output_path W self input_path
          = rbind (Path_mkdir W target) (fun _ =>
            Ok (pathlib.str (pathlib.truediv target
                               (pathlib.stem input ++ ".pdf"))))) as E.
  { unfold Config.get_output_path, Config.truediv_path, target.
    rewrite parent_root. fold input. fold dir.
    destruct (Config.create_subdirs self); [|reflexivity].
    destruct (py.truthy (pathlib.root input)); reflexivity. }
  split; [exact Hwf|]. rewrite E. split.
  - intros e Em. now rewrite Em.
  - intro Em. rewrite Em. simpl. unfold _get_output_path. fold input.
    now rewrite (parse_str _ Hwf).
Qed.

Example config_output_path_absolute :
  Config.get_output_path office.world Config.default "/home/ana/cv.docx"
  = Ok "/home/ana/cv.pdf".
Proof. reflexivity. Qed.

Example config_output_path_relative :
  Config.get_output_path office.world Config.default "letters/cv.docx"
  = Ok "output/letters/cv.pdf".
Proof. reflexivity. Qed.

(* ================================================================= *)
(** * What a task reports *)


(** Without a place for its log file the worker cannot construct its
    converter, and the task reports the bare text of that exception. *)
Example convert_single_file_without_logs :
  _convert_single_file office.without_logs "a.docx" "out/a.pdf"
  = (false, "out/a.pdf", Some "[Errno 13] Permission denied: 'logs'")
  /\ _convert_single_file office.world "a.docx" "out/a.pdf"
     = (true, "out/a.pdf", None).
Proof. split; reflexivity. Qed.

(* ================================================================= *)
(** * The order of submission *)

Lemma enumerate_events (out : string) (vs : list string) (n : nat) :
  map submitted_event (enumerate n vs out)
  = map (fun p => Submitted (fst p) (snd p) (_get_output_path (snd p) out))
        (combine (seq n (length vs)) vs).
Proof.
  revert n. induction vs as [|f vs IH]; intro n; [reflexivity|].
  simpl. f_equal. apply IH.
Qed.

Lemma submit_calls_positive (k : Pool) (out : string) (l : list string)
      (bs : list Future) :
  l <> [] -> (1 <= submit_calls k out bs l)%nat.
Proof.
  destruct l as [|f l]; [intro H; now contradiction H|]. intros _. simpl.
  destruct (submit_fault k bs f (_get_output_path f out)); lia.
Qed.

(** X18.  When a call reaches the pool it creates the pool first and then
    calls [executor.submit] for the validated files in the order of the
    input list, each with the output path
    [_get_output_path file output_dir], the futures numbered 0, 1, 2, ...
    in that order; it stops at the first call of [submit] that raises.
    So it makes at least one call and at most one per validated file; the
    calls before the last one returned; the last one raised when a
    [submit] raises at all, and there is one call per validated file when
    none does.  This is all the call adds to the trace. *)
Theorem process_files_submits_in_input_order
        (W : World) (k : Pool) (t0 t1 : Q) (l : list string) (out : string)
        (m : Machine) :
  fair k ->
  reaches_pool W m l out = true ->
  exists r m' n,
    process_files W k t0 t1 l out m = (Ok r, m')
    /\ (1 <= n <= length (valid_files_of W m l))%nat
    /\ trace m'
       = (trace m
          ++ PoolCreated (max_workers (self m))
             :: map (fun p => Submitted (fst p) (snd p)
                                (_get_output_path (snd p) out))
                    (combine (seq 0 n) (firstn n (valid_files_of W m l))))%list
    /\ (forall i, (S i < n)%nat ->
                  submit_fault_at k out (valid_files_of W m l) i = None)
    /\ (submits_all k out (valid_files_of W m l) = true ->
        n = length (valid_files_of W m l)
        /\ submit_fault_at k out (valid_files_of W m l) (n - 1) = None)
    /\ (submits_all k out (valid_files_of W m l) = false ->
        exists e,
          submit_fault_at k out (valid_files_of W m l) (n - 1) = Some e).
Proof.
  intros Hk Hr.
  destruct (process_files_summary W k t0 t1 l out m Hk) as
      (r & m' & E & _ & _ & _ & _ & _ & _ & _ & Tr & _).
  exists r, m', (submit_calls k out [] (valid_files_of W m l)).
  split; [exact E|].
  assert (valid_files_of W m l <> []) as Hv.
  { unfold reaches_pool in Hr. destruct (valid_files_of W m l); discriminate. }
  pose proof (submit_calls_positive k out (valid_files_of W m l) [] Hv) as Hpos.
  pose proof (submit_calls_le k out (valid_files_of W m l) []) as Hle.
  destruct (submit_run k out (valid_files_of W m l) []) as (H1 & H2 & H3).
  split; [split; assumption|].
  split.
  { rewrite Tr. unfold events_of_call. rewrite Hr.
    rewrite enumerate_firstn, enumerate_events.
    rewrite length_firstn, Nat.min_l by exact Hle.
    reflexivity. }
  split; [exact H1|].
  split.
  - intro Ha. apply submits_all_true in Ha.
    rewrite (submit_calls_all k out _ [] Ha) in *.
    split; [reflexivity|]. apply (H3 Ha). lia.
  - intro Ha. apply submits_all_false in Ha. destruct Ha as (e & Ha).
    destruct (H2 e Ha) as (j & Ej & Hj). exists e.
    change (futures_of [] out) with (@nil Future) in Ej.
    rewrite Ej. replace (S j - 1)%nat with j by lia. exact Hj.
Qed.

Lemma process_files_submits_in_input_order_witness :
  fair office.reversed
  /\ reaches_pool office.world (office.start (Some 2))
       ["a.docx"; "missing.docx"; "x/b.docx"] "out" = true
  /\ (exists r m',
         process_files office.world office.reversed 10 12
           ["a.docx"; "missing.docx"; "x/b.docx"] "out" (office.start (Some 2))
         = (Ok r, m')
         /\ trace m' = [PoolCreated 2; Submitted 0 "a.docx" "out/a.pdf";
                        Submitted 1 "x/b.docx" "out/b.pdf"])
  /\ (exists r m',
         process_files office.world office.breaks_early 10 12
           ["a.docx"; "x/b.docx"; "c.docx"] "out" (office.start (Some 2))
         = (Ok r, m')
         /\ trace m' = [PoolCreated 2; Submitted 0 "a.docx" "out/a.pdf";
                        Submitted 1 "x/b.docx" "out/b.pdf"]).
Proof.
  split; [exact fair_reversed|]. split; [reflexivity|]. split.
  - destruct (process_files_submits_in_input_order office.world office.reversed
                10 12 ["a.docx"; "missing.docx"; "x/b.docx"] "out"
                (office.start (Some 2)) fair_reversed eq_refl)
      as (r & m' & n & E & _ & Tr & _ & Hn & _).
    exists r, m'. split; [exact E|]. rewrite Tr, (proj1 (Hn eq_refl)).
    reflexivity.
  - eexists. eexists. split; vm_compute; reflexivity.
Defined.

(* ================================================================= *)
(** * Worker counts *)

(** X19.  [get_optimal_worker_count] returns a usable pool size: at
    least 1 and at most [self.max_workers] for more than 20 files, and
    between 1 and 4 otherwise, whenever the machine has a CPU and
    [self.max_workers] is positive.  It never grows when the number of
    files shrinks to 20 or to 5 files or fewer and [max_workers] is at
    least 4. *)
Theorem optimal_worker_count_is_usable
        (W : World) (p : ParallelProcessor.t) (file_count : Z) :
  1 <= cpu_count W -> 1 <= max_workers p ->
  1 <= get_optimal_worker_count W p file_count
  /\ get_optimal_worker_count W p file_count <= cpu_count W
  /\ (file_count <= 20 -> get_optimal_worker_count W p file_count <= 4)
  /\ (20 < file_count ->
      get_optimal_worker_count W p file_count <= max_workers p)
  /\ (4 <= max_workers p ->
      forall fewer, fewer <= file_count ->
        get_optimal_worker_count W p fewer
        <= get_optimal_worker_count W p file_count).
Proof.
  intros Hc Hm. unfold get_optimal_worker_count.
  repeat split; intros;
    repeat match goal with
           | |- context [?a <=? ?b] => destruct (Z.leb_spec a b)
           end; lia.
Qed.

Lemma optimal_worker_count_is_usable_witness :
  1 <= cpu_count office.world
  /\ 1 <= max_workers (init office.world (Some 6))
  /\ 1 <= get_optimal_worker_count office.world (init office.world (Some 6)) 30
  /\ get_optimal_worker_count office.world (init office.world (Some 6)) 30 <= 6.
Proof.
  assert (1 <= cpu_count office.world) as Hc by (simpl; lia).
  assert (1 <= max_workers (init office.world (Some 6))) as Hm by (simpl; lia).
  split; [exact Hc|]. split; [exact Hm|].
  destruct (optimal_worker_count_is_usable office.world
              (init office.world (Some 6)) 30 Hc Hm) as (H1 & _ & _ & H4 & _).
  split; [exact H1|]. apply H4. lia.
Defined.

(* ================================================================= *)
(** * The validator and the converter agree on formats *)

Lemma lower_app (a b : string) : py.lower (a ++ b) = (py.lower a ++ py.lower b)%string.
Proof. induction a as [|c a IH]; simpl; [reflexivity|]. now rewrite IH. Qed.

Lemma substring_split (s : string) (n : nat) :
  (n <= String.length s)%nat ->
  s = (String.substring 0 n s
       ++ String.substring n (String.length s - n) s)%string.
Proof.
  revert n. induction s as [|c s IH]; intros n H.
  - simpl in H. assert (n = 0)%nat as -> by lia. reflexivity.
  - destruct n as [|n].
    + simpl. f_equal.
      clear. induction s as [|d s IH]; simpl; [reflexivity|].
      f_equal. exact IH.
    + simpl in H. simpl. f_equal. apply IH. lia.
Qed.

Lemma join_ends_with_last (ps : list string) :
  ps <> [] -> exists x, py.join "/" ps = (x ++ last ps "")%string.
Proof.
  induction ps as [|a ps IH]; intro H; [congruence|].
  destruct ps as [|b ps].
  - exists "". reflexivity.
  - destruct IH as (x & E); [discriminate|].
    exists (a ++ "/" ++ x)%string.
    change (py.join "/" (a :: b :: ps))
      with (a ++ "/" ++ py.join "/" (b :: ps))%string.
    rewrite E. change (last (a :: b :: ps) "") with (last (b :: ps) "").
    now rewrite !string_app_assoc.
Qed.

(** A path in normal form ends with its suffix. *)
Lemma text_ends_with_suffix (p : string) :
  pathlib.str (pathlib.parse p) = p ->
  exists x, p = (x ++ pathlib.suffix (pathlib.parse p))%string.
Proof.
  intro Hn. unfold pathlib.suffix.
  set (name := pathlib.name (pathlib.parse p)).
  set (i := py.rfind pathlib.dot name).
  destruct ((0 <? i) && (i <? py.len name - 1))%bool eqn:Ec.
  2:{ exists p. clear. induction p as [|c p IH]; simpl; [reflexivity|].
      now rewrite <- IH. }
  apply andb_true_iff in Ec. destruct Ec as [E0 E1].
  apply Z.ltb_lt in E0, E1. unfold py.len in E1.
  assert (exists y, p = (y ++ name)%string) as (y & Ey).
  { unfold name, pathlib.name.
    destruct (pathlib.parts (pathlib.parse p)) as [|a ps] eqn:Ep.
    - exfalso. unfold name, pathlib.name in E1. rewrite Ep in E1.
      simpl in E1. lia.
    - destruct (join_ends_with_last (a :: ps)) as (x & Ej); [discriminate|].
      assert (p = if py.truthy (pathlib.root (pathlib.parse p))
                  then (pathlib.root (pathlib.parse p)
                        ++ py.join "/" (a :: ps))%string
                  else py.join "/" (a :: ps)) as Et.
      { transitivity (pathlib.str (pathlib.parse p)); [now symmetry|].
        unfold pathlib.str. now rewrite Ep. }
      destruct (py.truthy (pathlib.root (pathlib.parse p))).
      + exists (pathlib.root (pathlib.parse p) ++ x)%string.
        rewrite Et at 1. rewrite Ej. now rewrite string_app_assoc.
      + exists x. rewrite Et at 1. exact Ej. }
  exists (y ++ py.slice_to name i)%string.
  rewrite string_app_assoc. rewrite Ey at 1. f_equal.
  unfold py.slice_to, py.slice_from. apply substring_split. lia.
Qed.

(** X20.  The validator and the converter agree on formats.  With the
    supported extensions [.doc] and [.docx], a path in normal form that
    passes validation ends, lower-cased, in [.doc] or [.docx]: so
    [_load_document] does not refuse it as an unsupported format, and
    returns the document whenever the library that reads it does. *)
Theorem validated_file_is_loadable (W : World) (v : FileValidator.t) (p : string) :
  settings.supported_extensions (config W) = [".doc"; ".docx"] ->
  pathlib.str (pathlib.parse p) = p ->
  passes_validation W v p = true ->
  (py.endswith (py.lower p) ".doc" || py.endswith (py.lower p) ".docx")%bool
  = true
  /\ (py.endswith (py.lower p) ".doc" = true ->
      forall doc, antiword_document W p = Ok doc ->
                  DocumentConverter._load_document W p = Ok doc)
  /\ (py.endswith (py.lower p) ".doc" = false ->
      forall doc, docx_Document W p = Ok doc ->
                  DocumentConverter._load_document W p = Ok doc).
Proof.
  intros Hc Hn Hp.
  assert (py.endswith (py.lower p) ".doc" || py.endswith (py.lower p) ".docx"
          = true)%bool as Hend.
  { pose proof (passes_has_valid_extension W v p Hp) as Hx.
    unfold FileValidator._has_valid_extension, settings.is_supported_extension,
      py.str_in in Hx.
    rewrite Hc, lower_idem in Hx. simpl in Hx.
    rewrite !orb_true_iff, !String.eqb_eq in Hx.
    destruct (text_ends_with_suffix p Hn) as (x & Ex).
    rewrite Ex, lower_app.
    destruct Hx as [Hx|[Hx|Hx]]; [| |discriminate Hx];
      rewrite Hx; rewrite endswith_app; [reflexivity|apply orb_true_r]. }
  split; [exact Hend|].
  unfold DocumentConverter._load_document, DocumentConverter._load_doc_file,
    try_except.
  rewrite Hend. simpl negb. cbn iota.
  split; intros Hd doc E; rewrite Hd, E; reflexivity.
Qed.

Lemma validated_file_is_loadable_witness :
  settings.supported_extensions (config office.world) = [".doc"; ".docx"]
  /\ pathlib.str (pathlib.parse "x/Letter.DOCX") = "x/Letter.DOCX"
  /\ passes_validation office.world (FileValidator.init office.world)
       "x/Letter.DOCX" = true
  /\ (py.endswith (py.lower "x/Letter.DOCX") ".doc"
      || py.endswith (py.lower "x/Letter.DOCX") ".docx")%bool = true
  /\ DocumentConverter._load_document office.world "x/Letter.DOCX"
     = Ok (mkDocument ["text"]).
Proof.
  split; [reflexivity|]. split; [reflexivity|]. split; [reflexivity|].
  destruct (validated_file_is_loadable office.world
              (FileValidator.init office.world) "x/Letter.DOCX"
              eq_refl eq_refl eq_refl) as (H1 & _ & H3).
  split; [exact H1|]. apply H3; reflexivity.
Defined.
